(** * TecnicoFS: a shallow embedding of the in-memory file system

    The development follows the three C translation units of the
    repository: [config.h] (constants), [state.c] (inode table, data-block
    pool, open-file table) and [operations.c] (the public [tfs_*] API and
    the direct/indirect read and write engines).

    Conventions of the embedding.
    - A C array is a total map [Z -> A]; the program guards every access
      with [valid_inumber], [valid_block_number] or [valid_file_handle],
      and an unguarded store outside the declared bounds is undefined
      behaviour, which the embedding reports as [None].
    - [fs_data] is byte addressed.  It is declared in C as an array of
      [BLOCK_SIZE * DATA_BLOCKS] cells of type [allocation_state_t] (an
      enum, 4 bytes), so block [b] starts at byte [b * BLOCK_SIZE * 4].
    - The [dir_entry_t] view of a block is kept in a separate component
      [fs_dir]; the byte view and the directory view of a block are
      never mixed by the program on states built by the API (block 0 is
      the root directory from [tfs_init] on and is never freed).
    - [size_t] values are [Z] with the 64-bit wrap-around written out by
      [to_size_t]; [ssize_t] and [int] conversions are [to_ssize_t] and
      [to_int].
    - Locks are no-ops for the sequential functions (every acquisition
      succeeds); the lock protecting the open-file table is modelled
      explicitly in [Module Interleaving].
    - [insert_delay] has no effect on the state and is left out. *)

From Stdlib Require Import ZArith Lia List Bool String Ascii.
Import ListNotations.
Local Open Scope Z_scope.

(** ** config.h *)

Abbreviation ROOT_DIR_INUM := 0 (only parsing).
Abbreviation BLOCK_SIZE := 1024 (only parsing).
Abbreviation DATA_BLOCKS := 1024 (only parsing).
Abbreviation INODE_TABLE_SIZE := 50 (only parsing).
Abbreviation MAX_OPEN_FILES := 20 (only parsing).
Abbreviation MAX_FILE_NAME := 40 (only parsing).
Abbreviation INT_SIZE := 4 (only parsing).
Abbreviation MAX_BYTES := 272384 (only parsing).
Abbreviation MAX_DIRECT_BLOCKS := 10 (only parsing).
Abbreviation MAX_BYTES_DIRECT_DATA := 10240 (only parsing).
Abbreviation I_BLOCK_SIZE := 11 (only parsing).

(** state.c *)
Abbreviation FIRST_INDIRECT_BLOCK := 12 (only parsing).
Abbreviation REFERENCE_BLOCK_INDEX := 11 (only parsing).

(** [sizeof(allocation_state_t)]: an enum is an [int]. *)
Abbreviation sizeof_allocation_state_t := 4 (only parsing).
(** [sizeof(void * )] on the LP64 targets the program is built for. *)
Abbreviation sizeof_pointer := 8 (only parsing).
(** [MAX_DIR_ENTRIES] is [BLOCK_SIZE / sizeof(dir_entry_t)]; with glibc on
    x86-64 the entry is 40 + 4 (+ 4 padding) + 40 (mutex) + 56 (rwlock)
    = 144 bytes, which gives 7 entries. *)
Abbreviation MAX_DIR_ENTRIES := 7 (only parsing).

(** Modelled from the spec: the open flags of [operations.h], which is not
    among the sources.  Section 6 of the specification fixes bit 0 for
    APPEND, bit 1 for TRUNC and bit 6 for CREATE. *)
Definition TFS_O_APPEND : Z := 1.
Definition TFS_O_TRUNC : Z := 2.
Definition TFS_O_CREAT : Z := 64.

(** ** Machine integers *)

Definition to_size_t (z : Z) : Z := z mod 2 ^ 64.

Definition to_ssize_t (z : Z) : Z :=
  let w := z mod 2 ^ 64 in if w <? 2 ^ 63 then w else w - 2 ^ 64.

Definition to_int (z : Z) : Z :=
  let w := z mod 2 ^ 32 in if w <? 2 ^ 31 then w else w - 2 ^ 32.

(** ** Arrays and raw memory *)

Definition upd {A : Type} (a : Z -> A) (i : Z) (x : A) : Z -> A :=
  fun j => if j =? i then x else a j.

(** [for (i = lo; i < hi; i++) a[i] = x;] *)
Definition fill {A : Type} (a : Z -> A) (lo hi : Z) (x : A) : Z -> A :=
  fun j => if (lo <=? j) && (j <? hi) then x else a j.

(** A buffer handed in by the client is a pointer into memory the file
    system does not own: a map from byte offsets to bytes. *)
Definition buffer_t := Z -> Z.

(** [p + k] on a byte pointer. *)
Definition ptr_add (p : buffer_t) (k : Z) : buffer_t := fun i => p (k + i).

(** [memset(m + dst, c, n)] on byte-addressed memory [m]. *)
Definition memset (m : Z -> Z) (dst c n : Z) : Z -> Z :=
  fun a => if (dst <=? a) && (a <? dst + n) then c mod 256 else m a.

(** [memcpy(m + dst, src, n)]. *)
Definition memcpy (m : Z -> Z) (dst : Z) (src : buffer_t) (n : Z) : Z -> Z :=
  fun a => if (dst <=? a) && (a <? dst + n) then src (a - dst) else m a.

(** A store of the 32-bit [int] [v] at byte address [a], little endian. *)
Definition store_int (m : Z -> Z) (a v : Z) : Z -> Z :=
  fun j =>
    if (a <=? j) && (j <? a + INT_SIZE)
    then (v mod 2 ^ 32) / 2 ^ (8 * (j - a)) mod 256
    else m j.

(** ** state.h *)

Inductive inode_type := T_FILE | T_DIRECTORY.

Inductive allocation_state_t := FREE | TAKEN.

Inductive lock_state_t := READ | WRITE | MUTEX.

Record dir_entry_t := mk_dir_entry {
  d_name : string;       (* the C string held in d_name[MAX_FILE_NAME] *)
  d_inumber : Z
}.

Record inode_t := mk_inode {
  i_node_type : inode_type;
  i_size : Z;            (* size_t *)
  i_data_block : Z;      (* current block in use to write *)
  i_block : Z -> Z       (* int i_block[11] *)
}.

Record open_file_entry_t := mk_open_file_entry {
  of_inumber : Z;
  of_offset : Z          (* size_t *)
}.

(** ** state.c: the three global structures *)

Record inode_table_t := mk_inode_table {
  inode_table : Z -> inode_t;
  freeinode_ts : Z -> allocation_state_t
}.

(** The program uses a block of the pool either as the bytes of a file
    or, through a cast of the pointer [data_block_get] returns, as an
    array of directory entries.  The two uses are kept apart here:
    [fs_data] holds the bytes and [fs_dir] the entries of the blocks used
    as directories.  What becomes of the entries of a directory when its
    block is written as bytes (a write through a handle whose inode is a
    directory) is not represented. *)
Record data_blocks_t := mk_data_blocks {
  fs_data : Z -> Z;                  (* bytes of the pool *)
  fs_dir : Z -> Z -> dir_entry_t;    (* block -> index -> directory entry *)
  free_blocks : Z -> allocation_state_t
}.

Record fs_state_t := mk_fs_state {
  open_file_table : Z -> open_file_entry_t;
  free_open_file_entries : Z -> allocation_state_t
}.

Record tfs := mk_tfs {
  inode_table_s : inode_table_t;
  data_blocks_s : data_blocks_t;
  fs_state_s : fs_state_t
}.

Definition allocation_state_eqb (a b : allocation_state_t) : bool :=
  match a, b with
  | FREE, FREE | TAKEN, TAKEN => true
  | _, _ => false
  end.

Definition inode_type_eqb (a b : inode_type) : bool :=
  match a, b with
  | T_FILE, T_FILE | T_DIRECTORY, T_DIRECTORY => true
  | _, _ => false
  end.

Definition valid_inumber (inumber : Z) : bool :=
  (0 <=? inumber) && (inumber <? INODE_TABLE_SIZE).

Definition valid_block_number (block_number : Z) : bool :=
  (0 <=? block_number) && (block_number <? DATA_BLOCKS).

Definition valid_file_handle (file_handle : Z) : bool :=
  (0 <=? file_handle) && (file_handle <? MAX_OPEN_FILES).

(** Field updates. *)

Definition set_inode (s : tfs) (inumber : Z) (inode : inode_t) : tfs :=
  mk_tfs (mk_inode_table (upd (inode_table (inode_table_s s)) inumber inode)
                         (freeinode_ts (inode_table_s s)))
         (data_blocks_s s) (fs_state_s s).

Definition set_freeinode (s : tfs) (inumber : Z) (a : allocation_state_t) : tfs :=
  mk_tfs (mk_inode_table (inode_table (inode_table_s s))
                         (upd (freeinode_ts (inode_table_s s)) inumber a))
         (data_blocks_s s) (fs_state_s s).

Definition set_data_blocks (s : tfs) (d : data_blocks_t) : tfs :=
  mk_tfs (inode_table_s s) d (fs_state_s s).

Definition set_fs_state (s : tfs) (f : fs_state_t) : tfs :=
  mk_tfs (inode_table_s s) (data_blocks_s s) f.

Definition set_open_file (s : tfs) (fhandle : Z) (file : open_file_entry_t) : tfs :=
  set_fs_state s
    (mk_fs_state (upd (open_file_table (fs_state_s s)) fhandle file)
                 (free_open_file_entries (fs_state_s s))).

Definition set_free_blocks (d : data_blocks_t) (fb : Z -> allocation_state_t)
  : data_blocks_t :=
  mk_data_blocks (fs_data d) (fs_dir d) fb.

Definition set_fs_data (d : data_blocks_t) (m : Z -> Z) : data_blocks_t :=
  mk_data_blocks m (fs_dir d) (free_blocks d).

Definition set_fs_dir (d : data_blocks_t) (dir : Z -> Z -> dir_entry_t)
  : data_blocks_t :=
  mk_data_blocks (fs_data d) dir (free_blocks d).

Definition set_i_size (inode : inode_t) (sz : Z) : inode_t :=
  mk_inode (i_node_type inode) sz (i_data_block inode) (i_block inode).

Definition set_i_data_block (inode : inode_t) (b : Z) : inode_t :=
  mk_inode (i_node_type inode) (i_size inode) b (i_block inode).

Definition set_i_block (inode : inode_t) (blk : Z -> Z) : inode_t :=
  mk_inode (i_node_type inode) (i_size inode) (i_data_block inode) blk.

Definition set_of_offset (file : open_file_entry_t) (off : Z) : open_file_entry_t :=
  mk_open_file_entry (of_inumber file) off.

(** [state_init]: only the three allocation maps are reset; inode
    contents, open-file entries and block contents keep what they held. *)
Definition state_init (s : tfs) : tfs :=
  mk_tfs
    (mk_inode_table (inode_table (inode_table_s s))
       (fill (freeinode_ts (inode_table_s s)) 0 INODE_TABLE_SIZE FREE))
    (set_free_blocks (data_blocks_s s)
       (fill (free_blocks (data_blocks_s s)) 0 DATA_BLOCKS FREE))
    (mk_fs_state (open_file_table (fs_state_s s))
       (fill (free_open_file_entries (fs_state_s s)) 0 MAX_OPEN_FILES FREE)).

(** ** Data-block pool *)

(** [data_block_alloc]: first-fit scan of [free_blocks]; [fuel] counts the
    iterations left of [for (i = 0; i < DATA_BLOCKS; i++)]. *)
Fixpoint data_block_alloc_loop (fuel : nat) (i : Z) (d : data_blocks_t)
  : data_blocks_t * Z :=
  match fuel with
  | O => (d, -1)
  | S fuel' =>
      if allocation_state_eqb (free_blocks d i) FREE
      then (set_free_blocks d (upd (free_blocks d) i TAKEN), i)
      else data_block_alloc_loop fuel' (i + 1) d
  end.

Definition data_block_alloc (d : data_blocks_t) : data_blocks_t * Z :=
  data_block_alloc_loop (Z.to_nat DATA_BLOCKS) 0 d.

Definition data_block_free (block_number : Z) (d : data_blocks_t)
  : data_blocks_t * Z :=
  if negb (valid_block_number block_number) then (d, -1)
  else (set_free_blocks d (upd (free_blocks d) block_number FREE), 0).

(** [data_block_get]: the byte address of the block inside [fs_data], or
    [None] for the NULL pointer. *)
Definition data_block_get (block_number : Z) : option Z :=
  if negb (valid_block_number block_number) then None
  else Some (block_number * BLOCK_SIZE * sizeof_allocation_state_t).

(** ** Inode table *)

(** The body of [inode_create] once a free slot [inumber] is found. *)
Definition inode_create_at (inumber : Z) (n_type : inode_type) (s : tfs) : tfs * Z :=
  let s1 := set_freeinode s inumber TAKEN in
  let local_inode := inode_table (inode_table_s s1) inumber in
  match n_type with
  | T_DIRECTORY =>
      let '(d1, b) := data_block_alloc (data_blocks_s s1) in
      let s2 := set_inode (set_data_blocks s1 d1) inumber
                  (mk_inode T_DIRECTORY (i_size local_inode)
                     (i_data_block local_inode) (i_block local_inode)) in
      if (b =? -1) && (match data_block_get b with None => true | Some _ => false end)
      then (set_freeinode s2 inumber FREE, -1)
      else
        let dir := fs_dir d1 b in
        let dir' := fun i =>
          if (0 <=? i) && (i <? MAX_DIR_ENTRIES)
          then mk_dir_entry (d_name (dir i)) (-1) else dir i in
        (set_inode (set_data_blocks s2 (set_fs_dir d1 (upd (fs_dir d1) b dir')))
           inumber (mk_inode T_DIRECTORY BLOCK_SIZE b (fun _ => -1)),
         inumber)
  | T_FILE =>
      (set_inode s1 inumber (mk_inode T_FILE 0 (-1) (fun _ => -1)), inumber)
  end.

Fixpoint inode_create_loop (fuel : nat) (inumber : Z) (n_type : inode_type)
  (s : tfs) : tfs * Z :=
  match fuel with
  | O => (s, -1)
  | S fuel' =>
      if allocation_state_eqb (freeinode_ts (inode_table_s s) inumber) FREE
      then inode_create_at inumber n_type s
      else inode_create_loop fuel' (inumber + 1) n_type s
  end.

Definition inode_create (n_type : inode_type) (s : tfs) : tfs * Z :=
  inode_create_loop (Z.to_nat INODE_TABLE_SIZE) 0 n_type s.

Definition inode_delete (inumber : Z) (s : tfs) : tfs * Z :=
  if negb (valid_inumber inumber)
     || allocation_state_eqb (freeinode_ts (inode_table_s s) inumber) FREE
  then (s, -1)
  else
    let s1 := set_freeinode s inumber FREE in
    let local_inode := inode_table (inode_table_s s1) inumber in
    if 0 <? i_size local_inode then
      let '(d1, r) := data_block_free (i_data_block local_inode) (data_blocks_s s1) in
      if r =? -1 then (set_data_blocks s1 d1, -1) else (set_data_blocks s1 d1, 0)
    else (s1, 0).

(** [inode_get]: a pointer into [inode_table] is the index of the slot. *)
Definition inode_get (inumber : Z) : option Z :=
  if negb (valid_inumber inumber) then None else Some inumber.

(** ** Root directory *)

(** The first [n] characters of a C string. *)
Fixpoint string_take (n : nat) (s : string) : string :=
  match n, s with
  | S n', String c s' => String c (string_take n' s')
  | _, _ => EmptyString
  end.

(** [strncpy(d_name, sub_name, MAX_FILE_NAME - 1); d_name[MAX_FILE_NAME - 1] = 0] *)
Definition strncpy_name (sub_name : string) : string :=
  string_take (Z.to_nat (MAX_FILE_NAME - 1)) sub_name.

(** [strncmp(a, b, n) == 0] on C strings. *)
Definition strncmp_eq (a b : string) (n : Z) : bool :=
  String.eqb (string_take (Z.to_nat n) a) (string_take (Z.to_nat n) b).

Definition strlen (s : string) : Z := Z.of_nat (String.length s).

Fixpoint add_dir_entry_loop (fuel : nat) (i : Z) (b sub_inumber : Z)
  (sub_name : string) (d : data_blocks_t) : data_blocks_t * Z :=
  match fuel with
  | O => (d, -1)
  | S fuel' =>
      if d_inumber (fs_dir d b i) =? -1
      then (set_fs_dir d
              (upd (fs_dir d) b
                 (upd (fs_dir d b) i
                    (mk_dir_entry (strncpy_name sub_name) sub_inumber))), 0)
      else add_dir_entry_loop fuel' (i + 1) b sub_inumber sub_name d
  end.

Definition add_dir_entry (inumber sub_inumber : Z) (sub_name : string) (s : tfs)
  : tfs * Z :=
  if negb (valid_inumber inumber) || negb (valid_inumber sub_inumber) then (s, -1)
  else
    let local_inode := inode_table (inode_table_s s) inumber in
    if negb (inode_type_eqb (i_node_type local_inode) T_DIRECTORY) then (s, -1)
    else if strlen sub_name =? 0 then (s, -1)
    else
      match data_block_get (i_data_block local_inode) with
      | None => (s, -1)
      | Some _ =>
          let '(d1, r) :=
            add_dir_entry_loop (Z.to_nat MAX_DIR_ENTRIES) 0
              (i_data_block local_inode) sub_inumber sub_name (data_blocks_s s) in
          (set_data_blocks s d1, r)
      end.

Fixpoint find_in_dir_loop (fuel : nat) (i : Z) (dir : Z -> dir_entry_t)
  (sub_name : string) : Z :=
  match fuel with
  | O => -1
  | S fuel' =>
      if negb (d_inumber (dir i) =? -1)
         && strncmp_eq (d_name (dir i)) sub_name MAX_FILE_NAME
      then d_inumber (dir i)
      else find_in_dir_loop fuel' (i + 1) dir sub_name
  end.

Definition find_in_dir (inumber : Z) (sub_name : string) (s : tfs) : Z :=
  if negb (valid_inumber inumber)
     || negb (inode_type_eqb
                (i_node_type (inode_table (inode_table_s s) inumber)) T_DIRECTORY)
  then -1
  else
    match data_block_get (i_data_block (inode_table (inode_table_s s) inumber)) with
    | None => -1
    | Some _ =>
        find_in_dir_loop (Z.to_nat MAX_DIR_ENTRIES) 0
          (fs_dir (data_blocks_s s)
             (i_data_block (inode_table (inode_table_s s) inumber)))
          sub_name
    end.

(** ** Open-file table *)

Fixpoint add_to_open_file_table_loop (fuel : nat) (i : Z) (inumber offset : Z)
  (f : fs_state_t) : fs_state_t * Z :=
  match fuel with
  | O => (f, -1)
  | S fuel' =>
      if allocation_state_eqb (free_open_file_entries f i) FREE
      then (mk_fs_state
              (upd (open_file_table f) i (mk_open_file_entry inumber offset))
              (upd (free_open_file_entries f) i TAKEN), i)
      else add_to_open_file_table_loop fuel' (i + 1) inumber offset f
  end.

Definition add_to_open_file_table (inumber offset : Z) (f : fs_state_t)
  : fs_state_t * Z :=
  add_to_open_file_table_loop (Z.to_nat MAX_OPEN_FILES) 0 inumber offset f.

Definition remove_from_open_file_table (fhandle : Z) (f : fs_state_t)
  : fs_state_t * Z :=
  if negb (valid_file_handle fhandle)
     || negb (allocation_state_eqb (free_open_file_entries f fhandle) TAKEN)
  then (f, -1)
  else (mk_fs_state (open_file_table f)
          (upd (free_open_file_entries f) fhandle FREE), 0).

(** [get_open_file_entry]: a pointer into [open_file_table] is the index
    of the entry. *)
Definition get_open_file_entry (fhandle : Z) : option Z :=
  if negb (valid_file_handle fhandle) then None else Some fhandle.

(** ** operations.c: the file layout and the read/write engine *)

(** Functions that can run into undefined behaviour of C (a store outside
    [i_block], a store through the NULL pointer, a copy running past a
    block) or whose loop has no constant bound return an [option]:
    [None] stands for "no defined result". *)

Declare Scope ub_scope.
Notation "' pat <- m ;; k" :=
  (match m with Some pat => k | None => None end)
  (at level 61, pat pattern, m at next level, right associativity) : ub_scope.
Local Open Scope ub_scope.

Definition size_add (a b : Z) : Z := to_size_t (a + b).
Definition size_sub (a b : Z) : Z := to_size_t (a - b).

(** Number of bytes of [fs_data]. *)
Definition fs_data_bytes : Z := BLOCK_SIZE * DATA_BLOCKS * sizeof_allocation_state_t.

Definition direct_block_insert (inode : inode_t) (d : data_blocks_t)
  : option (inode_t * data_blocks_t * Z) :=
  let '(d1, b) := data_block_alloc d in
  let inode1 := set_i_data_block inode b in
  let block := data_block_get (i_data_block inode1) in
  if i_data_block inode1 =? -1 then Some (inode1, d1, -1)
  else
    match block with
    | None => None
    | Some addr =>
        let d2 := set_fs_data d1 (memset (fs_data d1) addr (-1) BLOCK_SIZE) in
        let slot := i_data_block inode1 - 1 in
        if (0 <=? slot) && (slot <? I_BLOCK_SIZE)
        then Some (set_i_block inode1
                     (upd (i_block inode1) slot (i_data_block inode1)), d2, 0)
        else None
    end.

(** The block-sized step shared by the two write loops: how many bytes go
    into the current block, and how many remain. *)
Definition write_chunk (of_offset write_size : Z) : Z * Z :=
  if (write_size >=? BLOCK_SIZE)
     || (BLOCK_SIZE - of_offset mod BLOCK_SIZE <? write_size)
  then (BLOCK_SIZE - of_offset mod BLOCK_SIZE,
        size_sub write_size (BLOCK_SIZE - of_offset mod BLOCK_SIZE))
  else (write_size, 0).

(** The body of [for (int i = 0; write_size > 0 && i < REFERENCE_BLOCK_INDEX; i++)];
    [fuel] is the number of values of [i] that are left. *)
Fixpoint tfs_write_direct_region_loop (fuel : nat) (inode : inode_t)
  (file : open_file_entry_t) (d : data_blocks_t) (buffer : buffer_t)
  (write_size bytes_written : Z)
  : option (inode_t * open_file_entry_t * data_blocks_t * Z) :=
  match fuel with
  | O => Some (inode, file, d, to_ssize_t bytes_written)
  | S fuel' =>
      if negb (0 <? write_size) then Some (inode, file, d, to_ssize_t bytes_written)
      else
        ' (inode1, d1, insert_status) <-
          (if i_size inode mod BLOCK_SIZE =? 0
           then direct_block_insert inode d else Some (inode, d, 0)) ;;
        if insert_status =? -1 then Some (inode1, file, d1, -1)
        else
          match data_block_get (i_data_block inode1) with
          | None => Some (inode1, file, d1, -1)
          | Some block =>
              let '(to_write_block, write_size') :=
                write_chunk (of_offset file) write_size in
              let d2 := set_fs_data d1
                (memcpy (fs_data d1) (block + of_offset file mod BLOCK_SIZE)
                   (ptr_add buffer bytes_written) to_write_block) in
              tfs_write_direct_region_loop fuel'
                (set_i_size inode1 (size_add (i_size inode1) to_write_block))
                (set_of_offset file (size_add (of_offset file) to_write_block))
                d2 buffer write_size' (size_add bytes_written to_write_block)
          end
  end.

Definition tfs_write_direct_region (inode : inode_t) (file : open_file_entry_t)
  (d : data_blocks_t) (buffer : buffer_t) (write_size : Z)
  : option (inode_t * open_file_entry_t * data_blocks_t * Z) :=
  tfs_write_direct_region_loop (Z.to_nat REFERENCE_BLOCK_INDEX)
    inode file d buffer write_size 0.

Definition indirect_block_insert (inode : inode_t) (d : data_blocks_t)
  : option (inode_t * data_blocks_t * Z) :=
  let last_i_block := data_block_get (i_block inode MAX_DIRECT_BLOCKS) in
  let '(d1, block_number) := data_block_alloc d in
  if block_number =? -1 then Some (inode, d1, -1)
  else
    let inode1 := set_i_data_block inode block_number in
    match data_block_get block_number, last_i_block with
    | Some addr, Some refs =>
        let m1 := memset (fs_data d1) addr (-1) (BLOCK_SIZE / INT_SIZE) in
        let a := refs + INT_SIZE * (block_number - FIRST_INDIRECT_BLOCK) in
        if (0 <=? a) && (a + INT_SIZE <=? fs_data_bytes)
        then Some (inode1, set_fs_data d1 (store_int m1 a block_number), 0)
        else None
    | _, _ => None
    end.

(** The body of [for (int i = 0; write_size > 0; i++)].  The loop has no
    constant bound; [write_size] decreases at each iteration once it has
    been clipped, so [S (Z.to_nat write_size)] iterations are enough
    whenever [i_size <= MAX_BYTES]. *)
Fixpoint tfs_write_indirect_region_loop (fuel : nat) (inode : inode_t)
  (file : open_file_entry_t) (d : data_blocks_t) (buffer : buffer_t)
  (write_size bytes_written : Z)
  : option (inode_t * open_file_entry_t * data_blocks_t * Z) :=
  if negb (0 <? write_size) then Some (inode, file, d, to_ssize_t bytes_written)
  else
    match fuel with
    | O => None
    | S fuel' =>
        let write_size :=
          if size_add (i_size inode) write_size >? MAX_BYTES
          then size_sub MAX_BYTES (i_size inode) else write_size in
        ' (inode1, d1, insert_status) <-
          (if i_size inode mod BLOCK_SIZE =? 0
           then indirect_block_insert inode d else Some (inode, d, 0)) ;;
        if insert_status =? -1 then Some (inode1, file, d1, -1)
        else
          match data_block_get (i_data_block inode1) with
          | None => Some (inode1, file, d1, -1)
          | Some block =>
              let '(to_write_block, write_size') :=
                write_chunk (of_offset file) write_size in
              let d2 := set_fs_data d1
                (memcpy (fs_data d1) (block + of_offset file mod BLOCK_SIZE)
                   (ptr_add buffer bytes_written) to_write_block) in
              tfs_write_indirect_region_loop fuel'
                (set_i_size inode1 (size_add (i_size inode1) to_write_block))
                (set_of_offset file (size_add (of_offset file) to_write_block))
                d2 buffer write_size' (size_add bytes_written to_write_block)
          end
    end.

Definition tfs_write_indirect_region (inode : inode_t) (file : open_file_entry_t)
  (d : data_blocks_t) (buffer : buffer_t) (write_size : Z)
  : option (inode_t * open_file_entry_t * data_blocks_t * Z) :=
  tfs_write_indirect_region_loop (S (Z.to_nat write_size))
    inode file d buffer write_size 0.

Definition tfs_handle_indirect_block (inode : inode_t) (d : data_blocks_t)
  : option (inode_t * data_blocks_t * Z) :=
  let '(d1, block_number) := data_block_alloc d in
  if block_number =? -1 then Some (inode, d1, -1)
  else
    let inode1 :=
      set_i_data_block
        (set_i_block inode (upd (i_block inode) MAX_DIRECT_BLOCKS block_number))
        block_number in
    match data_block_get (i_data_block inode1) with
    | None => None
    | Some addr =>
        Some (inode1,
              set_fs_data d1 (memset (fs_data d1) addr (-1) sizeof_pointer), 0)
    end.

(** One iteration of the read loops: the number of bytes taken from the
    current block and the number still to read. *)
Definition read_chunk (block_offset to_read : Z) : Z * Z :=
  if size_add to_read block_offset >? BLOCK_SIZE
  then (BLOCK_SIZE - block_offset, size_sub to_read (BLOCK_SIZE - block_offset))
  else (to_read, 0).

(** The body of [while (to_read > 0 && current_block <= MAX_DIRECT_BLOCKS)].
    [to_read] decreases at every iteration, so the fuel
    [S (Z.to_nat to_read)] handed over by [tfs_read_direct_region] is never
    used up. *)
Fixpoint tfs_read_direct_region_loop (fuel : nat) (m : Z -> Z)
  (file : open_file_entry_t) (to_read : Z) (buffer : buffer_t) (total_read : Z)
  : option (open_file_entry_t * buffer_t * Z) :=
  let current_block := size_add (of_offset file / BLOCK_SIZE) 1 in
  let block_offset := of_offset file mod BLOCK_SIZE in
  if negb ((0 <? to_read) && (current_block <=? MAX_DIRECT_BLOCKS))
  then Some (file, buffer, to_ssize_t total_read)
  else
    match fuel with
    | O => None
    | S fuel' =>
        match data_block_get (to_int current_block) with
        | None => Some (file, buffer, -1)
        | Some block =>
            let '(to_read_block, to_read') := read_chunk block_offset to_read in
            if BLOCK_SIZE <? block_offset + to_read_block then None
            else
              tfs_read_direct_region_loop fuel' m
                (set_of_offset file (size_add (of_offset file) to_read_block))
                to_read'
                (memcpy buffer total_read
                   (ptr_add m (block + block_offset)) to_read_block)
                (size_add total_read to_read_block)
        end
    end.

Definition tfs_read_direct_region (m : Z -> Z) (file : open_file_entry_t)
  (to_read : Z) (buffer : buffer_t)
  : option (open_file_entry_t * buffer_t * Z) :=
  if size_add (of_offset file) to_read <=? MAX_BYTES_DIRECT_DATA
  then tfs_read_direct_region_loop (S (Z.to_nat to_read)) m file to_read buffer 0
  else Some (file, buffer, to_ssize_t 0).

(** The body of [while (to_read > 0)] of the indirect read. *)
Fixpoint tfs_read_indirect_region_loop (fuel : nat) (m : Z -> Z)
  (file : open_file_entry_t) (to_read : Z) (buffer : buffer_t) (total_read : Z)
  : option (open_file_entry_t * buffer_t * Z) :=
  let current_block := size_add (of_offset file / BLOCK_SIZE) 2 in
  let block_offset := of_offset file mod BLOCK_SIZE in
  if negb (0 <? to_read) then Some (file, buffer, to_ssize_t total_read)
  else
    match fuel with
    | O => None
    | S fuel' =>
        match data_block_get (to_int current_block) with
        | None => Some (file, buffer, -1)
        | Some block =>
            let '(to_read_block, to_read') := read_chunk block_offset to_read in
            if BLOCK_SIZE <? block_offset + to_read_block then None
            else
              tfs_read_indirect_region_loop fuel' m
                (set_of_offset file (size_add (of_offset file) to_read_block))
                to_read'
                (memcpy buffer total_read
                   (ptr_add m (block + block_offset)) to_read_block)
                (size_add total_read to_read_block)
        end
    end.

Definition tfs_read_indirect_region (m : Z -> Z) (file : open_file_entry_t)
  (to_read : Z) (buffer : buffer_t)
  : option (open_file_entry_t * buffer_t * Z) :=
  tfs_read_indirect_region_loop (S (Z.to_nat to_read)) m file to_read buffer 0.

(** ** operations.c: the public API *)

Definition tfs_init (s : tfs) : tfs * Z :=
  let '(s1, root) := inode_create T_DIRECTORY (state_init s) in
  if negb (root =? ROOT_DIR_INUM) then (s1, -1) else (s1, 0).

(** A path is a C string or the NULL pointer ([None]). *)
Definition valid_pathname (name : option string) : bool :=
  match name with
  | None => false
  | Some n =>
      (1 <? strlen n)
      && match n with
         | String c _ => Ascii.eqb c "/"%char
         | EmptyString => false
         end
  end.

(** [name + 1] *)
Definition skip_char (name : option string) : string :=
  match name with
  | Some (String _ rest) => rest
  | _ => EmptyString
  end.

Definition tfs_lookup (name : option string) (s : tfs) : Z :=
  if negb (valid_pathname name) then -1
  else find_in_dir ROOT_DIR_INUM (skip_char name) s.

Definition flag_set (flags flag : Z) : bool := negb (Z.land flags flag =? 0).

(** The tail of [tfs_open]: the entry is added to the open-file table
    under [file_allocation_map_lock(MUTEX)]. *)
Definition tfs_open_add (inum offset : Z) (s : tfs) : tfs * Z :=
  let '(f1, fhandle) := add_to_open_file_table inum offset (fs_state_s s) in
  (set_fs_state s f1, fhandle).

Definition tfs_open (name : option string) (flags : Z) (s : tfs) : tfs * Z :=
  if negb (valid_pathname name) then (s, -1)
  else
    let inum := tfs_lookup name s in
    if 0 <=? inum then
      match inode_get inum with
      | None => (s, -1)
      | Some ip =>
          let inode := inode_table (inode_table_s s) ip in
          if flag_set flags TFS_O_TRUNC && (0 <? i_size inode) then
            let '(d1, r) := data_block_free (i_data_block inode) (data_blocks_s s) in
            if r =? -1 then (set_data_blocks s d1, -1)
            else
              let s1 := set_inode (set_data_blocks s d1) ip (set_i_size inode 0) in
              let inode1 := inode_table (inode_table_s s1) ip in
              let offset := if flag_set flags TFS_O_APPEND then i_size inode1 else 0 in
              tfs_open_add inum offset s1
          else
            let offset := if flag_set flags TFS_O_APPEND then i_size inode else 0 in
            tfs_open_add inum offset s
      end
    else if flag_set flags TFS_O_CREAT then
      let '(s1, inum) := inode_create T_FILE s in
      if inum =? -1 then (s1, -1)
      else
        let '(s2, r) := add_dir_entry ROOT_DIR_INUM inum (skip_char name) s1 in
        if r =? -1 then (fst (inode_delete inum s2), -1)
        else tfs_open_add inum 0 s2
    else (s, -1).

Definition tfs_close (fhandle : Z) (s : tfs) : tfs * Z :=
  let '(f1, r) := remove_from_open_file_table fhandle (fs_state_s s) in
  (set_fs_state s f1, r).

(** Writes back what a sub-procedure did through its [inode] and [file]
    pointers and to the block pool. *)
Definition commit (s : tfs) (ip fp : Z) (inode : inode_t)
  (file : open_file_entry_t) (d : data_blocks_t) : tfs :=
  set_open_file (set_data_blocks (set_inode s ip inode) d) fp file.

Definition tfs_write (fhandle : Z) (buffer : buffer_t) (to_write : Z) (s : tfs)
  : option (tfs * Z) :=
  if to_write =? 0 then Some (s, -1)
  else
    match get_open_file_entry fhandle with
    | None => Some (s, -1)
    | Some fp =>
        let file := open_file_table (fs_state_s s) fp in
        match inode_get (of_inumber file) with
        | None => Some (s, -1)
        | Some ip =>
            let inode := inode_table (inode_table_s s) ip in
            let d := data_blocks_s s in
            if size_add (i_size inode) to_write <=? MAX_BYTES_DIRECT_DATA then
              ' (inode1, file1, d1, direct_bytes) <-
                tfs_write_direct_region inode file d buffer to_write ;;
              let s1 := commit s ip fp inode1 file1 d1 in
              if direct_bytes =? -1 then Some (s1, -1)
              else Some (s1, to_ssize_t (to_size_t direct_bytes))
            else if i_size inode >=? MAX_BYTES_DIRECT_DATA then
              ' (inode0, d0, _) <-
                (if i_block inode MAX_DIRECT_BLOCKS =? -1
                 then tfs_handle_indirect_block inode d else Some (inode, d, 0)) ;;
              ' (inode1, file1, d1, indirect_bytes) <-
                tfs_write_indirect_region inode0 file d0 buffer to_write ;;
              let s1 := commit s ip fp inode1 file1 d1 in
              if indirect_bytes =? -1 then Some (s1, -1)
              else Some (s1, to_ssize_t (to_size_t indirect_bytes))
            else
              let direct_size := size_sub MAX_BYTES_DIRECT_DATA (i_size inode) in
              let indirect_size := size_sub to_write direct_size in
              ' (inode1, file1, d1, direct_bytes) <-
                tfs_write_direct_region inode file d buffer direct_size ;;
              ' (inode2, d2, _) <-
                (if i_block inode1 MAX_DIRECT_BLOCKS =? -1
                 then tfs_handle_indirect_block inode1 d1 else Some (inode1, d1, 0)) ;;
              if direct_bytes =? -1 then Some (commit s ip fp inode2 file1 d2, -1)
              else
                ' (inode3, file3, d3, indirect_bytes) <-
                  tfs_write_indirect_region inode2 file1 d2
                    (ptr_add buffer direct_size) indirect_size ;;
                let s1 := commit s ip fp inode3 file3 d3 in
                if indirect_bytes =? -1 then Some (s1, -1)
                else Some (s1, to_ssize_t (to_size_t (direct_bytes + indirect_bytes)))
        end
    end.

Definition tfs_read (fhandle : Z) (buffer : buffer_t) (len : Z) (s : tfs)
  : option (tfs * buffer_t * Z) :=
  if len =? 0 then Some (s, buffer, -1)
  else
    match get_open_file_entry fhandle with
    | None => Some (s, buffer, -1)
    | Some fp =>
        let file := open_file_table (fs_state_s s) fp in
        match inode_get (of_inumber file) with
        | None => Some (s, buffer, -1)
        | Some ip =>
            let inode := inode_table (inode_table_s s) ip in
            let m := fs_data (data_blocks_s s) in
            let to_read := size_sub (i_size inode) (of_offset file) in
            let to_read := if to_read >? len then len else to_read in
            if size_add (of_offset file) to_read <=? MAX_BYTES_DIRECT_DATA then
              ' (file1, buffer1, direct_read) <-
                tfs_read_direct_region m file to_read buffer ;;
              let s1 := set_open_file s fp file1 in
              if direct_read =? -1 then Some (s1, buffer1, -1)
              else Some (s1, buffer1, to_ssize_t (to_size_t direct_read))
            else if of_offset file >=? MAX_BYTES_DIRECT_DATA then
              ' (file1, buffer1, indirect_read) <-
                tfs_read_indirect_region m file to_read buffer ;;
              let s1 := set_open_file s fp file1 in
              if indirect_read =? -1 then Some (s1, buffer1, -1)
              else Some (s1, buffer1, to_ssize_t (to_size_t indirect_read))
            else
              let bytes_to_read_in_direct_region :=
                if size_add to_read (of_offset file) >? MAX_BYTES_DIRECT_DATA
                then size_sub MAX_BYTES_DIRECT_DATA (of_offset file) else 0 in
              let to_read := size_sub to_read bytes_to_read_in_direct_region in
              ' (file1, buffer1, direct_read) <-
                tfs_read_direct_region m file bytes_to_read_in_direct_region buffer ;;
              if direct_read =? -1 then Some (set_open_file s fp file1, buffer1, -1)
              else
                let total_read := to_size_t direct_read in
                ' (file2, view2, indirect_read) <-
                  tfs_read_indirect_region m file1 to_read
                    (ptr_add buffer1 total_read) ;;
                let buffer2 := ptr_add view2 (- total_read) in
                let s1 := set_open_file s fp file2 in
                if indirect_read =? -1 then Some (s1, buffer2, -1)
                else Some (s1, buffer2,
                           to_ssize_t (size_add total_read (to_size_t indirect_read)))
        end
    end.

(** ** Memory at program start and client buffers *)

(** The all-zero image of the three global structures at program start. *)
Definition boot : tfs :=
  mk_tfs
    (mk_inode_table (fun _ => mk_inode T_FILE 0 0 (fun _ => 0)) (fun _ => FREE))
    (mk_data_blocks (fun _ => 0) (fun _ _ => mk_dir_entry EmptyString 0)
       (fun _ => FREE))
    (mk_fs_state (fun _ => mk_open_file_entry 0 0) (fun _ => FREE)).

(** The bytes of a string, as a client buffer. *)
Definition buffer_of_string (s : string) : buffer_t :=
  fun i =>
    if i <? 0 then 0
    else match String.get (Z.to_nat i) s with
         | Some c => Z.of_nat (nat_of_ascii c)
         | None => 0
         end.

Definition zeros : buffer_t := fun _ => 0.

(** [buffer[0..n]] as a list. *)
Definition bytes_of (b : buffer_t) (n : nat) : list Z :=
  map (fun i => b (Z.of_nat i)) (seq 0 n).

(** ** operations.c: copying a file to the host file system *)

Abbreviation BUFFER_SIZE := 100 (only parsing).

(** The host file system as far as [tfs_copy_to_external_fs] uses it:
    whether [fopen(dest_path, "w")] succeeds; what [fwrite] makes of the
    stream, given the bytes it holds so far and the bytes it is offered
    (the new contents and the number of bytes written); and the result
    of [fclose]. *)
Record host_t := mk_host {
  fopen_w : bool;
  fwrite : list Z -> list Z -> list Z * Z;
  fclose : Z
}.

(** The body of [do { ... } while (total_size_to_read > read_bytes)].
    [buffer] is all zeroes at the start of every iteration.  The result
    carries -1 when the function has returned from inside the loop and 0
    when the loop has been left.  The loop has no bound of its own:
    [None] stands for a run that is not over after [fuel] iterations. *)
Fixpoint tfs_copy_loop (fuel : nat) (host : host_t)
  (source_file total_size_to_read read_bytes : Z) (dest : list Z) (s : tfs)
  : option (tfs * list Z * Z) :=
  match fuel with
  | O => None
  | S fuel' =>
      let len :=
        if to_size_t (total_size_to_read - read_bytes) >=? BUFFER_SIZE
        then BUFFER_SIZE
        else to_size_t (total_size_to_read - read_bytes) in
      ' (s1, buffer, buffer_read_bytes) <- tfs_read source_file zeros len s ;;
      if buffer_read_bytes =? -1 then Some (s1, dest, -1)
      else
        let read_bytes1 := to_ssize_t (read_bytes + buffer_read_bytes) in
        let to_write_bytes := to_size_t buffer_read_bytes in
        let '(dest1, written_bytes) :=
          fwrite host dest (bytes_of buffer (Z.to_nat to_write_bytes)) in
        if negb (written_bytes =? to_size_t buffer_read_bytes)
        then Some (s1, dest1, -1)
        else if total_size_to_read >? read_bytes1
             then tfs_copy_loop fuel' host source_file total_size_to_read
                    read_bytes1 dest1 s1
             else Some (s1, dest1, 0)
  end.

(** [tfs_copy_to_external_fs]: the state, the contents of the
    destination file if [fopen] has created it, and the result.  A
    dereference of the NULL pointer is undefined behaviour ([None]). *)
Definition tfs_copy_to_external_fs (host : host_t) (source_path : option string)
  (s : tfs) : option (tfs * option (list Z) * Z) :=
  if tfs_lookup source_path s =? -1 then Some (s, None, -1)
  else
    let '(s1, source_file) := tfs_open source_path TFS_O_APPEND s in
    if source_file <? 0 then Some (s1, None, -1)
    else if negb (fopen_w host) then Some (s1, None, -1)
    else
      match get_open_file_entry source_file with
      | None => None
      | Some fp =>
          let file := open_file_table (fs_state_s s1) fp in
          let inode := inode_get (of_inumber file) in
          let s2 := set_open_file s1 fp (set_of_offset file 0) in
          match inode with
          | None => None
          | Some ip =>
              let total_size_to_read :=
                to_ssize_t (i_size (inode_table (inode_table_s s2) ip)) in
              ' (s3, dest, status) <-
                tfs_copy_loop (S (Z.to_nat total_size_to_read)) host source_file
                  total_size_to_read 0 [] s2 ;;
              if status =? -1 then Some (s3, Some dest, -1)
              else
                let '(s4, close_status_source) := tfs_close source_file s3 in
                if (fclose host <? 0) || (close_status_source <? 0)
                then Some (s4, Some dest, -1)
                else Some (s4, Some dest, 0)
          end
      end.

(** ** The oracles of the test programs *)

Abbreviation N_THREADS := 8 (only parsing).

(** [while (j < N_THREADS)] of [check_array]: [true] when the loop has
    run into [return -1]. *)
Fixpoint check_array_inner (fuel : nat) (fhandlers : Z -> Z) (i j : Z) : bool :=
  match fuel with
  | O => false
  | S fuel' =>
      if j <? N_THREADS then
        if fhandlers i =? fhandlers j then true
        else check_array_inner fuel' fhandlers i (j + 1)
      else false
  end.

(** [while (i < N_THREADS)] of [check_array]. *)
Fixpoint check_array_loop (fuel : nat) (fhandlers : Z -> Z) (i j : Z) : Z :=
  match fuel with
  | O => 0
  | S fuel' =>
      if i <? N_THREADS then
        if check_array_inner (Z.to_nat N_THREADS) fhandlers i j then -1
        else check_array_loop fuel' fhandlers (i + 1) (i + 1 + 1)
      else 0
  end.

(** [check_array] of the test of concurrent opens: [i] and [j] start at
    0 and 1; neither loop runs more than [N_THREADS] times. *)
Definition check_array (fhandlers : Z -> Z) : Z :=
  check_array_loop (S (Z.to_nat N_THREADS)) fhandlers 0 1.

(** [for (int i = 1; i < BLOCK_SIZE; i++)] of [check]. *)
Fixpoint check_loop (fuel : nat) (read_info : Z -> Z) (control i : Z) : Z :=
  match fuel with
  | O => 0
  | S fuel' =>
      if i <? BLOCK_SIZE then
        if negb (read_info i =? control) then -1
        else check_loop fuel' read_info control (i + 1)
      else 0
  end.

(** [check] of the test of concurrent writes. *)
Definition check (read_info : Z -> Z) : Z :=
  check_loop (Z.to_nat BLOCK_SIZE) read_info (read_info 0) 1.

(** * Vocabulary of the statements *)

(** The predicates, address maps and scenarios the theorems below are
    stated with.  The functions above are the program; nothing below
    changes them. *)

(** The open-file entry behind handle [h] and the inode it refers to. *)
Definition entry_of (s : tfs) (h : Z) : open_file_entry_t :=
  open_file_table (fs_state_s s) h.

Definition inode_of (s : tfs) (inumber : Z) : inode_t :=
  inode_table (inode_table_s s) inumber.

(** The state [s] with the occupancy map of the open-file table replaced
    by [a]. *)
Definition with_free_entries (s : tfs) (a : Z -> allocation_state_t) : tfs :=
  set_fs_state s (mk_fs_state (open_file_table (fs_state_s s)) a).

(** Blocks [0 .. k-1] are Taken and blocks [k ..] are Free: the shape of
    the allocation map as long as nothing has been freed. *)
Definition pool_prefix (d : data_blocks_t) (k : Z) : Prop :=
  forall b, 0 <= b < DATA_BLOCKS ->
    free_blocks d b = if b <? k then TAKEN else FREE.

Definition block_addr (b : Z) : Z := b * BLOCK_SIZE * sizeof_allocation_state_t.

(** The pool address at which the direct read looks for byte [B] of a
    file: block [B / BLOCK_SIZE + 1] of the pool, offset [B mod BLOCK_SIZE]. *)
Definition direct_addr (B : Z) : Z :=
  block_addr (B / BLOCK_SIZE + 1) + B mod BLOCK_SIZE.

(** The same for the indirect read: block [B / BLOCK_SIZE + 2]. *)
Definition indirect_addr (B : Z) : Z :=
  block_addr (B / BLOCK_SIZE + 2) + B mod BLOCK_SIZE.

Definition blocks_for (n : Z) : Z := (n + (BLOCK_SIZE - 1)) / BLOCK_SIZE.

(** What [tfs_write_direct_region_loop] has done when it is entered on a
    block boundary [BLOCK_SIZE * j] with pool blocks [0 .. j] taken. *)
Record direct_written (j ws bw : Z) (buffer : buffer_t)
  (inode : inode_t) (file : open_file_entry_t) (d : data_blocks_t)
  (inode' : inode_t) (file' : open_file_entry_t) (d' : data_blocks_t) : Prop := {
  dw_size : i_size inode' = BLOCK_SIZE * j + ws;
  dw_offset : of_offset file' = BLOCK_SIZE * j + ws;
  dw_inumber : of_inumber file' = of_inumber file;
  dw_type : i_node_type inode' = i_node_type inode;
  dw_pool : pool_prefix d' (j + 1 + blocks_for ws);
  dw_dir : fs_dir d' = fs_dir d;
  dw_bytes : forall i, 0 <= i < ws ->
      fs_data d' (direct_addr (BLOCK_SIZE * j + i)) = buffer (bw + i);
  dw_fill : forall B,
      BLOCK_SIZE * j + ws <= B < BLOCK_SIZE * (j + blocks_for ws) ->
      fs_data d' (direct_addr B) = 255;
  dw_below : forall a, a < block_addr (j + 1) -> fs_data d' a = fs_data d a;
  dw_slots : forall k, k < j \/ j + blocks_for ws <= k ->
      i_block inode' k = i_block inode k;
  dw_idle : ws = 0 -> inode' = inode;
  dw_working : 0 < ws -> i_data_block inode' = j + blocks_for ws
}.

(** The pool address the read engine uses for byte [B] of any file. *)
Definition file_addr (B : Z) : Z :=
  if B <? MAX_BYTES_DIRECT_DATA then direct_addr B else indirect_addr B.

(** The bytes of the reference block (pool block [REFERENCE_BLOCK_INDEX]). *)
Definition in_reference_block (a : Z) : Prop :=
  block_addr REFERENCE_BLOCK_INDEX <= a
  < block_addr REFERENCE_BLOCK_INDEX + BLOCK_SIZE.

Record indirect_written (j ws bw : Z) (buffer : buffer_t)
  (inode : inode_t) (file : open_file_entry_t) (d : data_blocks_t)
  (inode' : inode_t) (file' : open_file_entry_t) (d' : data_blocks_t) : Prop := {
  iw_size : i_size inode' = BLOCK_SIZE * j + ws;
  iw_offset : of_offset file' = BLOCK_SIZE * j + ws;
  iw_inumber : of_inumber file' = of_inumber file;
  iw_type : i_node_type inode' = i_node_type inode;
  iw_pool : pool_prefix d' (j + 2 + blocks_for ws);
  iw_dir : fs_dir d' = fs_dir d;
  iw_bytes : forall i, 0 <= i < ws ->
      fs_data d' (indirect_addr (BLOCK_SIZE * j + i)) = buffer (bw + i);
  iw_below : forall a, a < block_addr (j + 2) -> ~ in_reference_block a ->
      fs_data d' a = fs_data d a;
  iw_slots : i_block inode' = i_block inode;
  iw_idle : ws = 0 -> inode' = inode;
  iw_working : 0 < ws -> i_data_block inode' = j + 1 + blocks_for ws
}.

(** Handle [fh] is at offset 0 of the empty file [inum], and only block 0
    of the pool (the root directory) is taken. *)
Record fresh_file (s : tfs) (fh inum : Z) : Prop := {
  ff_handle : 0 <= fh < MAX_OPEN_FILES;
  ff_inumber : 0 <= inum < INODE_TABLE_SIZE;
  ff_entry : entry_of s fh = mk_open_file_entry inum 0;
  ff_size : i_size (inode_of s inum) = 0;
  ff_indirect : i_block (inode_of s inum) MAX_DIRECT_BLOCKS = -1;
  ff_pool : pool_prefix (data_blocks_s s) 1
}.

Record file_written (s s' : tfs) (fh inum n : Z) (buf : buffer_t) : Prop := {
  fw_entry : entry_of s' fh = mk_open_file_entry inum n;
  fw_size : i_size (inode_of s' inum) = n;
  fw_type : i_node_type (inode_of s' inum) = i_node_type (inode_of s inum);
  fw_bytes : forall B, 0 <= B < n ->
      fs_data (data_blocks_s s') (file_addr B) = buf B;
  fw_pool : pool_prefix (data_blocks_s s')
      (1 + blocks_for n + (if MAX_BYTES_DIRECT_DATA <? n then 1 else 0));
  fw_dir : fs_dir (data_blocks_s s') = fs_dir (data_blocks_s s);
  fw_inodes : forall i, i <> inum -> inode_of s' i = inode_of s i;
  fw_freeinode :
      freeinode_ts (inode_table_s s') = freeinode_ts (inode_table_s s);
  fw_entries : forall h, h <> fh -> entry_of s' h = entry_of s h;
  fw_free_entries :
      free_open_file_entries (fs_state_s s')
      = free_open_file_entries (fs_state_s s);
  fw_fill : n <= MAX_BYTES_DIRECT_DATA ->
      forall B, n <= B < BLOCK_SIZE * blocks_for n ->
        fs_data (data_blocks_s s') (direct_addr B) = 255;
  fw_reference : MAX_BYTES_DIRECT_DATA < n ->
      i_block (inode_of s' inum) MAX_DIRECT_BLOCKS = REFERENCE_BLOCK_INDEX
}.

(** The root directory is the directory block 0 and lists [t] under
    inumber [inum] in its first entry. *)
Record has_file (s : tfs) (t : string) (inum : Z) : Prop := {
  hf_root_type : i_node_type (inode_of s ROOT_DIR_INUM) = T_DIRECTORY;
  hf_root_block : i_data_block (inode_of s ROOT_DIR_INUM) = 0;
  hf_entry : fs_dir (data_blocks_s s) 0 0 = mk_dir_entry (strncpy_name t) inum
}.

(** The state in which the first file has just been created and opened:
    [tfs_init] followed by [tfs_open] with CREATE. *)
Definition created (s0 : tfs) (name : option string) : tfs :=
  fst (tfs_open name TFS_O_CREAT (fst (tfs_init s0))).

(** Scenario S1 for an arbitrary path, source buffer and length, started
    from any previous contents [s0] of the global structures: [tfs_init];
    open with CREATE; write [n] bytes of [buf]; close; open again; read
    [n] bytes into [dst].  The result is what [tfs_write] returned, what
    [tfs_read] returned, and the destination buffer. *)
Definition round_trip (s0 : tfs) (name : option string) (buf : buffer_t)
  (n : Z) (dst : buffer_t) : option (Z * Z * buffer_t) :=
  let '(s1, _) := tfs_init s0 in
  let '(s2, fh) := tfs_open name TFS_O_CREAT s1 in
  ' (s3, written) <- tfs_write fh buf n s2 ;;
  let '(s4, _) := tfs_close fh s3 in
  let '(s5, fh') := tfs_open name 0 s4 in
  ' (s6, dst', got) <- tfs_read fh' dst n s5 ;;
  Some (written, got, dst').

(** The round trip as the specification states it: the read returns [n]
    and the destination holds [buf[0..n]]. *)
Definition round_trip_holds (s0 : tfs) (name : option string) (buf : buffer_t)
  (n : Z) (dst : buffer_t) : Prop :=
  exists written dst',
    round_trip s0 name buf n dst = Some (written, n, dst')
    /\ forall i, 0 <= i < n -> dst' i = buf i.

(** Handle [fh] refers to the file [inum] of size [MAX_BYTES] whose
    reference block is pool block [REFERENCE_BLOCK_INDEX], and pool blocks
    [0 .. k-1] are taken. *)
Record at_limit (s : tfs) (fh inum k : Z) : Prop := {
  al_handle : 0 <= fh < MAX_OPEN_FILES;
  al_inumber : 0 <= inum < INODE_TABLE_SIZE;
  al_entry : of_inumber (entry_of s fh) = inum;
  al_offset : 0 <= of_offset (entry_of s fh) < 2 ^ 64;
  al_size : i_size (inode_of s inum) = MAX_BYTES;
  al_reference :
    i_block (inode_of s inum) MAX_DIRECT_BLOCKS = REFERENCE_BLOCK_INDEX;
  al_pool : pool_prefix (data_blocks_s s) k
}.

(** [k] successive writes of [n] bytes through [fh]; the results, in
    order. *)
Fixpoint repeat_write (k : nat) (fh : Z) (buf : buffer_t) (n : Z) (s : tfs)
  : option (tfs * list Z) :=
  match k with
  | O => Some (s, [])
  | S k' =>
      ' (s1, r) <- tfs_write fh buf n s ;;
      ' (s2, rs) <- repeat_write k' fh buf n s1 ;;
      Some (s2, r :: rs)
  end.

Definition xs : buffer_t := fun _ => 88.
Definition ys : buffer_t := fun _ => 89.

(** Starting from any contents [s0] of the global structures:
    [tfs_init]; create and open "/a"; write [MAX_BYTES] bytes; then [k]
    further writes of one byte each.  The result of the big write and the
    results of the one-byte writes. *)
Definition writes_at_limit (s0 : tfs) (k : nat) : option (Z * list Z) :=
  let '(s1, _) := tfs_init s0 in
  let '(s2, fh) := tfs_open (Some "/a"%string) TFS_O_CREAT s1 in
  ' (s3, written) <- tfs_write fh xs MAX_BYTES s2 ;;
  ' (s4, results) <- repeat_write k fh xs 1 s3 ;;
  Some (written, results).

(** What the read of a round trip returned. *)
Definition round_trip_got (r : option (Z * Z * buffer_t)) : option Z :=
  match r with
  | Some (_, got, _) => Some got
  | None => None
  end.

Definition name_of_40_bytes : option string :=
  Some "/0123456789012345678901234567890123456789"%string.

(** [tfs_init]; create "/a" and write [na] bytes of 'X'; create "/b".
    The state and the handle of "/b". *)
Definition two_files (na : Z) : option (tfs * Z) :=
  let '(s1, _) := tfs_init boot in
  let '(s2, fa) := tfs_open (Some "/a"%string) TFS_O_CREAT s1 in
  ' (s3, _) <- tfs_write fa xs na s2 ;;
  let '(s4, fb) := tfs_open (Some "/b"%string) TFS_O_CREAT s3 in
  Some (s4, fb).

(** After [two_files 1]: write one byte 'Y' to "/b", open "/b" again and
    read one byte.  Observed: the result of the write, the result of the
    read, the byte read, slots 0 and 1 of [i_block] of "/b" (inode 2), and
    byte 0 of pool blocks 1 and 2. *)
Definition second_file_observation : option (Z * Z * Z * Z * Z * Z * Z) :=
  ' (s, fb) <- two_files 1 ;;
  ' (s1, written) <- tfs_write fb ys 1 s ;;
  let '(s2, fb') := tfs_open (Some "/b"%string) 0 s1 in
  ' (s3, dst, got) <- tfs_read fb' zeros 1 s2 ;;
  Some (written, got, dst 0,
        i_block (inode_of s3 2) 0, i_block (inode_of s3 2) 1,
        fs_data (data_blocks_s s3) (block_addr 1),
        fs_data (data_blocks_s s3) (block_addr 2)).

(** The predicate of invariant 3 on one inode. *)
Definition inode_within_limits (inode : inode_t) : bool :=
  (i_size inode <=? MAX_BYTES)
  && (negb (i_size inode <=? MAX_BYTES_DIRECT_DATA)
      || (i_block inode MAX_DIRECT_BLOCKS =? -1)).

(** Invariant 3 on the inodes [0 .. n-1] that are in use. *)
Fixpoint inodes_within_limits (n : nat) (s : tfs) : bool :=
  match n with
  | O => true
  | S k =>
      (allocation_state_eqb (freeinode_ts (inode_table_s s) (Z.of_nat k)) FREE
       || inode_within_limits (inode_of s (Z.of_nat k)))
      && inodes_within_limits k s
  end.

Definition size_indirect_invariant (s : tfs) : Prop :=
  forall i, 0 <= i < INODE_TABLE_SIZE ->
    freeinode_ts (inode_table_s s) i = TAKEN ->
    inode_within_limits (inode_of s i) = true.

(** After [two_files 1], the write of [MAX_BYTES_DIRECT_DATA] bytes to
    "/b": whether invariant 3 held before, the result of the write,
    whether the invariant holds afterwards, and the size and the
    indirect slot of "/b". *)
Definition invariant_observation : option (bool * Z * bool * Z * Z) :=
  ' (s, fb) <- two_files 1 ;;
  ' (s1, written) <- tfs_write fb ys MAX_BYTES_DIRECT_DATA s ;;
  Some (inodes_within_limits (Z.to_nat INODE_TABLE_SIZE) s, written,
        inodes_within_limits (Z.to_nat INODE_TABLE_SIZE) s1,
        i_size (inode_of s1 2), i_block (inode_of s1 2) MAX_DIRECT_BLOCKS).


(** Scenario S1 up to the write: "/a" holds "hello", handle 0 is at
    offset 5. *)
Definition hello_written : tfs :=
  match tfs_write 0 (buffer_of_string "hello") 5
          (created boot (Some "/a"%string)) with
  | Some (s, _) => s
  | None => boot
  end.

(** ... and after [tfs_close]. *)
Definition hello_closed : tfs := fst (tfs_close 0 hello_written).

(** [tfs_open] with CREATE for each of the names, in order. *)
Fixpoint create_all (names : list string) (s : tfs) : tfs :=
  match names with
  | [] => s
  | name :: rest => create_all rest (fst (tfs_open (Some name) TFS_O_CREAT s))
  end.

(** A file system whose root directory is full: [MAX_DIR_ENTRIES] files. *)
Definition full_directory : tfs :=
  create_all ["/f1"; "/f2"; "/f3"; "/f4"; "/f5"; "/f6"; "/f7"]%string
    (fst (tfs_init boot)).

(** A state of the file system in which every data block is taken. *)
Definition exhausted_pool : tfs :=
  set_data_blocks boot (set_free_blocks (data_blocks_s boot) (fun _ => TAKEN)).

(** The block of directory entries of the directory [inumber]. *)
Definition dir_entries (s : tfs) (inumber : Z) : Z -> dir_entry_t :=
  fs_dir (data_blocks_s s) (i_data_block (inode_of s inumber)).

(** The test of [find_in_dir] on one entry. *)
Definition entry_matches (e : dir_entry_t) (sub_name : string) : bool :=
  negb (d_inumber e =? -1) && strncmp_eq (d_name e) sub_name MAX_FILE_NAME.

(** [tfs_init]; the file of the 40-byte name is created. *)
Definition long_name_created : tfs :=
  fst (tfs_open name_of_40_bytes TFS_O_CREAT (fst (tfs_init boot))).

(** [tfs_open] for each (path, flags) of the list, in order: the final
    state and the results, in order. *)
Fixpoint open_each (requests : list (option string * Z)) (s : tfs)
  : tfs * list Z :=
  match requests with
  | [] => (s, [])
  | (name, flags) :: rest =>
      let '(s1, fh) := tfs_open name flags s in
      let '(s2, fhs) := open_each rest s1 in
      (s2, fh :: fhs)
  end.

(** The handles among the results of a sequence of opens. *)
Definition handles (results : list Z) : list Z :=
  filter (fun fh => negb (fh =? -1)) results.

(** [tfs_init]; create "/a"; then nineteen more opens of "/a": every
    entry of the open-file table is taken. *)
Definition full_table : tfs :=
  fst (open_each (repeat (Some "/a"%string, TFS_O_CREAT) 20) (fst (tfs_init boot))).

(** What [tfs_write_direct_region_loop] has done when it is entered with
    size and offset [p], wherever in a block [p] lies. *)
Record direct_appended (p ws bw : Z) (buffer : buffer_t)
  (inode : inode_t) (file : open_file_entry_t) (d : data_blocks_t)
  (inode' : inode_t) (file' : open_file_entry_t) (d' : data_blocks_t) : Prop := {
  da_size : i_size inode' = p + ws;
  da_offset : of_offset file' = p + ws;
  da_inumber : of_inumber file' = of_inumber file;
  da_type : i_node_type inode' = i_node_type inode;
  da_pool : pool_prefix d' (1 + blocks_for (p + ws));
  da_dir : fs_dir d' = fs_dir d;
  da_bytes : forall i, 0 <= i < ws ->
      fs_data d' (direct_addr (p + i)) = buffer (bw + i);
  da_kept : forall a, a < direct_addr p -> fs_data d' a = fs_data d a;
  da_slot : i_block inode' MAX_DIRECT_BLOCKS = i_block inode MAX_DIRECT_BLOCKS;
  da_idle : ws = 0 -> inode' = inode;
  da_working : 0 < ws -> i_data_block inode' = blocks_for (p + ws)
}.

(** The same for [tfs_write_indirect_region_loop]. *)
Record indirect_appended (p ws bw : Z) (buffer : buffer_t)
  (inode : inode_t) (file : open_file_entry_t) (d : data_blocks_t)
  (inode' : inode_t) (file' : open_file_entry_t) (d' : data_blocks_t) : Prop := {
  ia_size : i_size inode' = p + ws;
  ia_offset : of_offset file' = p + ws;
  ia_inumber : of_inumber file' = of_inumber file;
  ia_type : i_node_type inode' = i_node_type inode;
  ia_pool : pool_prefix d' (2 + blocks_for (p + ws));
  ia_dir : fs_dir d' = fs_dir d;
  ia_bytes : forall i, 0 <= i < ws ->
      fs_data d' (indirect_addr (p + i)) = buffer (bw + i);
  ia_kept : forall a, a < indirect_addr p -> ~ in_reference_block a ->
      fs_data d' a = fs_data d a;
  ia_slots : i_block inode' = i_block inode;
  ia_idle : ws = 0 -> inode' = inode;
  ia_working : 0 < ws -> i_data_block inode' = 1 + blocks_for (p + ws)
}.

(** The file [inum] holds [n] bytes, [content[0..n]], and is laid out
    from the bottom of the pool: besides block 0 (the root directory)
    the blocks taken are the blocks of this file. *)
Record sole_file (s : tfs) (inum n : Z) (content : buffer_t) : Prop := {
  sf_inumber : 0 <= inum < INODE_TABLE_SIZE;
  sf_limit : 0 <= n <= MAX_BYTES;
  sf_size : i_size (inode_of s inum) = n;
  sf_bytes : forall B, 0 <= B < n ->
      fs_data (data_blocks_s s) (file_addr B) = content B;
  sf_pool : pool_prefix (data_blocks_s s)
      (1 + blocks_for n + (if MAX_BYTES_DIRECT_DATA <? n then 1 else 0));
  sf_working : 0 < n ->
      i_data_block (inode_of s inum)
      = blocks_for n + (if MAX_BYTES_DIRECT_DATA <? n then 1 else 0);
  sf_reference :
      i_block (inode_of s inum) MAX_DIRECT_BLOCKS
      = if MAX_BYTES_DIRECT_DATA <? n then REFERENCE_BLOCK_INDEX else -1
}.

(** [content] followed, from byte [n] on, by [buf]. *)
Definition appended (content : buffer_t) (n : Z) (buf : buffer_t) : buffer_t :=
  fun B => if B <? n then content B else buf (B - n).

(** Scenario S1 after the close and a second open: handle 0 is at
    offset 0 of "/a". *)
Definition hello_reopened : tfs :=
  fst (tfs_open (Some "/a"%string) 0 hello_closed).

(** The append scenario, for any path, buffers and lengths, started from
    any previous contents [s0] of the global structures: [tfs_init];
    open with CREATE; write [n1] bytes of [buf1]; close; open with
    APPEND; write [n2] bytes of [buf2]; close; open; read [n1 + n2]
    bytes into [dst].  The results of the two writes and of the read,
    and the destination buffer. *)
Definition append_round_trip (s0 : tfs) (name : option string)
  (buf1 : buffer_t) (n1 : Z) (buf2 : buffer_t) (n2 : Z) (dst : buffer_t)
  : option (Z * Z * Z * buffer_t) :=
  let '(s1, _) := tfs_init s0 in
  let '(s2, fh) := tfs_open name TFS_O_CREAT s1 in
  ' (s3, written1) <- tfs_write fh buf1 n1 s2 ;;
  let '(s4, _) := tfs_close fh s3 in
  let '(s5, fa) := tfs_open name TFS_O_APPEND s4 in
  ' (s6, written2) <- tfs_write fa buf2 n2 s5 ;;
  let '(s7, _) := tfs_close fa s6 in
  let '(s8, fr) := tfs_open name 0 s7 in
  ' (s9, dst', got) <- tfs_read fr dst (n1 + n2) s8 ;;
  Some (written1, written2, got, dst').

(** A host on which [fopen] and [fclose] succeed and [fwrite] appends
    all the bytes it is offered. *)
Record host_works (host : host_t) : Prop := {
  hw_fopen : fopen_w host = true;
  hw_fwrite : forall stream bytes,
      fwrite host stream bytes = ((stream ++ bytes)%list, Z.of_nat (List.length bytes));
  hw_fclose : 0 <= fclose host
}.

(** Such a host. *)
Definition plain_host : host_t :=
  mk_host true (fun stream bytes => ((stream ++ bytes)%list, Z.of_nat (List.length bytes))) 0.

(** [tfs_init]; "/a" is created and closed again: an empty file. *)
Definition empty_file_closed : tfs :=
  fst (tfs_close 0 (created boot (Some "/a"%string))).

(** The state [s'] differs from [s] at most in the offset of the
    open-file entry [fh]. *)
Definition same_but_offset (s s' : tfs) (fh : Z) : Prop :=
  inode_table_s s' = inode_table_s s
  /\ data_blocks_s s' = data_blocks_s s
  /\ free_open_file_entries (fs_state_s s')
     = free_open_file_entries (fs_state_s s)
  /\ (forall h, h <> fh -> entry_of s' h = entry_of s h)
  /\ of_inumber (entry_of s' fh) = of_inumber (entry_of s fh).

(** What a read of scenario S1 returns: 3 bytes through the reopened
    handle. *)
Definition hello_read : tfs * buffer_t * Z :=
  match tfs_read 0 zeros 3 hello_reopened with
  | Some result => result
  | None => (hello_reopened, zeros, -1)
  end.

(** The pool [d'] has the directory entries of [d] and every block taken
    in [d] is taken in [d']. *)
Definition pool_grows (d d' : data_blocks_t) : Prop :=
  fs_dir d' = fs_dir d
  /\ forall b, free_blocks d b = TAKEN -> free_blocks d' b = TAKEN.

(** What [tfs_write] through the handle [fh] leaves alone between the
    states [s] and [s']. *)
Definition write_leaves (s s' : tfs) (fh : Z) : Prop :=
  freeinode_ts (inode_table_s s') = freeinode_ts (inode_table_s s)
  /\ (forall i, i <> of_inumber (entry_of s fh) -> inode_of s' i = inode_of s i)
  /\ (forall i, i_node_type (inode_of s' i) = i_node_type (inode_of s i))
  /\ pool_grows (data_blocks_s s) (data_blocks_s s')
  /\ free_open_file_entries (fs_state_s s')
     = free_open_file_entries (fs_state_s s)
  /\ (forall h, h <> fh -> entry_of s' h = entry_of s h)
  /\ of_inumber (entry_of s' fh) = of_inumber (entry_of s fh).

(** ** Concurrent opens *)

Module Interleaving.

(** Threads run the tail of [tfs_open]: [file_allocation_map_lock(MUTEX)],
    then [add_to_open_file_table(inum, offset)], then
    [file_allocation_map_unlock(MUTEX)], then the return of the handle.
    [add_to_open_file_table] is not atomic: a thread tests a slot of
    [free_open_file_entries] in one step and writes it in another, and
    any other thread may run in between.  The resolution of the path,
    which comes first in [tfs_open], does not touch the open-file table
    and is represented by its result [(inum, offset)]. *)
Inductive pc : Type :=
| AtLock (inumber offset : Z)      (* about to take fs_state_mutex *)
| AtTest (inumber offset i : Z)    (* in the scan, about to test slot i *)
| AtTake (inumber offset i : Z)    (* slot i was seen FREE, about to write it *)
| AtUnlock (fhandle : Z)           (* about to release fs_state_mutex *)
| Returned (fhandle : Z).          (* tfs_open has returned fhandle *)

Record config : Type := mk_config {
  threads : nat -> pc;
  mutex : option nat;                (* the thread holding fs_state_mutex *)
  table : fs_state_t
}.

Definition set_thread (th : nat -> pc) (t : nat) (p : pc) : nat -> pc :=
  fun u => if Nat.eqb u t then p else th u.

(** One step of one thread [t]. *)
Inductive step : config -> config -> Prop :=
| step_lock : forall c t inumber offset,
    threads c t = AtLock inumber offset ->
    mutex c = None ->
    step c (mk_config (set_thread (threads c) t (AtTest inumber offset 0))
              (Some t) (table c))
| step_scan_taken : forall c t inumber offset i,
    threads c t = AtTest inumber offset i ->
    i < MAX_OPEN_FILES ->
    allocation_state_eqb (free_open_file_entries (table c) i) FREE = false ->
    step c (mk_config (set_thread (threads c) t (AtTest inumber offset (i + 1)))
              (mutex c) (table c))
| step_scan_free : forall c t inumber offset i,
    threads c t = AtTest inumber offset i ->
    i < MAX_OPEN_FILES ->
    allocation_state_eqb (free_open_file_entries (table c) i) FREE = true ->
    step c (mk_config (set_thread (threads c) t (AtTake inumber offset i))
              (mutex c) (table c))
| step_scan_full : forall c t inumber offset i,
    threads c t = AtTest inumber offset i ->
    MAX_OPEN_FILES <= i ->
    step c (mk_config (set_thread (threads c) t (AtUnlock (-1)))
              (mutex c) (table c))
| step_take : forall c t inumber offset i,
    threads c t = AtTake inumber offset i ->
    step c (mk_config (set_thread (threads c) t (AtUnlock i))
              (mutex c)
              (mk_fs_state
                 (upd (open_file_table (table c)) i
                    (mk_open_file_entry inumber offset))
                 (upd (free_open_file_entries (table c)) i TAKEN)))
| step_unlock : forall c t fhandle,
    threads c t = AtUnlock fhandle ->
    step c (mk_config (set_thread (threads c) t (Returned fhandle))
              None (table c)).

(** Any interleaving: a finite sequence of steps of any threads. *)
Inductive steps : config -> config -> Prop :=
| steps_refl : forall c, steps c c
| steps_step : forall c1 c2 c3, step c1 c2 -> steps c2 c3 -> steps c1 c3.



(** Every thread is about to enter the tail of [tfs_open], or has
    not been started, and nobody holds the lock. *)
Definition initial (c : config) : Prop :=
  mutex c = None
  /\ forall t, exists inumber offset, threads c t = AtLock inumber offset.

Definition in_critical_section (p : pc) : Prop :=
  match p with
  | AtTest _ _ _ | AtTake _ _ _ | AtUnlock _ => True
  | AtLock _ _ | Returned _ => False
  end.

(** The handle a thread has obtained, once the scan is over. *)
Definition handle_of (p : pc) : option Z :=
  match p with
  | AtUnlock h | Returned h => Some h
  | _ => None
  end.

Record invariant (c : config) : Prop := {
  inv_mutex : forall t, in_critical_section (threads c t) -> mutex c = Some t;
  inv_test : forall t inumber offset i,
      threads c t = AtTest inumber offset i -> 0 <= i;
  inv_take : forall t inumber offset i,
      threads c t = AtTake inumber offset i ->
      0 <= i /\ free_open_file_entries (table c) i = FREE;
  inv_taken : forall t h,
      handle_of (threads c t) = Some h -> h <> -1 ->
      0 <= h /\ free_open_file_entries (table c) h = TAKEN;
  inv_distinct : forall t u h,
      t <> u ->
      handle_of (threads c t) = Some h -> handle_of (threads c u) = Some h ->
      h = -1
}.

(** Two threads about to open, an empty open-file table. *)
Definition two_openers : config :=
  mk_config (fun _ => AtLock 1 0) None
    (mk_fs_state (fun _ => mk_open_file_entry 0 0) (fun _ => FREE)).

(** No thread holds an index past the end of the table. *)
Definition within_table (c : config) : Prop :=
  forall t,
    match threads c t with
    | AtTake _ _ i => i < MAX_OPEN_FILES
    | AtUnlock h | Returned h => h < MAX_OPEN_FILES
    | _ => True
    end.

End Interleaving.

(** * Properties *)

(** ** Machine integers and arrays *)

Lemma to_size_t_small z : 0 <= z < 2 ^ 64 -> to_size_t z = z.
Proof. intros H. unfold to_size_t. apply Z.mod_small. exact H. Qed.

Lemma size_add_small a b : 0 <= a + b < 2 ^ 64 -> size_add a b = a + b.
Proof. apply to_size_t_small. Qed.

Lemma size_sub_small a b : 0 <= a - b < 2 ^ 64 -> size_sub a b = a - b.
Proof. apply to_size_t_small. Qed.

Lemma to_ssize_t_small z : 0 <= z < 2 ^ 63 -> to_ssize_t z = z.
Proof.
  intros H. unfold to_ssize_t.
  rewrite Z.mod_small by lia.
  destruct (Z.ltb_spec z (2 ^ 63)); lia.
Qed.

Lemma to_int_small z : 0 <= z < 2 ^ 31 -> to_int z = z.
Proof.
  intros H. unfold to_int.
  rewrite Z.mod_small by lia.
  destruct (Z.ltb_spec z (2 ^ 31)); lia.
Qed.

Lemma upd_eq {A} (a : Z -> A) i x : upd a i x i = x.
Proof. unfold upd. now rewrite Z.eqb_refl. Qed.

Lemma upd_neq {A} (a : Z -> A) i j x : j <> i -> upd a i x j = a j.
Proof. intros H. unfold upd. destruct (Z.eqb_spec j i); congruence. Qed.

Lemma valid_file_handle_iff h :
  valid_file_handle h = true <-> 0 <= h < MAX_OPEN_FILES.
Proof. unfold valid_file_handle. lia. Qed.

Lemma valid_inumber_iff i : valid_inumber i = true <-> 0 <= i < INODE_TABLE_SIZE.
Proof. unfold valid_inumber. lia. Qed.

Lemma valid_block_number_iff b :
  valid_block_number b = true <-> 0 <= b < DATA_BLOCKS.
Proof. unfold valid_block_number. lia. Qed.

Lemma get_open_file_entry_valid h :
  0 <= h < MAX_OPEN_FILES -> get_open_file_entry h = Some h.
Proof.
  intros H. unfold get_open_file_entry.
  now rewrite (proj2 (valid_file_handle_iff h) H).
Qed.

Lemma inode_get_valid i : 0 <= i < INODE_TABLE_SIZE -> inode_get i = Some i.
Proof.
  intros H. unfold inode_get. now rewrite (proj2 (valid_inumber_iff i) H).
Qed.

Lemma data_block_get_valid b :
  0 <= b < DATA_BLOCKS ->
  data_block_get b = Some (b * BLOCK_SIZE * sizeof_allocation_state_t).
Proof.
  intros H. unfold data_block_get.
  now rewrite (proj2 (valid_block_number_iff b) H).
Qed.

(** ** Reading at the end of the file *)

Lemma tfs_read_direct_region_nothing m file buffer :
  0 <= of_offset file < 2 ^ 64 ->
  tfs_read_direct_region m file 0 buffer = Some (file, buffer, 0).
Proof.
  intros Hoff. unfold tfs_read_direct_region.
  destruct (size_add (of_offset file) 0 <=? MAX_BYTES_DIRECT_DATA); reflexivity.
Qed.

Lemma tfs_read_indirect_region_nothing m file buffer :
  tfs_read_indirect_region m file 0 buffer = Some (file, buffer, 0).
Proof. reflexivity. Qed.

Lemma tfs_read_nothing_left :
  forall (s : tfs) (fhandle len : Z) (buffer : buffer_t),
    0 <= fhandle < MAX_OPEN_FILES ->
    0 <= of_inumber (entry_of s fhandle) < INODE_TABLE_SIZE ->
    0 <= of_offset (entry_of s fhandle) < 2 ^ 64 ->
    of_offset (entry_of s fhandle)
      = i_size (inode_of s (of_inumber (entry_of s fhandle))) ->
    0 < len ->
    tfs_read fhandle buffer len s
      = Some (set_open_file s fhandle (entry_of s fhandle), buffer, 0).
Proof.
  intros s fhandle len buffer Hh Hi Hoff Heq Hlen.
  unfold tfs_read.
  destruct (Z.eqb_spec len 0) as [->|_]; [lia|].
  rewrite (get_open_file_entry_valid _ Hh).
  fold (entry_of s fhandle).
  rewrite (inode_get_valid _ Hi).
  fold (inode_of s (of_inumber (entry_of s fhandle))).
  rewrite <- Heq.
  assert (Hz : size_sub (of_offset (entry_of s fhandle))
                 (of_offset (entry_of s fhandle)) = 0).
  { unfold size_sub. rewrite Z.sub_diag. reflexivity. }
  rewrite Hz.
  destruct (Z.gtb_spec 0 len) as [?|_]; [lia|].
  rewrite (size_add_small _ 0) by lia.
  rewrite Z.add_0_r.
  destruct (Z.leb_spec (of_offset (entry_of s fhandle)) MAX_BYTES_DIRECT_DATA).
  - now rewrite tfs_read_direct_region_nothing by assumption.
  - destruct (Z.geb_spec (of_offset (entry_of s fhandle)) MAX_BYTES_DIRECT_DATA);
      [|lia].
    now rewrite tfs_read_indirect_region_nothing.
Qed.

(** C9. A read through an in-range handle whose offset equals the size
    of its inode returns 0 for every [len > 0]: the destination buffer is
    handed back as it was, the offset of the entry is unchanged, and the
    result is not -1. *)
Theorem tfs_read_at_end_of_file :
  forall (s : tfs) (fhandle len : Z) (buffer : buffer_t),
    0 <= fhandle < MAX_OPEN_FILES ->
    0 <= of_inumber (entry_of s fhandle) < INODE_TABLE_SIZE ->
    0 <= of_offset (entry_of s fhandle) < 2 ^ 64 ->
    of_offset (entry_of s fhandle)
      = i_size (inode_of s (of_inumber (entry_of s fhandle))) ->
    0 < len ->
    exists s',
      tfs_read fhandle buffer len s = Some (s', buffer, 0)
      /\ of_offset (entry_of s' fhandle) = of_offset (entry_of s fhandle).
Proof.
  intros s fhandle len buffer Hh Hi Hoff Heq Hlen.
  eexists. split.
  - now apply tfs_read_nothing_left.
  - unfold entry_of, set_open_file; simpl. now rewrite upd_eq.
Qed.

(** ** Handles are not checked against the occupancy map *)

(** Case analysis along the control flow of the left-hand side. *)
Ltac follow_lhs :=
  repeat (first
    [ reflexivity
    | match goal with
      | |- (if ?c then _ else _) = _ => destruct c eqn:?
      | |- (match ?x with Some _ => _ | None => _ end) = _ =>
          destruct x as [?|] eqn:?
      | |- (match ?p with (_, _) => _ end) = _ => destruct p
      end
    | progress cbn iota beta ]).

Lemma tfs_read_with_free_entries s a fhandle buffer len :
  tfs_read fhandle buffer len (with_free_entries s a)
  = match tfs_read fhandle buffer len s with
    | Some (s', b, r) => Some (with_free_entries s' a, b, r)
    | None => None
    end.
Proof.
  destruct s as [it d [oft fr]].
  unfold tfs_read, with_free_entries, set_open_file, set_fs_state.
  cbn [fs_state_s open_file_table inode_table_s data_blocks_s
       free_open_file_entries].
  follow_lhs.
Qed.

Lemma tfs_write_with_free_entries s a fhandle buffer to_write :
  tfs_write fhandle buffer to_write (with_free_entries s a)
  = match tfs_write fhandle buffer to_write s with
    | Some (s', r) => Some (with_free_entries s' a, r)
    | None => None
    end.
Proof.
  destruct s as [it d [oft fr]].
  unfold tfs_write, with_free_entries, commit, set_open_file, set_fs_state,
    set_data_blocks, set_inode.
  cbn [fs_state_s open_file_table inode_table_s data_blocks_s
       free_open_file_entries inode_table freeinode_ts].
  follow_lhs.
Qed.

(** C10. For a handle in [0, MAX_OPEN_FILES) [get_open_file_entry] yields
    the table entry whatever the occupancy map says, and [tfs_read] and
    [tfs_write] compute the same result, the same buffer and the same
    state under every occupancy map: a closed (Free) entry is not turned
    down. *)
Theorem closed_handle_not_rejected :
  forall fhandle : Z,
    0 <= fhandle < MAX_OPEN_FILES ->
    get_open_file_entry fhandle = Some fhandle
    /\ (forall s a buffer len,
          tfs_read fhandle buffer len (with_free_entries s a)
          = match tfs_read fhandle buffer len s with
            | Some (s', b, r) => Some (with_free_entries s' a, b, r)
            | None => None
            end)
    /\ (forall s a buffer to_write,
          tfs_write fhandle buffer to_write (with_free_entries s a)
          = match tfs_write fhandle buffer to_write s with
            | Some (s', r) => Some (with_free_entries s' a, r)
            | None => None
            end).
Proof.
  intros fhandle Hh. split; [now apply get_open_file_entry_valid|].
  split; intros.
  - apply tfs_read_with_free_entries.
  - apply tfs_write_with_free_entries.
Qed.

(** ** First-fit scans *)

Lemma allocation_state_eqb_FREE a :
  allocation_state_eqb a FREE = true <-> a = FREE.
Proof. destruct a; simpl; split; congruence. Qed.

Lemma allocation_state_not_FREE a :
  allocation_state_eqb a FREE = false <-> a = TAKEN.
Proof. destruct a; simpl; split; congruence. Qed.

Lemma add_to_open_file_table_loop_found fuel :
  forall i inumber offset f f' h,
    0 <= i ->
    add_to_open_file_table_loop fuel i inumber offset f = (f', h) ->
    h <> -1 ->
    i <= h < i + Z.of_nat fuel
    /\ free_open_file_entries f h = FREE
    /\ (forall j, i <= j < h -> free_open_file_entries f j = TAKEN)
    /\ f' = mk_fs_state
              (upd (open_file_table f) h (mk_open_file_entry inumber offset))
              (upd (free_open_file_entries f) h TAKEN).
Proof.
  induction fuel as [|fuel IH]; intros i inumber offset f f' h Hi Hrun Hh;
    simpl in Hrun.
  - inversion Hrun; subst. congruence.
  - destruct (allocation_state_eqb (free_open_file_entries f i) FREE) eqn:Hfree.
    + inversion Hrun; subst. apply allocation_state_eqb_FREE in Hfree.
      repeat split; try lia; auto; intros j Hj; lia.
    + apply IH in Hrun; [|lia|assumption].
      destruct Hrun as (Hr & Hf & Hbelow & Heq).
      repeat split; try lia; auto.
      intros j Hj. destruct (Z.eq_dec j i) as [->|Hne].
      * now apply allocation_state_not_FREE.
      * apply Hbelow. lia.
Qed.

Lemma add_to_open_file_table_loop_full fuel :
  forall i inumber offset f f',
    0 <= i ->
    add_to_open_file_table_loop fuel i inumber offset f = (f', -1) ->
    f' = f.
Proof.
  induction fuel as [|fuel IH]; intros i inumber offset f f' Hi Hrun;
    simpl in Hrun.
  - now inversion Hrun.
  - destruct (allocation_state_eqb (free_open_file_entries f i) FREE).
    + inversion Hrun. lia.
    + eapply IH; [|eassumption]. lia.
Qed.

Lemma add_to_open_file_table_found inumber offset f f' h :
  add_to_open_file_table inumber offset f = (f', h) ->
  h <> -1 ->
  0 <= h < MAX_OPEN_FILES
  /\ free_open_file_entries f h = FREE
  /\ (forall j, 0 <= j < h -> free_open_file_entries f j = TAKEN)
  /\ f' = mk_fs_state
            (upd (open_file_table f) h (mk_open_file_entry inumber offset))
            (upd (free_open_file_entries f) h TAKEN).
Proof.
  intros Hrun Hh. unfold add_to_open_file_table in Hrun.
  apply add_to_open_file_table_loop_found in Hrun; [|lia|assumption].
  destruct Hrun as (Hr & Hrest). split; [|exact Hrest].
  change (Z.of_nat (Z.to_nat MAX_OPEN_FILES)) with 20 in Hr. lia.
Qed.

Lemma tfs_open_add_found inum offset s s' fh :
  tfs_open_add inum offset s = (s', fh) ->
  fh <> -1 ->
  0 <= fh < MAX_OPEN_FILES
  /\ entry_of s' fh = mk_open_file_entry inum offset
  /\ inode_table_s s' = inode_table_s s
  /\ data_blocks_s s' = data_blocks_s s.
Proof.
  unfold tfs_open_add. intros Hrun Hfh.
  destruct (add_to_open_file_table inum offset (fs_state_s s)) as [f1 h] eqn:Hadd.
  inversion Hrun; subst; clear Hrun.
  apply add_to_open_file_table_found in Hadd; [|assumption].
  destruct Hadd as (Hr & _ & _ & ->).
  repeat split; try lia. unfold entry_of; simpl. now rewrite upd_eq.
Qed.

(** ** Truncation on open *)

Lemma tfs_lookup_resolves name s :
  0 <= tfs_lookup name s -> valid_pathname name = true.
Proof.
  unfold tfs_lookup. destruct (valid_pathname name); [reflexivity|simpl; lia].
Qed.

(** C6. Opening an existing file with the TRUNC flag: when the open hands
    out a handle, the inode has size 0; if its size was positive its
    working data block has been freed; and a read of any positive length
    through the handle returns 0. *)
Theorem tfs_open_trunc :
  forall (s : tfs) (name : option string) (flags : Z),
    flag_set flags TFS_O_TRUNC = true ->
    0 <= tfs_lookup name s ->
    0 <= i_size (inode_of s (tfs_lookup name s)) ->
    snd (tfs_open name flags s) <> -1 ->
    let inum := tfs_lookup name s in
    let s' := fst (tfs_open name flags s) in
    let fh := snd (tfs_open name flags s) in
    i_size (inode_of s' inum) = 0
    /\ (0 < i_size (inode_of s inum) ->
        free_blocks (data_blocks_s s') (i_data_block (inode_of s inum)) = FREE)
    /\ of_inumber (entry_of s' fh) = inum
    /\ forall (buffer : buffer_t) (len : Z),
         0 < len ->
         exists s'', tfs_read fh buffer len s' = Some (s'', buffer, 0).
Proof.
  intros s name flags Htr Hres Hsz Hok inum s' fh.
  assert (Hgoal :
    i_size (inode_of s' inum) = 0
    /\ (0 < i_size (inode_of s inum) ->
        free_blocks (data_blocks_s s') (i_data_block (inode_of s inum)) = FREE)
    /\ 0 <= fh < MAX_OPEN_FILES
    /\ 0 <= inum < INODE_TABLE_SIZE
    /\ entry_of s' fh = mk_open_file_entry inum 0).
  { subst s' fh. unfold tfs_open in *.
    rewrite (tfs_lookup_resolves _ _ Hres) in *. simpl negb in *. cbv iota in *.
    fold inum in Hok |- *.
    destruct (Z.leb_spec 0 inum) as [_|?]; [|subst inum; lia].
    unfold inode_get in *.
    destruct (valid_inumber inum) eqn:Hvalid; simpl negb in *; cbv iota in *;
      [|simpl in Hok; congruence].
    apply valid_inumber_iff in Hvalid.
    fold (inode_of s inum) in *. rewrite Htr in *. simpl andb in *.
    destruct (Z.ltb_spec 0 (i_size (inode_of s inum))) as [Hpos|Hzero].
    - unfold data_block_free in *.
      destruct (valid_block_number (i_data_block (inode_of s inum)));
        simpl negb in *; cbv iota in *; [|simpl in Hok; congruence].
      simpl Z.eqb in *. cbv iota in *.
      match goal with
      | |- context [tfs_open_add inum ?o ?st] =>
          assert (Hoff : o = 0);
          [ unfold set_inode; simpl; rewrite upd_eq; simpl;
            now destruct (flag_set flags TFS_O_APPEND) |];
          rewrite Hoff in *;
          destruct (tfs_open_add inum 0 st) as [s1 h] eqn:Hadd
      end.
      simpl in Hok |- *.
      apply tfs_open_add_found in Hadd; [|assumption].
      destruct Hadd as (Hr & Hent & Hit & Hd).
      unfold inode_of. rewrite Hit, Hd. simpl. rewrite !upd_eq. simpl.
      repeat split; try lia; auto.
    - assert (Hs0 : i_size (inode_of s inum) = 0) by (subst inum; lia).
      match goal with
      | |- context [tfs_open_add inum ?o ?st] =>
          assert (Hoff : o = 0);
          [ now destruct (flag_set flags TFS_O_APPEND) |];
          rewrite Hoff in *;
          destruct (tfs_open_add inum 0 st) as [s1 h] eqn:Hadd
      end.
      simpl in Hok |- *.
      apply tfs_open_add_found in Hadd; [|assumption].
      destruct Hadd as (Hr & Hent & Hit & Hd).
      unfold inode_of in *. rewrite Hit.
      repeat split; try lia; auto. }
  destruct Hgoal as (H0 & Hfree & Hfh & Hinum & Hent).
  split; [exact H0|]. split; [exact Hfree|]. split.
  - now rewrite Hent.
  - intros buffer len Hlen. eexists.
    apply tfs_read_nothing_left; rewrite ?Hent; simpl; lia.
Qed.

(** ** Creating a file and rolling the creation back *)

Lemma inode_create_loop_file fuel :
  forall i s s' inum,
    0 <= i ->
    inode_create_loop fuel i T_FILE s = (s', inum) ->
    inum <> -1 ->
    i <= inum < i + Z.of_nat fuel
    /\ freeinode_ts (inode_table_s s) inum = FREE
    /\ (forall j, i <= j < inum -> freeinode_ts (inode_table_s s) j = TAKEN)
    /\ s' = set_inode (set_freeinode s inum TAKEN) inum
              (mk_inode T_FILE 0 (-1) (fun _ => -1)).
Proof.
  induction fuel as [|fuel IH]; intros i s s' inum Hi Hrun Hne; simpl in Hrun.
  - inversion Hrun; subst. congruence.
  - destruct (allocation_state_eqb (freeinode_ts (inode_table_s s) i) FREE)
      eqn:Hfree.
    + unfold inode_create_at in Hrun. inversion Hrun; subst.
      apply allocation_state_eqb_FREE in Hfree.
      repeat split; try lia; auto; intros j Hj; lia.
    + apply IH in Hrun; [|lia|assumption].
      destruct Hrun as (Hr & Hf & Hbelow & Heq).
      repeat split; try lia; auto.
      intros j Hj. destruct (Z.eq_dec j i) as [->|Hne'].
      * now apply allocation_state_not_FREE.
      * apply Hbelow. lia.
Qed.

Lemma inode_create_file s s' inum :
  inode_create T_FILE s = (s', inum) ->
  inum <> -1 ->
  0 <= inum < INODE_TABLE_SIZE
  /\ freeinode_ts (inode_table_s s) inum = FREE
  /\ (forall j, 0 <= j < inum -> freeinode_ts (inode_table_s s) j = TAKEN)
  /\ s' = set_inode (set_freeinode s inum TAKEN) inum
            (mk_inode T_FILE 0 (-1) (fun _ => -1)).
Proof.
  intros Hrun Hne. unfold inode_create in Hrun.
  apply inode_create_loop_file in Hrun; [|lia|assumption].
  destruct Hrun as (Hr & Hrest). split; [|exact Hrest].
  change (Z.of_nat (Z.to_nat INODE_TABLE_SIZE)) with 50 in Hr. lia.
Qed.

Lemma add_dir_entry_loop_full fuel :
  forall i b sub_inumber sub_name d d',
    add_dir_entry_loop fuel i b sub_inumber sub_name d = (d', -1) -> d' = d.
Proof.
  induction fuel as [|fuel IH]; intros i b sub_inumber sub_name d d' Hrun;
    simpl in Hrun.
  - now inversion Hrun.
  - destruct (d_inumber (fs_dir d b i) =? -1).
    + inversion Hrun.
    + eapply IH; eassumption.
Qed.

Lemma add_dir_entry_failed inumber sub_inumber sub_name s s' :
  add_dir_entry inumber sub_inumber sub_name s = (s', -1) ->
  inode_table_s s' = inode_table_s s
  /\ data_blocks_s s' = data_blocks_s s
  /\ fs_state_s s' = fs_state_s s.
Proof.
  unfold add_dir_entry. intros Hrun.
  repeat match type of Hrun with
    | (if ?c then _ else _) = _ => destruct c
    | (match ?x with Some _ => _ | None => _ end) = _ => destruct x
    end;
    try (inversion Hrun; subst; auto; fail).
  destruct (add_dir_entry_loop _ _ _ _ _ _) as [d1 r] eqn:Hloop.
  inversion Hrun; subst. apply add_dir_entry_loop_full in Hloop. subst d1.
  auto.
Qed.

(** C7. [tfs_open] with CREATE on a valid path that does not resolve: if
    [inode_create] hands out an inode and [add_dir_entry] then fails, the
    open returns -1 and the slot of the created inode is Free again.
    Nothing else is compensated: the allocation map of the inode table is
    as it was before the call, the data-block pool and the open-file table
    are untouched, and only the fields of the created-then-deleted inode
    keep their initialisation. *)
Theorem tfs_open_create_rollback :
  forall (s : tfs) (name : option string) (flags : Z),
    valid_pathname name = true ->
    tfs_lookup name s < 0 ->
    flag_set flags TFS_O_CREAT = true ->
    snd (inode_create T_FILE s) <> -1 ->
    snd (add_dir_entry ROOT_DIR_INUM (snd (inode_create T_FILE s))
           (skip_char name) (fst (inode_create T_FILE s))) = -1 ->
    let inum := snd (inode_create T_FILE s) in
    let s' := fst (tfs_open name flags s) in
    snd (tfs_open name flags s) = -1
    /\ freeinode_ts (inode_table_s s') inum = FREE
    /\ (forall j, freeinode_ts (inode_table_s s') j
                  = freeinode_ts (inode_table_s s) j)
    /\ (forall j, j <> inum -> inode_of s' j = inode_of s j)
    /\ inode_of s' inum = mk_inode T_FILE 0 (-1) (fun _ => -1)
    /\ data_blocks_s s' = data_blocks_s s
    /\ fs_state_s s' = fs_state_s s.
Proof.
  intros s name flags Hvalid Hunres Hcreat Hino Hadd inum s'.
  subst s'. unfold tfs_open. rewrite Hvalid. simpl negb. cbv iota.
  destruct (Z.leb_spec 0 (tfs_lookup name s)) as [?|_]; [lia|].
  rewrite Hcreat.
  destruct (inode_create T_FILE s) as [s1 i] eqn:Hcreate.
  simpl in Hino, Hadd, inum. subst inum.
  destruct (Z.eqb_spec i (-1)) as [?|_]; [congruence|].
  apply inode_create_file in Hcreate; [|assumption].
  destruct Hcreate as (Hr & Hfree & _ & Hs1).
  destruct (add_dir_entry ROOT_DIR_INUM i (skip_char name) s1) as [s2 r] eqn:Hde.
  simpl in Hadd. subst r. simpl Z.eqb. cbv iota.
  apply add_dir_entry_failed in Hde. destruct Hde as (Hit & Hd & Hf).
  destruct s2 as [it2 d2 f2]. simpl in Hit, Hd, Hf. subst it2 d2 f2 s1.
  unfold inode_delete.
  rewrite (proj2 (valid_inumber_iff i) Hr). simpl. rewrite !upd_eq. simpl.
  repeat split; auto.
  - apply upd_eq.
  - intros j. unfold upd. destruct (Z.eqb_spec j i); congruence.
  - intros j Hj. unfold inode_of; simpl. now rewrite upd_neq.
  - unfold inode_of; simpl. now rewrite upd_eq.
Qed.

(** ** The block pool filled from the bottom *)

(** Linear arithmetic with division and remainder by constants. *)
Ltac dlia := Z.div_mod_to_equations; lia.

(** Reduces the projections of updated records. *)
Ltac records :=
  unfold set_i_size, set_i_data_block, set_i_block, set_of_offset,
    set_fs_data, set_fs_dir, set_free_blocks in *;
  cbn [i_node_type i_size i_data_block i_block of_inumber of_offset
       fs_data fs_dir free_blocks] in *.

Lemma data_block_get_addr b :
  0 <= b < DATA_BLOCKS -> data_block_get b = Some (block_addr b).
Proof. apply data_block_get_valid. Qed.

Lemma data_block_alloc_loop_prefix fuel :
  forall i k d,
    pool_prefix d k -> 0 <= i <= k -> k < DATA_BLOCKS ->
    k < i + Z.of_nat fuel ->
    data_block_alloc_loop fuel i d
    = (set_free_blocks d (upd (free_blocks d) k TAKEN), k).
Proof.
  induction fuel as [|fuel IH]; intros i k d Hp Hi Hk Hfuel; simpl.
  - lia.
  - rewrite (Hp i) by lia.
    destruct (Z.ltb_spec i k) as [Hlt|Hge]; simpl.
    + apply IH; auto; lia.
    + now replace i with k by lia.
Qed.

Lemma data_block_alloc_loop_exhausted fuel :
  forall i d,
    (forall b, i <= b < i + Z.of_nat fuel -> free_blocks d b = TAKEN) ->
    data_block_alloc_loop fuel i d = (d, -1).
Proof.
  induction fuel as [|fuel IH]; intros i d Hall; simpl; [reflexivity|].
  rewrite (Hall i) by lia. simpl. apply IH. intros b Hb. apply Hall. lia.
Qed.

Lemma data_block_alloc_prefix d k :
  pool_prefix d k -> 0 <= k < DATA_BLOCKS ->
  data_block_alloc d = (set_free_blocks d (upd (free_blocks d) k TAKEN), k).
Proof.
  intros Hp Hk. unfold data_block_alloc.
  apply data_block_alloc_loop_prefix; auto; lia.
Qed.

Lemma data_block_alloc_exhausted d k :
  pool_prefix d k -> DATA_BLOCKS <= k -> data_block_alloc d = (d, -1).
Proof.
  intros Hp Hk. unfold data_block_alloc.
  apply data_block_alloc_loop_exhausted.
  change (Z.of_nat (Z.to_nat DATA_BLOCKS)) with 1024.
  intros b Hb. rewrite (Hp b) by lia.
  destruct (Z.ltb_spec b k); [reflexivity|lia].
Qed.

Lemma pool_prefix_alloc d k m dir :
  pool_prefix d k ->
  pool_prefix (mk_data_blocks m dir (upd (free_blocks d) k TAKEN)) (k + 1).
Proof.
  intros Hp b Hb. simpl. unfold upd.
  destruct (Z.eqb_spec b k) as [->|Hne].
  - destruct (Z.ltb_spec k (k + 1)); [reflexivity|lia].
  - rewrite (Hp b Hb).
    destruct (Z.ltb_spec b k), (Z.ltb_spec b (k + 1)); try reflexivity; lia.
Qed.

Lemma pool_prefix_data d k m :
  pool_prefix d k -> pool_prefix (set_fs_data d m) k.
Proof. intros Hp b Hb. simpl. now apply Hp. Qed.

(** ** Where the engine puts and looks for the bytes of a file *)

Lemma memcpy_inside m dst src n a :
  dst <= a < dst + n -> memcpy m dst src n a = src (a - dst).
Proof.
  intros H. unfold memcpy.
  destruct (Z.leb_spec dst a), (Z.ltb_spec a (dst + n)); simpl; auto; lia.
Qed.

Lemma memcpy_outside m dst src n a :
  a < dst \/ dst + n <= a -> memcpy m dst src n a = m a.
Proof.
  intros H. unfold memcpy.
  destruct (Z.leb_spec dst a), (Z.ltb_spec a (dst + n)); simpl; auto; lia.
Qed.

Lemma memset_inside m dst c n a :
  dst <= a < dst + n -> memset m dst c n a = c mod 256.
Proof.
  intros H. unfold memset.
  destruct (Z.leb_spec dst a), (Z.ltb_spec a (dst + n)); simpl; auto; lia.
Qed.

Lemma memset_outside m dst c n a :
  a < dst \/ dst + n <= a -> memset m dst c n a = m a.
Proof.
  intros H. unfold memset.
  destruct (Z.leb_spec dst a), (Z.ltb_spec a (dst + n)); simpl; auto; lia.
Qed.

Lemma store_int_outside m p v a :
  a < p \/ p + INT_SIZE <= a -> store_int m p v a = m a.
Proof.
  intros H. unfold store_int.
  destruct (Z.leb_spec p a), (Z.ltb_spec a (p + 4)); simpl; auto; lia.
Qed.

(** ** The direct write loop on a file laid out from the bottom of the pool *)

Lemma tfs_write_direct_region_loop_done fuel inode file d buffer bytes_written :
  tfs_write_direct_region_loop fuel inode file d buffer 0 bytes_written
  = Some (inode, file, d, to_ssize_t bytes_written).
Proof. destruct fuel; reflexivity. Qed.

Lemma write_chunk_aligned j ws :
  0 <= j -> 0 < ws < 2 ^ 64 ->
  write_chunk (BLOCK_SIZE * j) ws
  = (Z.min ws BLOCK_SIZE, ws - Z.min ws BLOCK_SIZE).
Proof.
  intros Hj Hws. unfold write_chunk.
  replace ((BLOCK_SIZE * j) mod BLOCK_SIZE) with 0 by dlia.
  destruct (Z.geb_spec ws BLOCK_SIZE); simpl.
  - rewrite size_sub_small by lia. f_equal; lia.
  - destruct (Z.ltb_spec BLOCK_SIZE ws); [lia|]. f_equal; lia.
Qed.

Lemma tfs_write_direct_region_loop_seq fuel :
  forall j inode file d buffer ws bw,
    0 <= j -> j + Z.of_nat fuel <= REFERENCE_BLOCK_INDEX ->
    i_size inode = BLOCK_SIZE * j -> of_offset file = BLOCK_SIZE * j ->
    0 <= ws <= BLOCK_SIZE * Z.of_nat fuel ->
    0 <= bw -> bw + ws < 2 ^ 63 ->
    pool_prefix d (j + 1) ->
    exists inode' file' d',
      tfs_write_direct_region_loop fuel inode file d buffer ws bw
      = Some (inode', file', d', bw + ws)
      /\ direct_written j ws bw buffer inode file d inode' file' d'.
Proof.
  induction fuel as [|fuel IH];
    intros j inode file d buffer ws bw Hj Hfuel Hsz Hoff Hws Hbw Hsum Hpool.
  - assert (ws = 0) by lia. subst ws.
    exists inode, file, d. split.
    + simpl. rewrite to_ssize_t_small by lia. f_equal. f_equal. lia.
    + constructor; auto; try lia.
      * replace (blocks_for 0) with 0 by reflexivity.
        now replace (j + 1 + 0) with (j + 1) by lia.
      * intros B. replace (blocks_for 0) with 0 by reflexivity. lia.
  - destruct (Z.eq_dec ws 0) as [->|Hpos].
    { exists inode, file, d. split.
      + rewrite tfs_write_direct_region_loop_done.
        rewrite to_ssize_t_small by lia. f_equal. f_equal. lia.
      + constructor; auto; try lia.
        * replace (blocks_for 0) with 0 by reflexivity.
          now replace (j + 1 + 0) with (j + 1) by lia.
        * intros B. replace (blocks_for 0) with 0 by reflexivity. lia. }
    cbn [tfs_write_direct_region_loop].
    destruct (Z.ltb_spec 0 ws) as [_|?]; [|lia]. cbn [negb].
    rewrite Hsz. replace ((BLOCK_SIZE * j) mod BLOCK_SIZE) with 0 by dlia.
    cbn [Z.eqb].
    unfold direct_block_insert.
    rewrite (data_block_alloc_prefix d (j + 1)) by (auto; lia).
    records.
    rewrite data_block_get_addr by lia.
    destruct (Z.eqb_spec (j + 1) (-1)) as [?|_]; [lia|].
    replace (j + 1 - 1) with j by lia.
    destruct (Z.leb_spec 0 j) as [_|?]; [|lia].
    destruct (Z.ltb_spec j I_BLOCK_SIZE) as [_|?]; [|lia].
    cbn [andb Z.eqb]. records.
    rewrite data_block_get_addr by lia.
    rewrite Hoff, write_chunk_aligned by lia.
    replace ((BLOCK_SIZE * j) mod BLOCK_SIZE) with 0 by dlia.
    rewrite Hsz, !size_add_small by lia.
    destruct (Z.le_gt_cases BLOCK_SIZE ws) as [Hfull|Hpart].
    + (* a full block, then the rest *)
      replace (Z.min ws BLOCK_SIZE) with BLOCK_SIZE by lia.
      match goal with
      | |- exists _ _ _, tfs_write_direct_region_loop _ ?ino ?fil ?dd _ _ _ = _ /\ _ =>
          destruct (IH (j + 1) ino fil dd buffer (ws - BLOCK_SIZE)
                       (bw + BLOCK_SIZE))
            as (inode' & file' & d' & Hrun & Hpost)
      end; try (cbn [i_size of_offset]; lia).
      { apply pool_prefix_alloc. exact Hpool. }
      exists inode', file', d'. split.
      * rewrite Hrun. do 2 f_equal. lia.
      * destruct Hpost as [Ps Po Pi Pt Pp Pd Pb Pfill Pl Pk Pz Pw].
        records.
        assert (Hbf : blocks_for ws = 1 + blocks_for (ws - BLOCK_SIZE))
          by (unfold blocks_for; dlia).
        constructor; records; auto; try lia.
        -- rewrite Hbf. now replace (j + 1 + (1 + blocks_for (ws - BLOCK_SIZE)))
             with (j + 1 + 1 + blocks_for (ws - BLOCK_SIZE)) by lia.
        -- intros i Hi.
           destruct (Z.lt_ge_cases i BLOCK_SIZE) as [Hfirst|Hlater].
           ++ rewrite Pl by (unfold direct_addr, block_addr; dlia).
              rewrite memcpy_inside by (unfold direct_addr, block_addr; dlia).
              unfold ptr_add. f_equal. unfold direct_addr, block_addr. dlia.
           ++ replace (BLOCK_SIZE * j + i)
                with (BLOCK_SIZE * (j + 1) + (i - BLOCK_SIZE)) by lia.
              rewrite Pb by lia. f_equal. lia.
        -- intros B HB. apply Pfill. lia.
        -- intros a Ha.
           rewrite Pl by (unfold block_addr in *; lia).
           rewrite memcpy_outside by (unfold block_addr in *; lia).
           rewrite memset_outside by (unfold block_addr in *; lia).
           reflexivity.
        -- intros k Hk.
           assert (0 <= blocks_for (ws - BLOCK_SIZE)) by (unfold blocks_for; dlia).
           rewrite Pk by lia. apply upd_neq. lia.
        -- intros _. destruct (Z.eq_dec ws BLOCK_SIZE) as [->|Hmore].
           ++ rewrite Pz by lia. cbn [i_data_block].
              unfold blocks_for. dlia.
           ++ rewrite Pw by lia. lia.
    + (* the last, partial block *)
      replace (Z.min ws BLOCK_SIZE) with ws by lia.
      replace (ws - ws) with 0 by lia.
      rewrite tfs_write_direct_region_loop_done.
      rewrite to_ssize_t_small by lia.
      eexists _, _, _. split; [reflexivity|].
      assert (Hbf : blocks_for ws = 1) by (unfold blocks_for; dlia).
      constructor; records; auto; try lia.
      * rewrite Hbf. apply pool_prefix_alloc. exact Hpool.
      * intros i Hi.
        rewrite memcpy_inside by (unfold direct_addr, block_addr; dlia).
        unfold ptr_add. f_equal. unfold direct_addr, block_addr. dlia.
      * intros B HB.
        rewrite memcpy_outside by (unfold direct_addr, block_addr; dlia).
        rewrite memset_inside by (unfold direct_addr, block_addr; dlia).
        reflexivity.
      * intros a Ha.
        rewrite memcpy_outside by (unfold block_addr in *; lia).
        rewrite memset_outside by (unfold block_addr in *; lia).
        reflexivity.
      * intros k Hk. apply upd_neq. lia.
Qed.

(** ** The read loops *)

Lemma read_chunk_spec off to_read :
  0 <= to_read < 2 ^ 63 ->
  read_chunk (off mod BLOCK_SIZE) to_read
  = (Z.min to_read (BLOCK_SIZE - off mod BLOCK_SIZE),
     to_read - Z.min to_read (BLOCK_SIZE - off mod BLOCK_SIZE)).
Proof.
  intros H. unfold read_chunk.
  rewrite size_add_small by dlia.
  destruct (Z.gtb_spec (to_read + off mod BLOCK_SIZE) BLOCK_SIZE).
  - rewrite size_sub_small by dlia. f_equal; lia.
  - f_equal; lia.
Qed.

(** The direct read copies byte [B] of the file from [direct_addr B],
    whatever the inode of the file says. *)
Lemma tfs_read_direct_region_loop_spec fuel :
  forall m file to_read buffer tr,
    0 <= of_offset file ->
    of_offset file + to_read <= MAX_BYTES_DIRECT_DATA ->
    0 <= to_read <= Z.of_nat fuel ->
    0 <= tr -> tr + to_read < 2 ^ 63 ->
    exists file' buffer',
      tfs_read_direct_region_loop fuel m file to_read buffer tr
      = Some (file', buffer', tr + to_read)
      /\ of_offset file' = of_offset file + to_read
      /\ of_inumber file' = of_inumber file
      /\ (forall i, 0 <= i < to_read ->
            buffer' (tr + i) = m (direct_addr (of_offset file + i)))
      /\ (forall x, x < tr \/ tr + to_read <= x -> buffer' x = buffer x).
Proof.
  induction fuel as [|fuel IH]; intros m file to_read buffer tr Hoff Hend Hrd Htr Hsum.
  - assert (to_read = 0) by lia. subst to_read.
    exists file, buffer. simpl.
    rewrite to_ssize_t_small by lia.
    repeat split; try lia; auto. do 2 f_equal; lia.
  - destruct (Z.eq_dec to_read 0) as [->|Hpos].
    { exists file, buffer. simpl.
      rewrite to_ssize_t_small by lia.
      repeat split; try lia; auto. do 2 f_equal; lia. }
    cbn [tfs_read_direct_region_loop].
    rewrite size_add_small by dlia.
    destruct (Z.ltb_spec 0 to_read) as [_|?]; [|lia].
    destruct (Z.leb_spec (of_offset file / BLOCK_SIZE + 1) MAX_DIRECT_BLOCKS)
      as [_|?]; [|dlia].
    cbn [andb negb].
    rewrite to_int_small by dlia.
    rewrite data_block_get_addr by dlia.
    rewrite read_chunk_spec by lia.
    set (chunk := Z.min to_read (BLOCK_SIZE - of_offset file mod BLOCK_SIZE)).
    assert (Hchunk : 0 < chunk <= to_read
                     /\ chunk <= BLOCK_SIZE - of_offset file mod BLOCK_SIZE)
      by (subst chunk; dlia).
    destruct (Z.ltb_spec BLOCK_SIZE (of_offset file mod BLOCK_SIZE + chunk))
      as [?|_]; [lia|].
    rewrite !size_add_small by lia.
    match goal with
    | |- exists _ _, tfs_read_direct_region_loop _ _ ?fil _ ?buf _ = _ /\ _ =>
        destruct (IH m fil (to_read - chunk) buf (tr + chunk))
          as (file' & buffer' & Hrun & Ho & Hi & Hb & Hf)
    end; try (cbn [of_offset set_of_offset]; lia).
    unfold set_of_offset in *; cbn [of_offset of_inumber] in *.
    exists file', buffer'. split; [rewrite Hrun; do 2 f_equal; lia|].
    split; [lia|]. split; [assumption|]. split.
    + intros i Hi'.
      destruct (Z.lt_ge_cases i chunk) as [Hfirst|Hlater].
      * rewrite Hf by lia. rewrite memcpy_inside by lia.
        unfold ptr_add, direct_addr. f_equal.
        unfold block_addr. dlia.
      * replace (tr + i) with (tr + chunk + (i - chunk)) by lia.
        rewrite Hb by lia. do 2 f_equal. lia.
    + intros x Hx. rewrite Hf by lia. apply memcpy_outside. lia.
Qed.

(** The indirect read copies byte [B] from [indirect_addr B]. *)
Lemma tfs_read_indirect_region_loop_spec fuel :
  forall m file to_read buffer tr,
    0 <= of_offset file ->
    of_offset file + to_read <= MAX_BYTES ->
    0 <= to_read <= Z.of_nat fuel ->
    0 <= tr -> tr + to_read < 2 ^ 63 ->
    exists file' buffer',
      tfs_read_indirect_region_loop fuel m file to_read buffer tr
      = Some (file', buffer', tr + to_read)
      /\ of_offset file' = of_offset file + to_read
      /\ of_inumber file' = of_inumber file
      /\ (forall i, 0 <= i < to_read ->
            buffer' (tr + i) = m (indirect_addr (of_offset file + i)))
      /\ (forall x, x < tr \/ tr + to_read <= x -> buffer' x = buffer x).
Proof.
  induction fuel as [|fuel IH]; intros m file to_read buffer tr Hoff Hend Hrd Htr Hsum.
  - assert (to_read = 0) by lia. subst to_read.
    exists file, buffer. simpl.
    rewrite to_ssize_t_small by lia.
    repeat split; try lia; auto. do 2 f_equal; lia.
  - destruct (Z.eq_dec to_read 0) as [->|Hpos].
    { exists file, buffer. simpl.
      rewrite to_ssize_t_small by lia.
      repeat split; try lia; auto. do 2 f_equal; lia. }
    cbn [tfs_read_indirect_region_loop].
    rewrite size_add_small by dlia.
    destruct (Z.ltb_spec 0 to_read) as [_|?]; [|lia].
    cbn [andb negb].
    rewrite to_int_small by dlia.
    rewrite data_block_get_addr by dlia.
    rewrite read_chunk_spec by lia.
    set (chunk := Z.min to_read (BLOCK_SIZE - of_offset file mod BLOCK_SIZE)).
    assert (Hchunk : 0 < chunk <= to_read
                     /\ chunk <= BLOCK_SIZE - of_offset file mod BLOCK_SIZE)
      by (subst chunk; dlia).
    destruct (Z.ltb_spec BLOCK_SIZE (of_offset file mod BLOCK_SIZE + chunk))
      as [?|_]; [lia|].
    rewrite !size_add_small by lia.
    match goal with
    | |- exists _ _, tfs_read_indirect_region_loop _ _ ?fil _ ?buf _ = _ /\ _ =>
        destruct (IH m fil (to_read - chunk) buf (tr + chunk))
          as (file' & buffer' & Hrun & Ho & Hi & Hb & Hf)
    end; try (cbn [of_offset set_of_offset]; lia).
    unfold set_of_offset in *; cbn [of_offset of_inumber] in *.
    exists file', buffer'. split; [rewrite Hrun; do 2 f_equal; lia|].
    split; [lia|]. split; [assumption|]. split.
    + intros i Hi'.
      destruct (Z.lt_ge_cases i chunk) as [Hfirst|Hlater].
      * rewrite Hf by lia. rewrite memcpy_inside by lia.
        unfold ptr_add, indirect_addr. f_equal.
        unfold block_addr. dlia.
      * replace (tr + i) with (tr + chunk + (i - chunk)) by lia.
        rewrite Hb by lia. do 2 f_equal. lia.
    + intros x Hx. rewrite Hf by lia. apply memcpy_outside. lia.
Qed.

(** ** What [tfs_read] returns *)

Lemma tfs_read_spec :
  forall (s : tfs) (fhandle len : Z) (buffer : buffer_t),
    0 <= fhandle < MAX_OPEN_FILES ->
    0 <= of_inumber (entry_of s fhandle) < INODE_TABLE_SIZE ->
    0 <= of_offset (entry_of s fhandle)
      <= i_size (inode_of s (of_inumber (entry_of s fhandle))) ->
    i_size (inode_of s (of_inumber (entry_of s fhandle))) <= MAX_BYTES ->
    0 < len < 2 ^ 63 ->
    let off := of_offset (entry_of s fhandle) in
    let k := Z.min len (i_size (inode_of s (of_inumber (entry_of s fhandle))) - off) in
    exists file' buffer',
      tfs_read fhandle buffer len s
      = Some (set_open_file s fhandle file', buffer', k)
      /\ of_offset file' = off + k
      /\ of_inumber file' = of_inumber (entry_of s fhandle)
      /\ (forall i, 0 <= i < k ->
            buffer' i = fs_data (data_blocks_s s) (file_addr (off + i)))
      /\ (forall x, x < 0 \/ k <= x -> buffer' x = buffer x).
Proof.
  intros s fhandle len buffer Hh Hi Hoff Hsz Hlen off k.
  unfold tfs_read.
  destruct (Z.eqb_spec len 0) as [?|_]; [lia|].
  rewrite (get_open_file_entry_valid _ Hh).
  fold (entry_of s fhandle).
  rewrite (inode_get_valid _ Hi).
  fold (inode_of s (of_inumber (entry_of s fhandle))).
  set (file := entry_of s fhandle) in *.
  set (sz := i_size (inode_of s (of_inumber file))) in *.
  fold off.
  rewrite size_sub_small by lia.
  assert (Hk : (if sz - off >? len then len else sz - off) = k).
  { subst k. destruct (Z.gtb_spec (sz - off) len); lia. }
  rewrite Hk. clear Hk.
  assert (Hk0 : 0 <= k <= len) by (subst k; lia).
  assert (Hk1 : off + k <= sz) by (subst k; lia).
  rewrite size_add_small by lia.
  destruct (Z.leb_spec (off + k) MAX_BYTES_DIRECT_DATA) as [Hdir|Hbeyond].
  - (* the range lies in the direct region *)
    unfold tfs_read_direct_region. fold off.
    rewrite size_add_small by lia.
    destruct (Z.leb_spec (off + k) MAX_BYTES_DIRECT_DATA) as [_|?]; [|lia].
    destruct (tfs_read_direct_region_loop_spec (S (Z.to_nat k))
                (fs_data (data_blocks_s s)) file k buffer 0)
      as (file' & buffer' & Hrun & Ho & Hin & Hb & Hf); try lia.
    rewrite Hrun. cbn beta iota. rewrite Z.add_0_l.
    destruct (Z.eqb_spec k (-1)) as [?|_]; [lia|].
    rewrite to_size_t_small, to_ssize_t_small by lia.
    exists file', buffer'. repeat split; auto.
    + intros i Hi'. rewrite <- (Z.add_0_l i) at 1. rewrite Hb by lia.
      unfold file_addr. fold off.
      destruct (Z.ltb_spec (off + i) MAX_BYTES_DIRECT_DATA); [reflexivity|lia].
  - destruct (Z.geb_spec off MAX_BYTES_DIRECT_DATA) as [Hind|Hstraddle].
    + (* the range lies in the indirect region *)
      unfold tfs_read_indirect_region.
      destruct (tfs_read_indirect_region_loop_spec (S (Z.to_nat k))
                  (fs_data (data_blocks_s s)) file k buffer 0)
        as (file' & buffer' & Hrun & Ho & Hin & Hb & Hf); try lia.
      rewrite Hrun. cbn beta iota. rewrite Z.add_0_l.
      destruct (Z.eqb_spec k (-1)) as [?|_]; [lia|].
      rewrite to_size_t_small, to_ssize_t_small by lia.
      exists file', buffer'. repeat split; auto.
      intros i Hi'. rewrite <- (Z.add_0_l i) at 1. rewrite Hb by lia.
      unfold file_addr. fold off.
      destruct (Z.ltb_spec (off + i) MAX_BYTES_DIRECT_DATA); [lia|reflexivity].
    + (* the range straddles the boundary *)
      rewrite size_add_small by lia.
      destruct (Z.gtb_spec (k + off) MAX_BYTES_DIRECT_DATA) as [_|?]; [|lia].
      rewrite !size_sub_small by lia.
      set (nd := MAX_BYTES_DIRECT_DATA - off).
      unfold tfs_read_direct_region. fold off.
      rewrite size_add_small by lia.
      destruct (Z.leb_spec (off + nd) MAX_BYTES_DIRECT_DATA) as [_|?];
        [|subst nd; lia].
      destruct (tfs_read_direct_region_loop_spec (S (Z.to_nat nd))
                  (fs_data (data_blocks_s s)) file nd buffer 0)
        as (file1 & buffer1 & Hrun1 & Ho1 & Hin1 & Hb1 & Hf1);
        try (subst nd; lia).
      rewrite Hrun1. cbn beta iota. rewrite Z.add_0_l.
      destruct (Z.eqb_spec nd (-1)) as [?|_]; [subst nd; lia|].
      rewrite (to_size_t_small nd) by (subst nd; lia).
      unfold tfs_read_indirect_region.
      destruct (tfs_read_indirect_region_loop_spec (S (Z.to_nat (k - nd)))
                  (fs_data (data_blocks_s s)) file1 (k - nd)
                  (ptr_add buffer1 nd) 0)
        as (file2 & view2 & Hrun2 & Ho2 & Hin2 & Hb2 & Hf2);
        try (subst nd; lia).
      rewrite Hrun2. cbn beta iota. rewrite Z.add_0_l.
      destruct (Z.eqb_spec (k - nd) (-1)) as [?|_]; [subst nd; lia|].
      rewrite (to_size_t_small (k - nd)) by (subst nd; lia).
      rewrite size_add_small by (subst nd; lia).
      rewrite to_ssize_t_small by (subst nd; lia).
      replace (nd + (k - nd)) with k by lia.
      exists file2, (ptr_add view2 (- nd)). split; [reflexivity|].
      split; [subst nd; fold off in Ho1; lia|].
      split; [congruence|]. split.
      * intros i Hi'. unfold ptr_add.
        destruct (Z.lt_ge_cases i nd) as [Hfirst|Hlater].
        -- rewrite Hf2 by lia. unfold ptr_add.
           replace (nd + (- nd + i)) with (0 + i) by lia.
           rewrite Hb1 by lia. unfold file_addr. fold off.
           destruct (Z.ltb_spec (off + i) MAX_BYTES_DIRECT_DATA);
             [reflexivity|subst nd; lia].
        -- replace (- nd + i) with (0 + (i - nd)) by lia.
           rewrite Hb2 by lia. rewrite Ho1. fold off.
           replace (off + nd + (i - nd)) with (off + i) by lia.
           unfold file_addr.
           destruct (Z.ltb_spec (off + i) MAX_BYTES_DIRECT_DATA);
             [subst nd; lia|reflexivity].
      * intros x Hx. unfold ptr_add.
        rewrite Hf2 by lia. unfold ptr_add.
        replace (nd + (- nd + x)) with x by lia.
        apply Hf1. subst nd; lia.
Qed.

(** ** The indirect write loop on a file laid out from the bottom of the pool *)

Lemma tfs_write_indirect_region_loop_done fuel inode file d buffer bytes_written :
  tfs_write_indirect_region_loop fuel inode file d buffer 0 bytes_written
  = Some (inode, file, d, to_ssize_t bytes_written).
Proof. destruct fuel; reflexivity. Qed.

Lemma indirect_block_insert_seq inode d k :
  pool_prefix d k -> FIRST_INDIRECT_BLOCK <= k < DATA_BLOCKS ->
  i_block inode MAX_DIRECT_BLOCKS = REFERENCE_BLOCK_INDEX ->
  indirect_block_insert inode d
  = Some (set_i_data_block inode k,
          mk_data_blocks
            (store_int
               (memset (fs_data d) (block_addr k) (-1) (BLOCK_SIZE / INT_SIZE))
               (block_addr REFERENCE_BLOCK_INDEX
                + INT_SIZE * (k - FIRST_INDIRECT_BLOCK)) k)
            (fs_dir d) (upd (free_blocks d) k TAKEN), 0).
Proof.
  intros Hp Hk Href. unfold indirect_block_insert.
  rewrite Href, (data_block_alloc_prefix d k) by (auto; lia).
  destruct (Z.eqb_spec k (-1)) as [?|_]; [lia|].
  rewrite !data_block_get_addr by lia.
  records. unfold fs_data_bytes.
  change (block_addr REFERENCE_BLOCK_INDEX) with 45056.
  destruct (Z.leb_spec 0 (45056 + INT_SIZE * (k - FIRST_INDIRECT_BLOCK)));
    [|lia].
  destruct (Z.leb_spec (45056 + INT_SIZE * (k - FIRST_INDIRECT_BLOCK) + INT_SIZE)
              (BLOCK_SIZE * DATA_BLOCKS * sizeof_allocation_state_t)); [|lia].
  reflexivity.
Qed.

Lemma tfs_write_indirect_region_loop_seq fuel :
  forall j inode file d buffer ws bw,
    MAX_DIRECT_BLOCKS <= j ->
    i_size inode = BLOCK_SIZE * j -> of_offset file = BLOCK_SIZE * j ->
    0 <= ws <= BLOCK_SIZE * Z.of_nat fuel ->
    BLOCK_SIZE * j + ws <= MAX_BYTES ->
    0 <= bw -> bw + ws < 2 ^ 63 ->
    pool_prefix d (j + 2) ->
    i_block inode MAX_DIRECT_BLOCKS = REFERENCE_BLOCK_INDEX ->
    exists inode' file' d',
      tfs_write_indirect_region_loop fuel inode file d buffer ws bw
      = Some (inode', file', d', bw + ws)
      /\ indirect_written j ws bw buffer inode file d inode' file' d'.
Proof.
  induction fuel as [|fuel IH];
    intros j inode file d buffer ws bw Hj Hsz Hoff Hws Hmax Hbw Hsum Hpool Href.
  - assert (ws = 0) by lia. subst ws.
    exists inode, file, d. split.
    + simpl. rewrite to_ssize_t_small by lia. do 2 f_equal. lia.
    + constructor; auto; try lia.
      replace (blocks_for 0) with 0 by reflexivity.
      now replace (j + 2 + 0) with (j + 2) by lia.
  - destruct (Z.eq_dec ws 0) as [->|Hpos].
    { exists inode, file, d. split.
      + rewrite tfs_write_indirect_region_loop_done.
        rewrite to_ssize_t_small by lia. do 2 f_equal. lia.
      + constructor; auto; try lia.
        replace (blocks_for 0) with 0 by reflexivity.
        now replace (j + 2 + 0) with (j + 2) by lia. }
    cbn [tfs_write_indirect_region_loop].
    destruct (Z.ltb_spec 0 ws) as [_|?]; [|lia]. cbn [negb].
    rewrite Hsz. rewrite size_add_small by lia.
    destruct (Z.gtb_spec (BLOCK_SIZE * j + ws) MAX_BYTES) as [?|_]; [lia|].
    replace ((BLOCK_SIZE * j) mod BLOCK_SIZE) with 0 by dlia.
    cbn [Z.eqb].
    rewrite (indirect_block_insert_seq inode d (j + 2)) by (auto; lia).
    cbn [Z.eqb]. records.
    rewrite data_block_get_addr by lia.
    rewrite Hoff, write_chunk_aligned by lia.
    replace ((BLOCK_SIZE * j) mod BLOCK_SIZE) with 0 by dlia.
    rewrite Hsz, !size_add_small by lia.
    change (BLOCK_SIZE / INT_SIZE) with 256.
    assert (Hrefaddr :
      forall a, ~ in_reference_block a ->
        a < block_addr REFERENCE_BLOCK_INDEX
            + INT_SIZE * (j + 2 - FIRST_INDIRECT_BLOCK)
        \/ block_addr REFERENCE_BLOCK_INDEX
           + INT_SIZE * (j + 2 - FIRST_INDIRECT_BLOCK) + INT_SIZE <= a).
    { intros a Ha. unfold in_reference_block, block_addr in *. lia. }
    destruct (Z.le_gt_cases BLOCK_SIZE ws) as [Hfull|Hpart].
    + replace (Z.min ws BLOCK_SIZE) with BLOCK_SIZE by lia.
      match goal with
      | |- exists _ _ _, tfs_write_indirect_region_loop _ ?ino ?fil ?dd _ _ _ = _ /\ _ =>
          destruct (IH (j + 1) ino fil dd buffer (ws - BLOCK_SIZE)
                       (bw + BLOCK_SIZE))
            as (inode' & file' & d' & Hrun & Hpost)
      end; try (cbn [i_size of_offset i_block]; lia).
      { replace (j + 1 + 2) with (j + 2 + 1) by lia.
        apply pool_prefix_alloc. exact Hpool. }
      exists inode', file', d'. split.
      * rewrite Hrun. do 2 f_equal. lia.
      * destruct Hpost as [Ps Po Pi Pt Pp Pd Pb Pl Pk Pz Pw].
        records.
        assert (Hbf : blocks_for ws = 1 + blocks_for (ws - BLOCK_SIZE))
          by (unfold blocks_for; dlia).
        constructor; records; auto; try lia.
        -- rewrite Hbf.
           now replace (j + 2 + (1 + blocks_for (ws - BLOCK_SIZE)))
             with (j + 1 + 2 + blocks_for (ws - BLOCK_SIZE)) by lia.
        -- intros i Hi.
           destruct (Z.lt_ge_cases i BLOCK_SIZE) as [Hfirst|Hlater].
           ++ rewrite Pl.
              ** rewrite memcpy_inside
                   by (unfold indirect_addr, block_addr; dlia).
                 unfold ptr_add. f_equal.
                 unfold indirect_addr, block_addr. dlia.
              ** unfold indirect_addr, block_addr. dlia.
              ** unfold in_reference_block, indirect_addr, block_addr. dlia.
           ++ replace (BLOCK_SIZE * j + i)
                with (BLOCK_SIZE * (j + 1) + (i - BLOCK_SIZE)) by lia.
              rewrite Pb by lia. f_equal. lia.
        -- intros a Ha Hnr.
           rewrite Pl by (auto; unfold block_addr in *; lia).
           rewrite memcpy_outside by (unfold block_addr in *; lia).
           rewrite store_int_outside by (apply Hrefaddr; exact Hnr).
           rewrite memset_outside by (unfold block_addr in *; lia).
           reflexivity.
        -- intros _. destruct (Z.eq_dec ws BLOCK_SIZE) as [->|Hmore].
           ++ rewrite Pz by lia. cbn [i_data_block].
              unfold blocks_for. dlia.
           ++ rewrite Pw by lia. lia.
    + replace (Z.min ws BLOCK_SIZE) with ws by lia.
      replace (ws - ws) with 0 by lia.
      rewrite tfs_write_indirect_region_loop_done.
      rewrite to_ssize_t_small by lia.
      eexists _, _, _. split; [reflexivity|].
      assert (Hbf : blocks_for ws = 1) by (unfold blocks_for; dlia).
      constructor; records; auto; try lia.
      * rewrite Hbf. apply pool_prefix_alloc. exact Hpool.
      * intros i Hi.
        rewrite memcpy_inside by (unfold indirect_addr, block_addr; dlia).
        unfold ptr_add. f_equal. unfold indirect_addr, block_addr. dlia.
      * intros a Ha Hnr.
        rewrite memcpy_outside by (unfold block_addr in *; lia).
        rewrite store_int_outside by (apply Hrefaddr; exact Hnr).
        rewrite memset_outside by (unfold block_addr in *; lia).
        reflexivity.
Qed.

Lemma tfs_handle_indirect_block_seq inode d k :
  pool_prefix d k -> 0 <= k < DATA_BLOCKS ->
  tfs_handle_indirect_block inode d
  = Some (mk_inode (i_node_type inode) (i_size inode) k
            (upd (i_block inode) MAX_DIRECT_BLOCKS k),
          mk_data_blocks (memset (fs_data d) (block_addr k) (-1) sizeof_pointer)
            (fs_dir d) (upd (free_blocks d) k TAKEN), 0).
Proof.
  intros Hp Hk. unfold tfs_handle_indirect_block.
  rewrite (data_block_alloc_prefix d k) by (auto; lia).
  destruct (Z.eqb_spec k (-1)) as [?|_]; [lia|].
  records. now rewrite data_block_get_addr by lia.
Qed.

(** ** Writing a new file into an otherwise empty pool *)

Lemma open_file_entry_eta file inum off :
  of_inumber file = inum -> of_offset file = off ->
  file = mk_open_file_entry inum off.
Proof. destruct file; simpl; congruence. Qed.

Lemma commit_entry s ip fp inode file d : entry_of (commit s ip fp inode file d) fp = file.
Proof. unfold entry_of, commit, set_open_file; simpl. apply upd_eq. Qed.

Lemma commit_inode s ip fp inode file d : inode_of (commit s ip fp inode file d) ip = inode.
Proof. unfold inode_of, commit, set_open_file, set_inode; simpl. apply upd_eq. Qed.

Lemma commit_frame s ip fp inode file d :
  data_blocks_s (commit s ip fp inode file d) = d
  /\ (forall i, i <> ip -> inode_of (commit s ip fp inode file d) i = inode_of s i)
  /\ freeinode_ts (inode_table_s (commit s ip fp inode file d))
     = freeinode_ts (inode_table_s s)
  /\ (forall h, h <> fp -> entry_of (commit s ip fp inode file d) h = entry_of s h)
  /\ free_open_file_entries (fs_state_s (commit s ip fp inode file d))
     = free_open_file_entries (fs_state_s s).
Proof.
  unfold inode_of, entry_of, commit, set_open_file, set_inode; simpl.
  repeat split; auto; intros; now apply upd_neq.
Qed.

Lemma tfs_write_fresh :
  forall (s : tfs) (fh inum n : Z) (buf : buffer_t),
    fresh_file s fh inum ->
    0 < n <= MAX_BYTES ->
    exists s',
      tfs_write fh buf n s = Some (s', n)
      /\ file_written s s' fh inum n buf.
Proof.
  intros s fh inum n buf [Hfh Hinum Hent Hsz Href Hpool] Hn.
  unfold tfs_write.
  destruct (Z.eqb_spec n 0) as [?|_]; [lia|].
  rewrite (get_open_file_entry_valid _ Hfh).
  fold (entry_of s fh). rewrite Hent. cbn [of_inumber].
  rewrite (inode_get_valid _ Hinum).
  fold (inode_of s inum). rewrite Hsz.
  rewrite size_add_small by lia. rewrite Z.add_0_l.
  destruct (Z.leb_spec n MAX_BYTES_DIRECT_DATA) as [Hdir|Hbig].
  - (* everything fits into the direct region *)
    unfold tfs_write_direct_region.
    destruct (tfs_write_direct_region_loop_seq (Z.to_nat REFERENCE_BLOCK_INDEX)
                0 (inode_of s inum) (mk_open_file_entry inum 0)
                (data_blocks_s s) buf n 0)
      as (inode' & file' & d' & Hrun & Hpost); try (cbn [of_offset]; lia); auto.
    rewrite Hrun. cbn beta iota. rewrite Z.add_0_l.
    destruct (Z.eqb_spec n (-1)) as [?|_]; [lia|].
    rewrite to_size_t_small, to_ssize_t_small by lia.
    eexists. split; [reflexivity|].
    destruct Hpost as [Ps Po Pi Pt Pp Pd Pb Pfill Pl Pk Pz Pw].
    destruct (commit_frame s inum fh inode' file' d') as (Cd & Ci & Cf & Ce & Cfe).
    constructor; rewrite ?commit_entry, ?commit_inode, ?Cd; auto; try lia.
    + apply open_file_entry_eta; cbn [of_inumber of_offset] in *; lia.
    + intros B HB. unfold file_addr.
      destruct (Z.ltb_spec B MAX_BYTES_DIRECT_DATA); [|lia].
      replace B with (BLOCK_SIZE * 0 + B) at 1 by lia.
      rewrite Pb by lia. f_equal.
    + destruct (Z.ltb_spec MAX_BYTES_DIRECT_DATA n); [lia|].
      now replace (1 + blocks_for n + 0) with (0 + 1 + blocks_for n) by lia.
  - (* the write straddles the boundary of the direct region *)
    destruct (Z.geb_spec 0 MAX_BYTES_DIRECT_DATA) as [?|_]; [lia|].
    rewrite !size_sub_small by lia. rewrite Z.sub_0_r.
    unfold tfs_write_direct_region.
    destruct (tfs_write_direct_region_loop_seq (Z.to_nat REFERENCE_BLOCK_INDEX)
                0 (inode_of s inum) (mk_open_file_entry inum 0)
                (data_blocks_s s) buf MAX_BYTES_DIRECT_DATA 0)
      as (inode1 & file1 & d1 & Hrun1 & Hpost1); try (cbn [of_offset]; lia); auto.
    rewrite Hrun1. cbn beta iota.
    destruct Hpost1 as [Ps Po Pi Pt Pp Pd Pb Pfill Pl Pk Pz Pw].
    change (0 + 1 + blocks_for MAX_BYTES_DIRECT_DATA) with 11 in Pp.
    change (0 + blocks_for MAX_BYTES_DIRECT_DATA) with 10 in Pk, Pw.
    rewrite (Pk MAX_DIRECT_BLOCKS) by lia. rewrite Href.
    change (-1 =? -1) with true. cbn beta iota.
    rewrite (tfs_handle_indirect_block_seq inode1 d1 REFERENCE_BLOCK_INDEX)
      by (auto; lia).
    rewrite Z.add_0_l.
    change (MAX_BYTES_DIRECT_DATA =? -1) with false. cbn beta iota.
    unfold tfs_write_indirect_region.
    match goal with
    | |- context [tfs_write_indirect_region_loop ?f ?ino ?fil ?dd ?b ?w 0] =>
        destruct (tfs_write_indirect_region_loop_seq f MAX_DIRECT_BLOCKS
                    ino fil dd b w 0)
          as (inode3 & file3 & d3 & Hrun3 & Hpost3)
    end; try (records; lia).
    { apply (pool_prefix_alloc d1 REFERENCE_BLOCK_INDEX). exact Pp. }
    { records. apply upd_eq. }
    rewrite Hrun3. cbn beta iota. rewrite Z.add_0_l.
    destruct (Z.eqb_spec (n - MAX_BYTES_DIRECT_DATA) (-1)) as [?|_]; [lia|].
    rewrite to_size_t_small, to_ssize_t_small by lia.
    replace (MAX_BYTES_DIRECT_DATA + (n - MAX_BYTES_DIRECT_DATA)) with n by lia.
    eexists. split; [reflexivity|].
    destruct Hpost3 as [Qs Qo Qi Qt Qp Qd Qb Ql Qk Qz Qw].
    records.
    destruct (commit_frame s inum fh inode3 file3 d3) as (Cd & Ci & Cf & Ce & Cfe).
    constructor; rewrite ?commit_entry, ?commit_inode, ?Cd; auto; try lia.
    + apply open_file_entry_eta; cbn [of_inumber of_offset] in *; lia.
    + congruence.
    + intros B HB. unfold file_addr.
      destruct (Z.ltb_spec B MAX_BYTES_DIRECT_DATA) as [Hlow|Hhigh].
      * rewrite Ql.
        -- rewrite memset_outside by (unfold direct_addr, block_addr; dlia).
           replace B with (BLOCK_SIZE * 0 + B) at 1 by lia.
           rewrite Pb by lia. f_equal.
        -- unfold direct_addr, block_addr; dlia.
        -- unfold in_reference_block, direct_addr, block_addr; dlia.
      * replace B with (BLOCK_SIZE * MAX_DIRECT_BLOCKS
                        + (B - MAX_BYTES_DIRECT_DATA)) at 1 by lia.
        rewrite Qb by lia. unfold ptr_add. f_equal. lia.
    + destruct (Z.ltb_spec MAX_BYTES_DIRECT_DATA n); [|lia].
      replace (1 + blocks_for n + 1)
        with (MAX_DIRECT_BLOCKS + 2 + blocks_for (n - MAX_BYTES_DIRECT_DATA))
        by (unfold blocks_for; dlia).
      exact Qp.
    + congruence.
    + intros _. rewrite Qk. apply upd_eq.
Qed.

(** ** Names in the root directory *)

Lemma string_take_all n (t : string) :
  (String.length t <= n)%nat -> string_take n t = t.
Proof.
  revert t. induction n as [|n IH]; intros [|c t] Hlen; simpl in *;
    try reflexivity; try lia.
  f_equal. apply IH. lia.
Qed.

Lemma strncmp_stored_name (t : string) :
  strlen t <= MAX_FILE_NAME - 1 ->
  strncmp_eq (strncpy_name t) t MAX_FILE_NAME = true.
Proof.
  intros Hlen. unfold strncmp_eq, strncpy_name, strlen in *.
  rewrite (string_take_all (Z.to_nat (MAX_FILE_NAME - 1))) by lia.
  apply String.eqb_refl.
Qed.

Lemma valid_pathname_inv name :
  valid_pathname name = true ->
  exists c t, name = Some (String c t) /\ 0 < strlen t /\ skip_char name = t.
Proof.
  destruct name as [[|c t]|]; simpl; try discriminate.
  intros H. exists c, t. repeat split.
  apply andb_prop in H. destruct H as [H _].
  apply Z.ltb_lt in H. unfold strlen in *.
  change (String.length (String c t)) with (S (String.length t)) in H. lia.
Qed.

Lemma tfs_lookup_has_file s name inum :
  valid_pathname name = true ->
  strlen (skip_char name) <= MAX_FILE_NAME - 1 ->
  has_file s (skip_char name) inum ->
  inum <> -1 ->
  tfs_lookup name s = inum.
Proof.
  intros Hvalid Hlen [Ht Hb He] Hne.
  unfold tfs_lookup. rewrite Hvalid. cbn [negb].
  unfold find_in_dir. cbn [valid_inumber Z.leb Z.ltb Z.compare andb negb orb].
  fold (inode_of s ROOT_DIR_INUM). rewrite Ht, Hb.
  cbn [inode_type_eqb negb orb].
  change (data_block_get 0) with (Some 0).
  change (Z.to_nat MAX_DIR_ENTRIES) with 7%nat.
  cbn [find_in_dir_loop].
  rewrite He. cbn [d_inumber d_name].
  rewrite strncmp_stored_name by assumption.
  destruct (Z.eqb_spec inum (-1)); [contradiction|reflexivity].
Qed.

(** ** The state after [tfs_init] and the creation of the first file *)

Lemma tfs_init_ok s0 : snd (tfs_init s0) = 0.
Proof. reflexivity. Qed.

Lemma tfs_init_pool s0 : pool_prefix (data_blocks_s (fst (tfs_init s0))) 1.
Proof.
  intros b Hb.
  change (free_blocks (data_blocks_s (fst (tfs_init s0))))
    with (upd (fill (free_blocks (data_blocks_s s0)) 0 DATA_BLOCKS FREE) 0 TAKEN).
  unfold upd, fill.
  destruct (Z.eqb_spec b 0), (Z.ltb_spec b 1), (Z.leb_spec 0 b),
    (Z.ltb_spec b DATA_BLOCKS); simpl; try reflexivity; lia.
Qed.

Lemma tfs_open_create_first s0 name :
  valid_pathname name = true ->
  snd (tfs_open name TFS_O_CREAT (fst (tfs_init s0))) = 0
  /\ fresh_file (created s0 name) 0 1
  /\ has_file (created s0 name) (skip_char name) 1
  /\ free_open_file_entries (fs_state_s (created s0 name)) 0 = TAKEN.
Proof.
  intros Hvalid. unfold created.
  destruct (valid_pathname_inv _ Hvalid) as (c & t & -> & Hlen & Hskip).
  simpl in Hskip. 
  unfold tfs_open. rewrite Hvalid. cbn [negb].
  assert (Hlook : tfs_lookup (Some (String c t)) (fst (tfs_init s0)) = -1).
  { unfold tfs_lookup. rewrite Hvalid. reflexivity. }
  rewrite Hlook.
  change (0 <=? -1) with false. cbv iota.
  change (flag_set TFS_O_CREAT TFS_O_CREAT) with true. cbv iota.
  change (inode_create T_FILE (fst (tfs_init s0)))
    with (set_inode (set_freeinode (fst (tfs_init s0)) 1 TAKEN) 1
            (mk_inode T_FILE 0 (-1) (fun _ => -1)), 1).
  cbv iota beta. change (1 =? -1) with false. cbv iota.
  unfold add_dir_entry.
  cbn [valid_inumber Z.leb Z.ltb Z.compare Pos.compare Pos.compare_cont
       andb negb orb skip_char].
  destruct (Z.eqb_spec (strlen t) 0) as [?|_]; [lia|].
  change (negb (inode_type_eqb T_DIRECTORY T_DIRECTORY)) with false.
  split; [reflexivity|].
  split; [|split].
  - constructor; try lia; try reflexivity.
    apply pool_prefix_data with (m := fs_data (data_blocks_s (fst (tfs_init s0)))).
    intros b Hb. apply (tfs_init_pool s0 b Hb).
  - constructor; reflexivity.
  - reflexivity.
Qed.

(** ** The read-after-write round trip *)

Lemma tfs_close_taken s fh :
  0 <= fh < MAX_OPEN_FILES ->
  free_open_file_entries (fs_state_s s) fh = TAKEN ->
  tfs_close fh s
  = (set_fs_state s
       (mk_fs_state (open_file_table (fs_state_s s))
          (upd (free_open_file_entries (fs_state_s s)) fh FREE)), 0).
Proof.
  intros Hfh Htaken. unfold tfs_close, remove_from_open_file_table.
  rewrite (proj2 (valid_file_handle_iff fh) Hfh), Htaken. reflexivity.
Qed.

Lemma tfs_open_add_first inum offset s :
  free_open_file_entries (fs_state_s s) 0 = FREE ->
  tfs_open_add inum offset s
  = (set_fs_state s
       (mk_fs_state
          (upd (open_file_table (fs_state_s s)) 0 (mk_open_file_entry inum offset))
          (upd (free_open_file_entries (fs_state_s s)) 0 TAKEN)), 0).
Proof.
  intros Hfree. unfold tfs_open_add, add_to_open_file_table.
  change (Z.to_nat MAX_OPEN_FILES) with 20%nat.
  cbn [add_to_open_file_table_loop]. rewrite Hfree. reflexivity.
Qed.

Lemma round_trip_spec :
  forall (s0 : tfs) (name : option string) (buf dst : buffer_t) (n : Z),
    valid_pathname name = true ->
    strlen (skip_char name) <= MAX_FILE_NAME - 1 ->
    0 < n <= MAX_BYTES ->
    exists dst',
      round_trip s0 name buf n dst = Some (n, n, dst')
      /\ (forall i, 0 <= i < n -> dst' i = buf i)
      /\ (forall x, x < 0 \/ n <= x -> dst' x = dst x).
Proof.
  intros s0 name buf dst n Hvalid Hlen Hn.
  destruct (tfs_open_create_first s0 name Hvalid)
    as (Hfh & Hfresh & Hhas & Htaken).
  destruct (tfs_write_fresh (created s0 name) 0 1 n buf Hfresh Hn)
    as (s3 & Hwrite & Hfw).
  unfold round_trip.
  rewrite (surjective_pairing (tfs_init s0)).
  rewrite (surjective_pairing (tfs_open name TFS_O_CREAT (fst (tfs_init s0)))).
  rewrite Hfh. fold (created s0 name). rewrite Hwrite. cbn beta iota.
  destruct Hfw as [We Ws Wt Wb Wp Wd Wi Wf Wo Wfe Wr].
  destruct Hhas as [Ht Hb He].
  rewrite tfs_close_taken by (try lia; now rewrite Wfe).
  set (s4 := set_fs_state s3 _).
  assert (Hlook : tfs_lookup name s4 = 1).
  { apply tfs_lookup_has_file; auto; [|lia].
    constructor.
    - change (inode_of s4 0) with (inode_of s3 0). rewrite Wi by lia. exact Ht.
    - change (inode_of s4 0) with (inode_of s3 0). rewrite Wi by lia. exact Hb.
    - change (data_blocks_s s4) with (data_blocks_s s3). rewrite Wd. exact He. }
  unfold tfs_open. rewrite Hvalid, Hlook. cbn [negb].
  change (0 <=? 1) with true. cbv iota.
  change (inode_get 1) with (Some 1).
  change (flag_set 0 TFS_O_TRUNC) with false.
  change (flag_set 0 TFS_O_APPEND) with false.
  cbn [andb]. cbv iota.
  rewrite tfs_open_add_first by (subst s4; simpl; apply upd_eq).
  set (s5 := set_fs_state s4 _).
  assert (Hent : entry_of s5 0 = mk_open_file_entry 1 0)
    by (subst s5; unfold entry_of; simpl; apply upd_eq).
  destruct (tfs_read_spec s5 0 n dst) as (file' & dst' & Hread & _ & _ & Hbytes & Hrest);
    rewrite ?Hent; cbn [of_inumber of_offset];
    change (inode_of s5 1) with (inode_of s3 1); rewrite ?Ws; try lia.
  rewrite Hent in Hread, Hbytes, Hrest. cbn [of_inumber of_offset] in *.
  change (inode_of s5 1) with (inode_of s3 1) in *. rewrite Ws in *.
  replace (Z.min n (n - 0)) with n in * by lia.
  rewrite Hread.
  exists dst'. split; [reflexivity|]. split; [|exact Hrest].
  intros i Hi. rewrite Hbytes by lia.
  change (data_blocks_s s5) with (data_blocks_s s3).
  rewrite Z.add_0_l. now apply Wb.
Qed.

(** ** Writing to a file that has reached [MAX_BYTES] *)

Lemma write_chunk_nothing off :
  write_chunk off 0 = (0, 0).
Proof.
  unfold write_chunk.
  destruct (Z.ltb_spec (BLOCK_SIZE - off mod BLOCK_SIZE) 0); [dlia|].
  reflexivity.
Qed.

(** At the limit the indirect loop clips the request to 0 bytes and still
    takes a block from the pool before it finds nothing to copy. *)
Lemma tfs_write_at_limit_leaks :
  forall s fh inum k buf n,
    at_limit s fh inum k ->
    FIRST_INDIRECT_BLOCK <= k < DATA_BLOCKS ->
    0 < n < 2 ^ 63 ->
    exists s',
      tfs_write fh buf n s = Some (s', 0) /\ at_limit s' fh inum (k + 1).
Proof.
  intros s fh inum k buf n [Hfh Hinum Hent Hoff Hsz Href Hpool] Hk Hn.
  unfold tfs_write.
  destruct (Z.eqb_spec n 0) as [?|_]; [lia|].
  rewrite (get_open_file_entry_valid _ Hfh).
  fold (entry_of s fh). rewrite Hent.
  rewrite (inode_get_valid _ Hinum).
  fold (inode_of s inum). rewrite Hsz, Href.
  rewrite size_add_small by lia.
  destruct (Z.leb_spec (MAX_BYTES + n) MAX_BYTES_DIRECT_DATA) as [?|_]; [lia|].
  change (MAX_BYTES >=? MAX_BYTES_DIRECT_DATA) with true.
  change (REFERENCE_BLOCK_INDEX =? -1) with false.
  cbv iota beta.
  unfold tfs_write_indirect_region.
  cbn [tfs_write_indirect_region_loop].
  destruct (Z.ltb_spec 0 n) as [_|?]; [|lia]. cbn [negb].
  rewrite Hsz. rewrite size_add_small by lia.
  destruct (Z.gtb_spec (MAX_BYTES + n) MAX_BYTES) as [_|?]; [|lia].
  change (size_sub MAX_BYTES MAX_BYTES) with 0.
  change (MAX_BYTES mod BLOCK_SIZE =? 0) with true. cbv iota.
  rewrite (indirect_block_insert_seq (inode_of s inum) (data_blocks_s s) k)
    by (auto; lia).
  cbv iota beta. change (0 =? -1) with false. cbv iota. records.
  rewrite data_block_get_addr by lia.
  rewrite write_chunk_nothing.
  rewrite tfs_write_indirect_region_loop_done.
  rewrite Hsz. rewrite !size_add_small by lia.
  change (to_ssize_t (0 + 0)) with 0.
  cbv iota beta. change (0 =? -1) with false.
  change (to_ssize_t (to_size_t 0)) with 0. cbv iota.
  eexists. split; [reflexivity|].
  constructor; rewrite ?commit_entry, ?commit_inode;
    cbn [of_inumber of_offset i_size i_block]; auto; try lia.
  match goal with
  | |- pool_prefix (data_blocks_s (commit _ _ _ _ _ ?d)) _ =>
      change (pool_prefix d (k + 1))
  end.
  apply pool_prefix_alloc. exact Hpool.
Qed.

(** With the pool exhausted the same write fails. *)
Lemma tfs_write_at_limit_fails :
  forall s fh inum k buf n,
    at_limit s fh inum k ->
    DATA_BLOCKS <= k ->
    0 < n < 2 ^ 63 ->
    exists s', tfs_write fh buf n s = Some (s', -1).
Proof.
  intros s fh inum k buf n [Hfh Hinum Hent Hoff Hsz Href Hpool] Hk Hn.
  unfold tfs_write.
  destruct (Z.eqb_spec n 0) as [?|_]; [lia|].
  rewrite (get_open_file_entry_valid _ Hfh).
  fold (entry_of s fh). rewrite Hent.
  rewrite (inode_get_valid _ Hinum).
  fold (inode_of s inum). rewrite Hsz, Href.
  rewrite size_add_small by lia.
  destruct (Z.leb_spec (MAX_BYTES + n) MAX_BYTES_DIRECT_DATA) as [?|_]; [lia|].
  change (MAX_BYTES >=? MAX_BYTES_DIRECT_DATA) with true.
  change (REFERENCE_BLOCK_INDEX =? -1) with false.
  cbv iota beta.
  unfold tfs_write_indirect_region.
  cbn [tfs_write_indirect_region_loop].
  destruct (Z.ltb_spec 0 n) as [_|?]; [|lia]. cbn [negb].
  rewrite Hsz. rewrite size_add_small by lia.
  destruct (Z.gtb_spec (MAX_BYTES + n) MAX_BYTES) as [_|?]; [|lia].
  change (MAX_BYTES mod BLOCK_SIZE =? 0) with true. cbv iota.
  unfold indirect_block_insert.
  rewrite (data_block_alloc_exhausted _ k) by (auto; lia).
  cbv iota beta. change (-1 =? -1) with true. cbv iota beta.
  eexists. reflexivity.
Qed.

Lemma repeat_write_at_limit m :
  forall s fh inum k buf n,
    at_limit s fh inum k ->
    FIRST_INDIRECT_BLOCK <= k -> k + Z.of_nat m <= DATA_BLOCKS ->
    0 < n < 2 ^ 63 ->
    exists s',
      repeat_write m fh buf n s = Some (s', repeat 0 m)
      /\ at_limit s' fh inum (k + Z.of_nat m).
Proof.
  induction m as [|m IH]; intros s fh inum k buf n Hal Hk Hm Hn.
  - exists s. split; [reflexivity|]. now replace (k + Z.of_nat 0) with k by lia.
  - destruct (tfs_write_at_limit_leaks s fh inum k buf n Hal) as (s1 & Hw & Hal1);
      try lia.
    destruct (IH s1 fh inum (k + 1) buf n Hal1) as (s2 & Hr & Hal2); try lia.
    exists s2. split.
    + cbn [repeat_write]. rewrite Hw. cbn beta iota. rewrite Hr. reflexivity.
    + now replace (k + Z.of_nat (S m)) with (k + 1 + Z.of_nat m) by lia.
Qed.

(** C5, at the failing input.  The file is filled to [MAX_BYTES]; each of
    the next 756 one-byte writes returns 0 but takes one more block from
    the pool; the 757th finds the pool empty and returns -1 although
    nothing was to be written. *)
Theorem write_at_limit_runs_out_of_blocks :
  forall s0 : tfs,
    writes_at_limit s0 757 = Some (MAX_BYTES, repeat 0 756 ++ [-1]).
Proof.
  intros s0. unfold writes_at_limit.
  assert (Hvalid : valid_pathname (Some "/a"%string) = true) by reflexivity.
  destruct (tfs_open_create_first s0 _ Hvalid) as (Hfh & Hfresh & _ & _).
  unfold created in Hfresh.
  destruct (tfs_init s0) as [s1 r0]. cbn [fst snd] in Hfh, Hfresh.
  destruct (tfs_open (Some "/a"%string) TFS_O_CREAT s1) as [s2 fh].
  cbn [fst snd] in Hfh, Hfresh. subst fh.
  destruct (tfs_write_fresh s2 0 1 MAX_BYTES xs Hfresh) as (s3 & Hw & Hfw);
    [lia|].
  rewrite Hw. cbn beta iota.
  assert (Hal : at_limit s3 0 1 268).
  { destruct Hfw as [We Ws Wt Wb Wp Wd Wi Wf Wo Wfe Wfill Wr].
    constructor; try lia; try (rewrite We; cbn; lia); auto. }
  destruct (repeat_write_at_limit 756 s3 0 1 268 xs 1 Hal) as (s4 & Hr & Hal4);
    try lia.
  destruct (tfs_write_at_limit_fails s4 0 1 _ xs 1 Hal4) as (s5 & Hlast);
    try lia.
  change 757%nat with (756 + 1)%nat.
  assert (Hsplit : forall a b s,
            repeat_write (a + b) 0 xs 1 s
            = ' (s1, r1) <- repeat_write a 0 xs 1 s ;;
              ' (s2, r2) <- repeat_write b 0 xs 1 s1 ;;
              Some (s2, r1 ++ r2)).
  { induction a as [|a IHa]; intros b s; cbn [repeat_write Nat.add].
    - destruct (repeat_write b 0 xs 1 s) as [[? ?]|]; reflexivity.
    - destruct (tfs_write 0 xs 1 s) as [[t1 r]|]; [|reflexivity].
      cbn beta iota. rewrite IHa.
      destruct (repeat_write a 0 xs 1 t1) as [[t2 r1]|]; [|reflexivity].
      cbn beta iota.
      destruct (repeat_write b 0 xs 1 t2) as [[? ?]|]; reflexivity. }
  rewrite Hsplit, Hr. cbn beta iota. cbn [repeat_write]. rewrite Hlast.
  reflexivity.
Qed.

(** ** C1: the round trip *)

(** The first pass of the indirect loop clips [write_size] to what is
    left below [MAX_BYTES]: a write that would pass the limit runs as the
    write up to the limit. *)
Lemma tfs_write_indirect_region_loop_clip fuel inode file d buffer ws bw :
  0 <= i_size inode < MAX_BYTES ->
  MAX_BYTES < i_size inode + ws < 2 ^ 64 ->
  tfs_write_indirect_region_loop (S fuel) inode file d buffer ws bw
  = tfs_write_indirect_region_loop (S fuel) inode file d buffer
      (MAX_BYTES - i_size inode) bw.
Proof.
  intros Hsz Hws. cbn [tfs_write_indirect_region_loop].
  destruct (Z.ltb_spec 0 ws) as [_|?]; [|lia].
  destruct (Z.ltb_spec 0 (MAX_BYTES - i_size inode)) as [_|?]; [|lia].
  cbn [negb].
  rewrite !size_add_small by lia.
  rewrite size_sub_small by lia.
  destruct (Z.gtb_spec (i_size inode + ws) MAX_BYTES) as [_|?]; [|lia].
  destruct (Z.gtb_spec (i_size inode + (MAX_BYTES - i_size inode)) MAX_BYTES)
    as [?|_]; [lia|].
  reflexivity.
Qed.

(** Writing more than [MAX_BYTES] bytes to a new file stores the first
    [MAX_BYTES] of them and returns [MAX_BYTES]. *)
Lemma tfs_write_fresh_clipped :
  forall (s : tfs) (fh inum n : Z) (buf : buffer_t),
    fresh_file s fh inum ->
    MAX_BYTES < n < 2 ^ 63 ->
    exists s',
      tfs_write fh buf n s = Some (s', MAX_BYTES)
      /\ file_written s s' fh inum MAX_BYTES buf.
Proof.
  intros s fh inum n buf [Hfh Hinum Hent Hsz Href Hpool] Hn.
  unfold tfs_write.
  destruct (Z.eqb_spec n 0) as [?|_]; [lia|].
  rewrite (get_open_file_entry_valid _ Hfh).
  fold (entry_of s fh). rewrite Hent. cbn [of_inumber].
  rewrite (inode_get_valid _ Hinum).
  fold (inode_of s inum). rewrite Hsz.
  rewrite size_add_small by lia. rewrite Z.add_0_l.
  destruct (Z.leb_spec n MAX_BYTES_DIRECT_DATA) as [?|_]; [lia|].
  destruct (Z.geb_spec 0 MAX_BYTES_DIRECT_DATA) as [?|_]; [lia|].
  rewrite !size_sub_small by lia. rewrite Z.sub_0_r.
  unfold tfs_write_direct_region.
  destruct (tfs_write_direct_region_loop_seq (Z.to_nat REFERENCE_BLOCK_INDEX)
              0 (inode_of s inum) (mk_open_file_entry inum 0)
              (data_blocks_s s) buf MAX_BYTES_DIRECT_DATA 0)
    as (inode1 & file1 & d1 & Hrun1 & Hpost1); try (cbn [of_offset]; lia); auto.
  rewrite Hrun1. cbn beta iota.
  destruct Hpost1 as [Ps Po Pi Pt Pp Pd Pb Pfill Pl Pk Pz Pw].
  change (0 + 1 + blocks_for MAX_BYTES_DIRECT_DATA) with 11 in Pp.
  change (0 + blocks_for MAX_BYTES_DIRECT_DATA) with 10 in Pk, Pw.
  rewrite (Pk MAX_DIRECT_BLOCKS) by lia. rewrite Href.
  change (-1 =? -1) with true. cbn beta iota.
  rewrite (tfs_handle_indirect_block_seq inode1 d1 REFERENCE_BLOCK_INDEX)
    by (auto; lia).
  rewrite Z.add_0_l.
  change (MAX_BYTES_DIRECT_DATA =? -1) with false. cbn beta iota.
  unfold tfs_write_indirect_region.
  rewrite tfs_write_indirect_region_loop_clip by (records; lia).
  records. rewrite Ps.
  change (MAX_BYTES - (BLOCK_SIZE * 0 + MAX_BYTES_DIRECT_DATA)) with 262144.
  match goal with
  | |- context [tfs_write_indirect_region_loop ?f ?ino ?fil ?dd ?b ?w 0] =>
      destruct (tfs_write_indirect_region_loop_seq f MAX_DIRECT_BLOCKS
                  ino fil dd b w 0)
        as (inode3 & file3 & d3 & Hrun3 & Hpost3)
  end; try (records; lia).
  { apply (pool_prefix_alloc d1 REFERENCE_BLOCK_INDEX). exact Pp. }
  { records. apply upd_eq. }
  rewrite Hrun3. cbn beta iota.
  eexists. split; [reflexivity|].
  destruct Hpost3 as [Qs Qo Qi Qt Qp Qd Qb Ql Qk Qz Qw].
  records.
  destruct (commit_frame s inum fh inode3 file3 d3) as (Cd & Ci & Cf & Ce & Cfe).
  constructor; rewrite ?commit_entry, ?commit_inode, ?Cd; auto; try lia.
  + apply open_file_entry_eta; cbn [of_inumber of_offset] in *; lia.
  + congruence.
  + intros B HB. unfold file_addr.
    destruct (Z.ltb_spec B MAX_BYTES_DIRECT_DATA) as [Hlow|Hhigh].
    * rewrite Ql.
      -- rewrite memset_outside by (unfold direct_addr, block_addr; dlia).
         replace B with (BLOCK_SIZE * 0 + B) at 1 by lia.
         rewrite Pb by lia. f_equal.
      -- unfold direct_addr, block_addr; dlia.
      -- unfold in_reference_block, direct_addr, block_addr; dlia.
    * replace B with (BLOCK_SIZE * MAX_DIRECT_BLOCKS
                      + (B - MAX_BYTES_DIRECT_DATA)) at 1 by lia.
      rewrite Qb by lia. unfold ptr_add. f_equal. lia.
  + congruence.
  + intros _. rewrite Qk. apply upd_eq.
Qed.

(** The round trip for every length: what is written and what is read
    back is the part of the buffer below [MAX_BYTES]. *)
Lemma round_trip_clipped :
  forall (s0 : tfs) (name : option string) (buf dst : buffer_t) (n : Z),
    valid_pathname name = true ->
    strlen (skip_char name) <= MAX_FILE_NAME - 1 ->
    0 < n < 2 ^ 63 ->
    exists dst',
      round_trip s0 name buf n dst
      = Some (Z.min n MAX_BYTES, Z.min n MAX_BYTES, dst')
      /\ (forall i, 0 <= i < Z.min n MAX_BYTES -> dst' i = buf i)
      /\ (forall x, x < 0 \/ Z.min n MAX_BYTES <= x -> dst' x = dst x).
Proof.
  intros s0 name buf dst n Hvalid Hlen Hn.
  destruct (tfs_open_create_first s0 name Hvalid)
    as (Hfh & Hfresh & Hhas & Htaken).
  set (m := Z.min n MAX_BYTES).
  assert (Hw : exists s3, tfs_write 0 buf n (created s0 name) = Some (s3, m)
                          /\ file_written (created s0 name) s3 0 1 m buf).
  { destruct (Z.le_gt_cases n MAX_BYTES) as [Hle|Hgt].
    - replace m with n by (unfold m; lia).
      apply tfs_write_fresh; [exact Hfresh|lia].
    - replace m with MAX_BYTES by (unfold m; lia).
      apply tfs_write_fresh_clipped; [exact Hfresh|lia]. }
  destruct Hw as (s3 & Hwrite & Hfw).
  assert (Hm : 0 < m <= MAX_BYTES /\ m <= n) by (unfold m; lia).
  clearbody m.
  unfold round_trip.
  rewrite (surjective_pairing (tfs_init s0)).
  rewrite (surjective_pairing (tfs_open name TFS_O_CREAT (fst (tfs_init s0)))).
  rewrite Hfh. fold (created s0 name). rewrite Hwrite. cbn beta iota.
  destruct Hfw as [We Ws Wt Wb Wp Wd Wi Wf Wo Wfe Wr].
  destruct Hhas as [Ht Hb He].
  rewrite tfs_close_taken by (try lia; now rewrite Wfe).
  set (s4 := set_fs_state s3 _).
  assert (Hlook : tfs_lookup name s4 = 1).
  { apply tfs_lookup_has_file; auto; [|lia].
    constructor.
    - change (inode_of s4 0) with (inode_of s3 0). rewrite Wi by lia. exact Ht.
    - change (inode_of s4 0) with (inode_of s3 0). rewrite Wi by lia. exact Hb.
    - change (data_blocks_s s4) with (data_blocks_s s3). rewrite Wd. exact He. }
  unfold tfs_open. rewrite Hvalid, Hlook. cbn [negb].
  change (0 <=? 1) with true. cbv iota.
  change (inode_get 1) with (Some 1).
  change (flag_set 0 TFS_O_TRUNC) with false.
  change (flag_set 0 TFS_O_APPEND) with false.
  cbn [andb]. cbv iota.
  rewrite tfs_open_add_first by (subst s4; simpl; apply upd_eq).
  set (s5 := set_fs_state s4 _).
  assert (Hent : entry_of s5 0 = mk_open_file_entry 1 0)
    by (subst s5; unfold entry_of; simpl; apply upd_eq).
  destruct (tfs_read_spec s5 0 n dst) as (file' & dst' & Hread & _ & _ & Hbytes & Hrest);
    rewrite ?Hent; cbn [of_inumber of_offset];
    change (inode_of s5 1) with (inode_of s3 1); rewrite ?Ws; try lia.
  rewrite Hent in Hread, Hbytes, Hrest. cbn [of_inumber of_offset] in *.
  change (inode_of s5 1) with (inode_of s3 1) in *. rewrite Ws in *.
  replace (Z.min n (m - 0)) with m in * by lia.
  rewrite Hread.
  exists dst'. split; [reflexivity|]. split; [|exact Hrest].
  intros i Hi. rewrite Hbytes by lia.
  change (data_blocks_s s5) with (data_blocks_s s3).
  rewrite Z.add_0_l. now apply Wb.
Qed.

(** C1 (amended). For every previous contents of the global structures,
    every valid path whose name has at most [MAX_FILE_NAME - 1] bytes and
    every length [n > 0]: after [tfs_init], creating the file and writing
    [n] bytes of [buf] from a fresh open at offset 0, the write has
    returned [min n MAX_BYTES], a read of [n] bytes from a second fresh
    open returns [min n MAX_BYTES], and the destination buffer holds
    [buf[0 .. min n MAX_BYTES]].  For [n <= MAX_BYTES] this is the round
    trip of [n] bytes; for [n > MAX_BYTES] the write stores [MAX_BYTES]
    bytes only and the read returns [MAX_BYTES]. *)
Theorem read_after_write_round_trip :
  forall (s0 : tfs) (name : option string) (buf dst : buffer_t) (n : Z),
    valid_pathname name = true ->
    strlen (skip_char name) <= MAX_FILE_NAME - 1 ->
    0 < n < 2 ^ 63 ->
    exists dst',
      round_trip s0 name buf n dst
      = Some (Z.min n MAX_BYTES, Z.min n MAX_BYTES, dst')
      /\ forall i, 0 <= i < Z.min n MAX_BYTES -> dst' i = buf i.
Proof.
  intros s0 name buf dst n Hvalid Hlen Hn.
  destruct (round_trip_clipped s0 name buf dst n Hvalid Hlen Hn)
    as (dst' & Hrun & Hbytes & _).
  exists dst'. split; assumption.
Qed.

Lemma read_after_write_round_trip_witness :
  exists dst',
    round_trip boot (Some "/a"%string) (buffer_of_string "hello") 5 zeros
    = Some (5, 5, dst')
    /\ forall i, 0 <= i < 5 -> dst' i = buffer_of_string "hello" i.
Proof.
  apply (read_after_write_round_trip boot (Some "/a"%string)
           (buffer_of_string "hello") zeros 5).
  - reflexivity.
  - vm_compute. discriminate.
  - lia.
Defined.

(** C1 as stated fails: one byte more than [MAX_BYTES] is not written, so
    the read returns [MAX_BYTES]; and a file created under a name of 40
    bytes is stored under its first 39 bytes and not found by the second
    open, so the read returns -1. *)
Lemma round_trip_fails :
  ~ round_trip_holds boot (Some "/a"%string) xs (MAX_BYTES + 1) zeros
  /\ ~ round_trip_holds boot name_of_40_bytes xs 1 zeros.
Proof.
  assert (Hbig : round_trip_got
                   (round_trip boot (Some "/a"%string) xs (MAX_BYTES + 1) zeros)
                 = Some MAX_BYTES) by (vm_compute; reflexivity).
  assert (Hlong : round_trip_got (round_trip boot name_of_40_bytes xs 1 zeros)
                  = Some (-1)) by (vm_compute; reflexivity).
  split; intros (written & dst' & Hrun & _);
    apply (f_equal round_trip_got) in Hrun; cbn [round_trip_got] in Hrun;
    rewrite ?Hbig, ?Hlong in Hrun; injection Hrun; lia.
Qed.

(** ** C2 and C4: two files *)

(** C2, at the failing input.  The byte 'Y' (89) written to the second
    file goes to pool block 2, which is recorded in slot 1 of its
    [i_block] while slot 0 stays unassigned; the read of byte 0 of that
    file takes pool block 1 and returns 'X' (88), the byte of the first
    file. *)
Theorem second_file_reads_first_file :
  second_file_observation = Some (1, 1, 88, -1, 2, 88, 89).
Proof. vm_compute. reflexivity. Qed.

Lemma inodes_within_limits_spec n s :
  inodes_within_limits n s = true ->
  forall i, 0 <= i < Z.of_nat n ->
    freeinode_ts (inode_table_s s) i = TAKEN ->
    inode_within_limits (inode_of s i) = true.
Proof.
  induction n as [|n IH]; intros Hall i Hi Htaken; [lia|].
  cbn [inodes_within_limits] in Hall.
  apply andb_prop in Hall. destruct Hall as [Hn Hrest].
  destruct (Z.eq_dec i (Z.of_nat n)) as [->|Hne].
  - rewrite Htaken in Hn. exact Hn.
  - apply IH; auto. lia.
Qed.

(** C4, at the failing input.  With a one-byte file "/a" in place,
    writing [MAX_BYTES_DIRECT_DATA] bytes to the new file "/b" succeeds and
    leaves "/b" with size 10240 and the indirect slot set to block 11: the
    invariant holds before the write and not after it. *)
Theorem write_breaks_size_indirect_invariant :
  invariant_observation = Some (true, 10240, false, 10240, 11)
  /\ exists s fb s',
       two_files 1 = Some (s, fb)
       /\ size_indirect_invariant s
       /\ tfs_write fb ys MAX_BYTES_DIRECT_DATA s = Some (s', 10240)
       /\ ~ size_indirect_invariant s'.
Proof.
  split; [vm_compute; reflexivity|].
  destruct (two_files 1) as [[s fb]|] eqn:Htwo; [|vm_compute in Htwo; discriminate].
  destruct (tfs_write fb ys MAX_BYTES_DIRECT_DATA s) as [[s' w]|] eqn:Hw.
  - assert (Hobs : invariant_observation
                   = Some (inodes_within_limits (Z.to_nat INODE_TABLE_SIZE) s, w,
                           inodes_within_limits (Z.to_nat INODE_TABLE_SIZE) s',
                           i_size (inode_of s' 2),
                           i_block (inode_of s' 2) MAX_DIRECT_BLOCKS)).
    { unfold invariant_observation. rewrite Htwo. cbn beta iota.
      rewrite Hw. reflexivity. }
    assert (Hval : invariant_observation = Some (true, 10240, false, 10240, 11))
      by (vm_compute; reflexivity).
    rewrite Hval in Hobs. inversion Hobs as [[Hb Hw' Ha Hs Hi]].
    exists s, fb, s'. split; [reflexivity|]. split; [|split].
    + intros i Hi' Ht. symmetry in Hb.
      apply (inodes_within_limits_spec (Z.to_nat INODE_TABLE_SIZE) s);
        [exact Hb | lia | exact Ht].
    + congruence.
    + intros Hinv.
      assert (Hfree : freeinode_ts (inode_table_s s') 2 = TAKEN).
      { assert (Hq : ' (s, fb) <- two_files 1 ;;
                     ' (s1, written) <- tfs_write fb ys MAX_BYTES_DIRECT_DATA s ;;
                     Some (freeinode_ts (inode_table_s s1) 2) = Some TAKEN)
          by (vm_compute; reflexivity).
        rewrite Htwo in Hq. cbn beta iota in Hq. rewrite Hw in Hq.
        now inversion Hq. }
      specialize (Hinv 2 ltac:(lia) Hfree).
      unfold inode_within_limits in Hinv. rewrite <- Hs, <- Hi in Hinv.
      discriminate.
  - assert (Hq : ' (s, fb) <- two_files 1 ;;
                 ' (s1, written) <- tfs_write fb ys MAX_BYTES_DIRECT_DATA s ;;
                 Some written = Some 10240)
      by (vm_compute; reflexivity).
    rewrite Htwo in Hq. cbn beta iota in Hq. rewrite Hw in Hq. discriminate.
Qed.

(** ** C3: what a newly allocated block holds *)







(** ** Witnesses on the scenarios of the test suite *)

Lemma tfs_read_at_end_of_file_witness :
  exists s',
    tfs_read 0 zeros 3 hello_written = Some (s', zeros, 0)
    /\ of_offset (entry_of s' 0) = of_offset (entry_of hello_written 0).
Proof.
  apply (tfs_read_at_end_of_file hello_written 0 3 zeros).
  - lia.
  - vm_compute. split; [discriminate|reflexivity].
  - vm_compute. split; [discriminate|reflexivity].
  - vm_compute. reflexivity.
  - lia.
Defined.

Lemma closed_handle_not_rejected_witness :
  get_open_file_entry 0 = Some 0
  /\ (forall s a buffer len,
        tfs_read 0 buffer len (with_free_entries s a)
        = match tfs_read 0 buffer len s with
          | Some (s', b, r) => Some (with_free_entries s' a, b, r)
          | None => None
          end)
  /\ (forall s a buffer to_write,
        tfs_write 0 buffer to_write (with_free_entries s a)
        = match tfs_write 0 buffer to_write s with
          | Some (s', r) => Some (with_free_entries s' a, r)
          | None => None
          end).
Proof. apply (closed_handle_not_rejected 0). lia. Defined.

(** After the close of scenario S1 the handle is Free, and both calls
    still go through on it. *)
Example closed_handle_still_served :
  free_open_file_entries (fs_state_s hello_closed) 0 = FREE
  /\ (' (s, r) <- tfs_write 0 xs 3 hello_closed ;; Some r) = Some 3
  /\ (' (s, b, r) <- tfs_read 0 zeros 3 hello_closed ;; Some r) = Some 0.
Proof. vm_compute. repeat split. Qed.

Lemma tfs_open_trunc_witness :
  let s := hello_closed in
  let name := Some "/a"%string in
  let flags := TFS_O_TRUNC in
  let inum := tfs_lookup name s in
  let s' := fst (tfs_open name flags s) in
  let fh := snd (tfs_open name flags s) in
  i_size (inode_of s' inum) = 0
  /\ (0 < i_size (inode_of s inum) ->
      free_blocks (data_blocks_s s') (i_data_block (inode_of s inum)) = FREE)
  /\ of_inumber (entry_of s' fh) = inum
  /\ forall (buffer : buffer_t) (len : Z),
       0 < len ->
       exists s'', tfs_read fh buffer len s' = Some (s'', buffer, 0).
Proof.
  apply (tfs_open_trunc hello_closed (Some "/a"%string) TFS_O_TRUNC).
  - reflexivity.
  - vm_compute. discriminate.
  - vm_compute. discriminate.
  - vm_compute. discriminate.
Defined.

Lemma tfs_open_create_rollback_witness :
  let s := full_directory in
  let name := Some "/f8"%string in
  let flags := TFS_O_CREAT in
  let inum := snd (inode_create T_FILE s) in
  let s' := fst (tfs_open name flags s) in
  snd (tfs_open name flags s) = -1
  /\ freeinode_ts (inode_table_s s') inum = FREE
  /\ (forall j, freeinode_ts (inode_table_s s') j
                = freeinode_ts (inode_table_s s) j)
  /\ (forall j, j <> inum -> inode_of s' j = inode_of s j)
  /\ inode_of s' inum = mk_inode T_FILE 0 (-1) (fun _ => -1)
  /\ data_blocks_s s' = data_blocks_s s
  /\ fs_state_s s' = fs_state_s s.
Proof.
  apply (tfs_open_create_rollback full_directory (Some "/f8"%string) TFS_O_CREAT).
  - reflexivity.
  - vm_compute. reflexivity.
  - reflexivity.
  - vm_compute. discriminate.
  - vm_compute. reflexivity.
Defined.

(** * Further properties of state.c *)

(** ** The data-block pool *)

Lemma data_block_alloc_loop_first_fit fuel :
  forall i d,
    let d' := fst (data_block_alloc_loop fuel i d) in
    let b := snd (data_block_alloc_loop fuel i d) in
    (b = -1 /\ d' = d
     /\ forall j, i <= j < i + Z.of_nat fuel -> free_blocks d j = TAKEN)
    \/ (i <= b < i + Z.of_nat fuel
        /\ free_blocks d b = FREE
        /\ (forall j, i <= j < b -> free_blocks d j = TAKEN)
        /\ d' = set_free_blocks d (upd (free_blocks d) b TAKEN)).
Proof.
  induction fuel as [|fuel IH]; intros i d; cbn zeta.
  - left. cbn [data_block_alloc_loop fst snd]. split; [reflexivity|].
    split; [reflexivity|]. intros j Hj. cbn in Hj. lia.
  - cbn [data_block_alloc_loop].
    destruct (allocation_state_eqb (free_blocks d i) FREE) eqn:Hi.
    + right. cbn [fst snd]. apply allocation_state_eqb_FREE in Hi.
      repeat split; try lia; auto.
    + apply allocation_state_not_FREE in Hi.
      destruct (IH (i + 1) d) as [(Hb & Hd & Hall)|(Hb & Hfree & Hlow & Hd)].
      * left. repeat split; auto. intros j Hj.
        destruct (Z.eq_dec j i) as [->|Hne]; [exact Hi|apply Hall; lia].
      * right. repeat split; auto; try lia. intros j Hj.
        destruct (Z.eq_dec j i) as [->|Hne]; [exact Hi|apply Hlow; lia].
Qed.

Lemma data_block_alloc_first_free :
  forall d : data_blocks_t,
    let d' := fst (data_block_alloc d) in
    let b := snd (data_block_alloc d) in
    (b = -1 /\ d' = d
     /\ forall j, 0 <= j < DATA_BLOCKS -> free_blocks d j = TAKEN)
    \/ (0 <= b < DATA_BLOCKS
        /\ free_blocks d b = FREE
        /\ (forall j, 0 <= j < b -> free_blocks d j = TAKEN)
        /\ free_blocks d' = upd (free_blocks d) b TAKEN
        /\ fs_data d' = fs_data d
        /\ fs_dir d' = fs_dir d).
Proof.
  intros d. cbn zeta. unfold data_block_alloc.
  destruct (data_block_alloc_loop_first_fit (Z.to_nat DATA_BLOCKS) 0 d)
    as [(Hb & Hd & Hall)|(Hb & Hfree & Hlow & Hd)].
  - left. repeat split; auto.
  - right. rewrite Hd. cbn [set_free_blocks free_blocks fs_data fs_dir].
    change (Z.of_nat (Z.to_nat DATA_BLOCKS)) with DATA_BLOCKS in Hb.
    repeat split; auto; lia.
Qed.

(** [data_block_alloc] hands out the lowest free block and marks it
    taken, leaving the contents of the pool alone; it returns -1, and
    changes nothing, exactly when every block is taken. *)
Theorem data_block_alloc_first_fit :
  forall d : data_blocks_t,
    let d' := fst (data_block_alloc d) in
    let b := snd (data_block_alloc d) in
    (b = -1 /\ d' = d
     /\ forall j, 0 <= j < DATA_BLOCKS -> free_blocks d j = TAKEN)
    \/ (0 <= b < DATA_BLOCKS
        /\ free_blocks d b = FREE
        /\ (forall j, 0 <= j < b -> free_blocks d j = TAKEN)
        /\ free_blocks d' = upd (free_blocks d) b TAKEN
        /\ fs_data d' = fs_data d
        /\ fs_dir d' = fs_dir d).
Proof. exact data_block_alloc_first_free. Qed.

(** Freeing the block that [data_block_alloc] has just handed out
    succeeds and gives back the allocation map of before, and the next
    [data_block_alloc] hands out the same block again. *)
Theorem data_block_free_after_alloc :
  forall d : data_blocks_t,
    snd (data_block_alloc d) <> -1 ->
    let d1 := fst (data_block_alloc d) in
    let b := snd (data_block_alloc d) in
    snd (data_block_free b d1) = 0
    /\ (forall j, free_blocks (fst (data_block_free b d1)) j = free_blocks d j)
    /\ fs_data (fst (data_block_free b d1)) = fs_data d
    /\ snd (data_block_alloc (fst (data_block_free b d1))) = b.
Proof.
  intros d Hok. cbn zeta.
  destruct (data_block_alloc_first_free d)
    as [(Hb & _)|(Hb & Hfree & Hlow & Hmap & Hdata & Hdir)]; [contradiction|].
  set (b := snd (data_block_alloc d)) in *.
  set (d1 := fst (data_block_alloc d)) in *.
  assert (Hvalid : valid_block_number b = true)
    by (apply valid_block_number_iff; exact Hb).
  unfold data_block_free. rewrite Hvalid. cbn [negb fst snd].
  assert (Hsame : forall j,
             free_blocks (set_free_blocks d1 (upd (free_blocks d1) b FREE)) j
             = free_blocks d j).
  { intros j. cbn [set_free_blocks free_blocks]. rewrite Hmap.
    destruct (Z.eq_dec j b) as [->|Hne].
    - rewrite upd_eq. now rewrite Hfree.
    - now rewrite !upd_neq by assumption. }
  split; [reflexivity|]. split; [exact Hsame|]. split; [exact Hdata|].
  destruct (data_block_alloc_first_free
              (set_free_blocks d1 (upd (free_blocks d1) b FREE)))
    as [(_ & _ & Hall)|(Hb2 & Hfree2 & Hlow2 & _)].
  - specialize (Hall b Hb). rewrite Hsame, Hfree in Hall. discriminate.
  - set (b2 := snd (data_block_alloc
                      (set_free_blocks d1 (upd (free_blocks d1) b FREE)))) in *.
    destruct (Z.lt_trichotomy b2 b) as [Hlt|[Heq|Hgt]]; [|exact Heq|].
    + rewrite Hsame in Hfree2. rewrite (Hlow b2) in Hfree2 by lia. discriminate.
    + specialize (Hlow2 b ltac:(lia)). rewrite Hsame, Hfree in Hlow2. discriminate.
Qed.

Lemma data_block_free_after_alloc_witness :
  let d := data_blocks_s (fst (tfs_init boot)) in
  let d1 := fst (data_block_alloc d) in
  let b := snd (data_block_alloc d) in
  snd (data_block_free b d1) = 0
  /\ (forall j, free_blocks (fst (data_block_free b d1)) j = free_blocks d j)
  /\ fs_data (fst (data_block_free b d1)) = fs_data d
  /\ snd (data_block_alloc (fst (data_block_free b d1))) = b.
Proof.
  apply (data_block_free_after_alloc (data_blocks_s (fst (tfs_init boot)))).
  vm_compute. discriminate.
Defined.

(** ** The inode table *)

Lemma inode_create_loop_first_free fuel :
  forall i n_type s,
    (inode_create_loop fuel i n_type s = (s, -1)
     /\ forall j, i <= j < i + Z.of_nat fuel ->
          freeinode_ts (inode_table_s s) j = TAKEN)
    \/ (exists inum,
          i <= inum < i + Z.of_nat fuel
          /\ freeinode_ts (inode_table_s s) inum = FREE
          /\ (forall j, i <= j < inum ->
                freeinode_ts (inode_table_s s) j = TAKEN)
          /\ inode_create_loop fuel i n_type s = inode_create_at inum n_type s).
Proof.
  induction fuel as [|fuel IH]; intros i n_type s.
  - left. split; [reflexivity|]. intros j Hj. cbn in Hj. lia.
  - cbn [inode_create_loop].
    destruct (allocation_state_eqb (freeinode_ts (inode_table_s s) i) FREE) eqn:Hi.
    + right. exists i. apply allocation_state_eqb_FREE in Hi.
      repeat split; try lia; auto.
    + apply allocation_state_not_FREE in Hi.
      destruct (IH (i + 1) n_type s) as [(Hrun & Hall)|(inum & Hr & Hfree & Hlow & Hrun)].
      * left. split; [exact Hrun|]. intros j Hj.
        destruct (Z.eq_dec j i) as [->|Hne]; [exact Hi|apply Hall; lia].
      * right. exists inum. repeat split; auto; try lia. intros j Hj.
        destruct (Z.eq_dec j i) as [->|Hne]; [exact Hi|apply Hlow; lia].
Qed.

Lemma inode_create_first_free n_type s :
  (inode_create n_type s = (s, -1)
   /\ forall j, 0 <= j < INODE_TABLE_SIZE ->
        freeinode_ts (inode_table_s s) j = TAKEN)
  \/ (exists inum,
        0 <= inum < INODE_TABLE_SIZE
        /\ freeinode_ts (inode_table_s s) inum = FREE
        /\ (forall j, 0 <= j < inum ->
              freeinode_ts (inode_table_s s) j = TAKEN)
        /\ inode_create n_type s = inode_create_at inum n_type s).
Proof.
  exact (inode_create_loop_first_free (Z.to_nat INODE_TABLE_SIZE) 0 n_type s).
Qed.

(** [inode_create(T_FILE)] takes the lowest free slot of the inode table
    and leaves an empty file there (size 0, no working block, every slot
    of [i_block] unassigned), touching nothing else; it returns -1, and
    changes nothing, exactly when all [INODE_TABLE_SIZE] slots are
    taken. *)
Theorem inode_create_file_first_fit :
  forall s : tfs,
    let s' := fst (inode_create T_FILE s) in
    let inum := snd (inode_create T_FILE s) in
    (inum = -1 /\ s' = s
     /\ forall j, 0 <= j < INODE_TABLE_SIZE ->
          freeinode_ts (inode_table_s s) j = TAKEN)
    \/ (0 <= inum < INODE_TABLE_SIZE
        /\ freeinode_ts (inode_table_s s) inum = FREE
        /\ (forall j, 0 <= j < inum ->
              freeinode_ts (inode_table_s s) j = TAKEN)
        /\ freeinode_ts (inode_table_s s') inum = TAKEN
        /\ inode_of s' inum = mk_inode T_FILE 0 (-1) (fun _ => -1)
        /\ (forall j, j <> inum ->
              freeinode_ts (inode_table_s s') j = freeinode_ts (inode_table_s s) j
              /\ inode_of s' j = inode_of s j)
        /\ data_blocks_s s' = data_blocks_s s
        /\ fs_state_s s' = fs_state_s s).
Proof.
  intros s. cbn zeta.
  destruct (inode_create_first_free T_FILE s)
    as [(Hrun & Hall)|(inum & Hr & Hfree & Hlow & Hrun)]; rewrite Hrun.
  - left. repeat split; auto.
  - right. unfold inode_create_at, inode_of, set_inode, set_freeinode.
    cbn [fst snd inode_table_s inode_table freeinode_ts data_blocks_s fs_state_s].
    rewrite !upd_eq.
    repeat split; auto; try lia; now rewrite upd_neq.
Qed.

Lemma find_in_dir_loop_empty fuel :
  forall i dir sub_name,
    (forall j, i <= j < i + Z.of_nat fuel -> d_inumber (dir j) = -1) ->
    find_in_dir_loop fuel i dir sub_name = -1.
Proof.
  induction fuel as [|fuel IH]; intros i dir sub_name Hall; [reflexivity|].
  cbn [find_in_dir_loop]. rewrite (Hall i) by lia.
  cbn [Z.eqb negb andb]. change (-1 =? -1) with true. cbn [negb andb].
  apply IH. intros j Hj. apply Hall. lia.
Qed.

(** A directory created by [inode_create(T_DIRECTORY)] takes the lowest
    free slot of the inode table and the lowest free block of the pool,
    has size [BLOCK_SIZE], and is empty: each of its [MAX_DIR_ENTRIES]
    entries carries inumber -1 and [find_in_dir] finds no name in it.
    The entries are written into the new block; the bytes of the pool
    outside that block are as before. *)
Theorem inode_create_directory_is_empty :
  forall s : tfs,
    snd (inode_create T_DIRECTORY s) <> -1 ->
    let s' := fst (inode_create T_DIRECTORY s) in
    let inum := snd (inode_create T_DIRECTORY s) in
    let b := snd (data_block_alloc (data_blocks_s s)) in
    0 <= inum < INODE_TABLE_SIZE
    /\ freeinode_ts (inode_table_s s) inum = FREE
    /\ (forall j, 0 <= j < inum -> freeinode_ts (inode_table_s s) j = TAKEN)
    /\ freeinode_ts (inode_table_s s') inum = TAKEN
    /\ 0 <= b < DATA_BLOCKS
    /\ free_blocks (data_blocks_s s) b = FREE
    /\ free_blocks (data_blocks_s s') b = TAKEN
    /\ inode_of s' inum = mk_inode T_DIRECTORY BLOCK_SIZE b (fun _ => -1)
    /\ (forall i, 0 <= i < MAX_DIR_ENTRIES ->
          d_inumber (fs_dir (data_blocks_s s') b i) = -1)
    /\ (forall sub_name, find_in_dir inum sub_name s' = -1)
    /\ (forall a, a < block_addr b \/ block_addr b + BLOCK_SIZE <= a ->
          fs_data (data_blocks_s s') a = fs_data (data_blocks_s s) a)
    /\ fs_state_s s' = fs_state_s s.
Proof.
  intros s. cbn zeta.
  destruct (inode_create_first_free T_DIRECTORY s)
    as [(Hrun & Hall)|(inum & Hr & Hfree & Hlow & Hrun)]; rewrite Hrun;
    [cbn [snd]; congruence|].
  unfold inode_create_at.
  change (data_blocks_s (set_freeinode s inum TAKEN)) with (data_blocks_s s).
  destruct (data_block_alloc_first_free (data_blocks_s s))
    as [(Hb & _)|(Hb & Hbfree & Hblow & Hmap & Hdata & Hdir)].
  - destruct (data_block_alloc (data_blocks_s s)) as [d1 b]. cbn [snd] in Hb.
    subst b. cbn [Z.eqb data_block_get valid_block_number]. cbn. congruence.
  - destruct (data_block_alloc (data_blocks_s s)) as [d1 b].
    cbn [fst snd] in *.
    assert (Hne : (b =? -1) = false) by (apply Z.eqb_neq; lia).
    rewrite Hne. cbn [andb fst snd]. intros _.
    assert (Hi : valid_inumber inum = true) by (apply valid_inumber_iff; lia).
    assert (Hblk : data_block_get b = Some (block_addr b))
      by (apply data_block_get_addr; exact Hb).
    unfold inode_of, find_in_dir, set_inode, set_freeinode, set_data_blocks, set_fs_dir.
    cbn [inode_table_s inode_table freeinode_ts data_blocks_s fs_state_s
         fs_data fs_dir free_blocks].
    rewrite !upd_eq. rewrite Hi.
    cbn [negb orb i_node_type i_data_block inode_type_eqb]. rewrite Hblk.
    assert (Hentries : forall i, 0 <= i < MAX_DIR_ENTRIES ->
               d_inumber
                 ((if (0 <=? i) && (i <? MAX_DIR_ENTRIES)
                   then mk_dir_entry (d_name (fs_dir d1 b i)) (-1)
                   else fs_dir d1 b i)) = -1).
    { intros i Hi'.
      replace ((0 <=? i) && (i <? MAX_DIR_ENTRIES)) with true; [reflexivity|].
      symmetry. apply andb_true_intro. split; [apply Z.leb_le|apply Z.ltb_lt]; lia. }
    assert (Hfind : forall sub_name,
               find_in_dir_loop (Z.to_nat MAX_DIR_ENTRIES) 0
                 (fun i => if (0 <=? i) && (i <? MAX_DIR_ENTRIES)
                           then mk_dir_entry (d_name (fs_dir d1 b i)) (-1)
                           else fs_dir d1 b i) sub_name = -1).
    { intros sub_name. apply find_in_dir_loop_empty. intros j Hj.
      apply Hentries. change (Z.of_nat (Z.to_nat MAX_DIR_ENTRIES)) with 7 in Hj. lia. }
    repeat split; auto; try lia.
    + rewrite Hmap. apply upd_eq.
    + intros a _. now rewrite Hdata.
Qed.

Lemma inode_create_directory_is_empty_witness :
  let s := state_init boot in
  let s' := fst (inode_create T_DIRECTORY s) in
  let inum := snd (inode_create T_DIRECTORY s) in
  let b := snd (data_block_alloc (data_blocks_s s)) in
  0 <= inum < INODE_TABLE_SIZE
  /\ freeinode_ts (inode_table_s s) inum = FREE
  /\ (forall j, 0 <= j < inum -> freeinode_ts (inode_table_s s) j = TAKEN)
  /\ freeinode_ts (inode_table_s s') inum = TAKEN
  /\ 0 <= b < DATA_BLOCKS
  /\ free_blocks (data_blocks_s s) b = FREE
  /\ free_blocks (data_blocks_s s') b = TAKEN
  /\ inode_of s' inum = mk_inode T_DIRECTORY BLOCK_SIZE b (fun _ => -1)
  /\ (forall i, 0 <= i < MAX_DIR_ENTRIES ->
        d_inumber (fs_dir (data_blocks_s s') b i) = -1)
  /\ (forall sub_name, find_in_dir inum sub_name s' = -1)
  /\ (forall a, a < block_addr b \/ block_addr b + BLOCK_SIZE <= a ->
        fs_data (data_blocks_s s') a = fs_data (data_blocks_s s) a)
  /\ fs_state_s s' = fs_state_s s.
Proof.
  apply (inode_create_directory_is_empty (state_init boot)).
  vm_compute. discriminate.
Defined.

(** The full pool: every block is taken. *)
Lemma data_block_alloc_none d :
  (forall b, 0 <= b < DATA_BLOCKS -> free_blocks d b = TAKEN) ->
  data_block_alloc d = (d, -1).
Proof.
  intros Hall. apply data_block_alloc_loop_exhausted.
  intros b Hb. apply Hall.
  change (Z.of_nat (Z.to_nat DATA_BLOCKS)) with DATA_BLOCKS in Hb. lia.
Qed.

(** When no data block is free, [inode_create(T_DIRECTORY)] returns -1
    and gives the inode slot it had taken back: the three allocation
    maps, the open-file table and the contents of the pool are as
    before. *)
Theorem inode_create_directory_without_block :
  forall s : tfs,
    (forall b, 0 <= b < DATA_BLOCKS ->
       free_blocks (data_blocks_s s) b = TAKEN) ->
    let s' := fst (inode_create T_DIRECTORY s) in
    snd (inode_create T_DIRECTORY s) = -1
    /\ (forall j, freeinode_ts (inode_table_s s') j
                  = freeinode_ts (inode_table_s s) j)
    /\ data_blocks_s s' = data_blocks_s s
    /\ fs_state_s s' = fs_state_s s.
Proof.
  intros s Hfull. cbn zeta.
  destruct (inode_create_first_free T_DIRECTORY s)
    as [(Hrun & Hall)|(inum & Hr & Hfree & Hlow & Hrun)]; rewrite Hrun.
  - repeat split; auto.
  - unfold inode_create_at.
    change (data_blocks_s (set_freeinode s inum TAKEN)) with (data_blocks_s s).
    rewrite (data_block_alloc_none _ Hfull).
    change (-1 =? -1) with true.
    change (data_block_get (-1)) with (@None Z). cbn [andb]. unfold set_inode, set_freeinode, set_data_blocks.
    cbn [fst snd inode_table_s inode_table freeinode_ts data_blocks_s fs_state_s].
    repeat split; auto.
    + intros j. destruct (Z.eq_dec j inum) as [->|Hne].
      * rewrite upd_eq. now rewrite Hfree.
      * now rewrite !upd_neq by assumption.
Qed.

Lemma inode_create_directory_without_block_witness :
  let s := exhausted_pool in
  let s' := fst (inode_create T_DIRECTORY s) in
  snd (inode_create T_DIRECTORY s) = -1
  /\ (forall j, freeinode_ts (inode_table_s s') j
                = freeinode_ts (inode_table_s s) j)
  /\ data_blocks_s s' = data_blocks_s s
  /\ fs_state_s s' = fs_state_s s.
Proof.
  apply (inode_create_directory_without_block exhausted_pool).
  intros b Hb. reflexivity.
Defined.

(** ** Deleting an inode *)

(** [inode_delete] turns down an inumber outside the table and a slot
    that is free, changing nothing.  On an allocated slot it marks the
    slot free, keeps the fields of the inode and of every other inode,
    and gives back at most one data block, the working block
    [i_data_block] (whatever the number of blocks the file holds); a
    second [inode_delete] of the same inumber returns -1. *)
Theorem inode_delete_frees_slot :
  forall (s : tfs) (inumber : Z),
    let s' := fst (inode_delete inumber s) in
    (~ 0 <= inumber < INODE_TABLE_SIZE
     \/ freeinode_ts (inode_table_s s) inumber = FREE ->
     inode_delete inumber s = (s, -1))
    /\ (0 <= inumber < INODE_TABLE_SIZE ->
        freeinode_ts (inode_table_s s) inumber = TAKEN ->
        freeinode_ts (inode_table_s s') inumber = FREE
        /\ (forall j, j <> inumber ->
              freeinode_ts (inode_table_s s') j = freeinode_ts (inode_table_s s) j)
        /\ (forall j, inode_of s' j = inode_of s j)
        /\ (forall b, b <> i_data_block (inode_of s inumber) ->
              free_blocks (data_blocks_s s') b = free_blocks (data_blocks_s s) b)
        /\ fs_data (data_blocks_s s') = fs_data (data_blocks_s s)
        /\ fs_state_s s' = fs_state_s s
        /\ snd (inode_delete inumber s') = -1).
Proof.
  intros s inumber. cbn zeta. split.
  - intros H. unfold inode_delete.
    destruct (valid_inumber inumber) eqn:Hv; [|reflexivity].
    apply valid_inumber_iff in Hv. destruct H as [H|H]; [contradiction|].
    rewrite H. reflexivity.
  - intros Hr Htaken.
    assert (Hv : valid_inumber inumber = true) by (apply valid_inumber_iff; exact Hr).
    assert (Hagain : forall t : tfs,
               freeinode_ts (inode_table_s t) inumber = FREE ->
               snd (inode_delete inumber t) = -1).
    { intros t Ht. unfold inode_delete. rewrite Hv, Ht. reflexivity. }
    assert (Hrun : inode_delete inumber s
              = if 0 <? i_size (inode_of s inumber) then
                  if valid_block_number (i_data_block (inode_of s inumber)) then
                    (set_data_blocks (set_freeinode s inumber FREE)
                       (set_free_blocks (data_blocks_s s)
                          (upd (free_blocks (data_blocks_s s))
                             (i_data_block (inode_of s inumber)) FREE)), 0)
                  else
                    (set_data_blocks (set_freeinode s inumber FREE)
                       (data_blocks_s s), -1)
                else (set_freeinode s inumber FREE, 0)).
    { unfold inode_delete, data_block_free, inode_of. rewrite Hv, Htaken.
      cbn [negb orb allocation_state_eqb].
      change (inode_table (inode_table_s (set_freeinode s inumber FREE)) inumber)
        with (inode_table (inode_table_s s) inumber).
      change (data_blocks_s (set_freeinode s inumber FREE)) with (data_blocks_s s).
      destruct (0 <? i_size (inode_table (inode_table_s s) inumber));
        [|reflexivity].
      destruct (valid_block_number
                  (i_data_block (inode_table (inode_table_s s) inumber)));
        reflexivity. }
    rewrite Hrun.
    destruct (0 <? i_size (inode_of s inumber));
      [destruct (valid_block_number (i_data_block (inode_of s inumber)))|];
      unfold inode_of, set_data_blocks, set_freeinode;
      cbn [fst inode_table_s inode_table freeinode_ts data_blocks_s fs_state_s
           set_free_blocks free_blocks fs_data];
      (split; [apply upd_eq|]);
      (split; [intros j Hj; now apply upd_neq|]);
      (split; [reflexivity|]);
      (split; [intros b Hb; try reflexivity; now apply upd_neq|]);
      (split; [reflexivity|]);
      (split; [reflexivity|]);
      apply Hagain; cbn [inode_table_s freeinode_ts]; apply upd_eq.
Qed.

(** ** Directory entries *)

Lemma add_dir_entry_loop_first_free fuel :
  forall i b sub_inumber sub_name d,
    (add_dir_entry_loop fuel i b sub_inumber sub_name d = (d, -1)
     /\ forall j, i <= j < i + Z.of_nat fuel -> d_inumber (fs_dir d b j) <> -1)
    \/ (exists k,
          i <= k < i + Z.of_nat fuel
          /\ d_inumber (fs_dir d b k) = -1
          /\ (forall j, i <= j < k -> d_inumber (fs_dir d b j) <> -1)
          /\ add_dir_entry_loop fuel i b sub_inumber sub_name d
             = (set_fs_dir d
                  (upd (fs_dir d) b
                     (upd (fs_dir d b) k
                        (mk_dir_entry (strncpy_name sub_name) sub_inumber))), 0)).
Proof.
  induction fuel as [|fuel IH]; intros i b sub_inumber sub_name d.
  - left. split; [reflexivity|]. intros j Hj. cbn in Hj. lia.
  - cbn [add_dir_entry_loop].
    destruct (Z.eqb_spec (d_inumber (fs_dir d b i)) (-1)) as [Hi|Hi].
    + right. exists i. repeat split; auto; try lia.
    + destruct (IH (i + 1) b sub_inumber sub_name d)
        as [(Hrun & Hall)|(k & Hk & Hfree & Hlow & Hrun)].
      * left. split; [exact Hrun|]. intros j Hj.
        destruct (Z.eq_dec j i) as [->|Hne]; [exact Hi|apply Hall; lia].
      * right. exists k. repeat split; auto; try lia. intros j Hj.
        destruct (Z.eq_dec j i) as [->|Hne]; [exact Hi|apply Hlow; lia].
Qed.

(** What [add_dir_entry] has checked when it does not fail. *)
Lemma add_dir_entry_checks inumber sub_inumber sub_name s :
  snd (add_dir_entry inumber sub_inumber sub_name s) <> -1 ->
  0 <= inumber < INODE_TABLE_SIZE
  /\ 0 <= sub_inumber < INODE_TABLE_SIZE
  /\ i_node_type (inode_of s inumber) = T_DIRECTORY
  /\ 0 < strlen sub_name
  /\ 0 <= i_data_block (inode_of s inumber) < DATA_BLOCKS.
Proof.
  unfold add_dir_entry, inode_of.
  destruct (valid_inumber inumber) eqn:Hi; [|cbn; congruence].
  destruct (valid_inumber sub_inumber) eqn:Hs; [|cbn; congruence].
  cbn [negb orb].
  destruct (i_node_type (inode_table (inode_table_s s) inumber)) eqn:Ht;
    [cbn; congruence|].
  cbn [inode_type_eqb negb].
  destruct (Z.eqb_spec (strlen sub_name) 0) as [Hz|Hnz]; [cbn; congruence|].
  unfold data_block_get.
  destruct (valid_block_number
              (i_data_block (inode_table (inode_table_s s) inumber))) eqn:Hb;
    [|cbn; congruence].
  intros _. apply valid_inumber_iff in Hi, Hs. apply valid_block_number_iff in Hb.
  unfold strlen in *. repeat split; try lia.
Qed.

Lemma add_dir_entry_runs inumber sub_inumber sub_name s :
  0 <= inumber < INODE_TABLE_SIZE ->
  0 <= sub_inumber < INODE_TABLE_SIZE ->
  i_node_type (inode_of s inumber) = T_DIRECTORY ->
  0 < strlen sub_name ->
  0 <= i_data_block (inode_of s inumber) < DATA_BLOCKS ->
  add_dir_entry inumber sub_inumber sub_name s
  = (set_data_blocks s
       (fst (add_dir_entry_loop (Z.to_nat MAX_DIR_ENTRIES) 0
               (i_data_block (inode_of s inumber)) sub_inumber sub_name
               (data_blocks_s s))),
     snd (add_dir_entry_loop (Z.to_nat MAX_DIR_ENTRIES) 0
            (i_data_block (inode_of s inumber)) sub_inumber sub_name
            (data_blocks_s s))).
Proof.
  intros Hi Hs Ht Hn Hb. unfold add_dir_entry, inode_of in *.
  apply valid_inumber_iff in Hi, Hs. rewrite Hi, Hs, Ht.
  cbn [negb orb inode_type_eqb].
  destruct (Z.eqb_spec (strlen sub_name) 0) as [Hz|_]; [lia|].
  rewrite data_block_get_addr by exact Hb.
  now destruct (add_dir_entry_loop _ _ _ _ _ _).
Qed.

Lemma find_in_dir_runs inumber sub_name s :
  0 <= inumber < INODE_TABLE_SIZE ->
  i_node_type (inode_of s inumber) = T_DIRECTORY ->
  0 <= i_data_block (inode_of s inumber) < DATA_BLOCKS ->
  find_in_dir inumber sub_name s
  = find_in_dir_loop (Z.to_nat MAX_DIR_ENTRIES) 0 (dir_entries s inumber) sub_name.
Proof.
  intros Hi Ht Hb. unfold find_in_dir, dir_entries, inode_of in *.
  apply valid_inumber_iff in Hi. rewrite Hi, Ht.
  cbn [negb orb inode_type_eqb].
  now rewrite data_block_get_addr by exact Hb.
Qed.

Lemma find_in_dir_loop_none fuel :
  forall i dir sub_name,
    find_in_dir_loop fuel i dir sub_name = -1 ->
    forall j, i <= j < i + Z.of_nat fuel -> entry_matches (dir j) sub_name = false.
Proof.
  induction fuel as [|fuel IH]; intros i dir sub_name Hrun j Hj; [lia|].
  cbn [find_in_dir_loop] in Hrun. fold (entry_matches (dir i) sub_name) in Hrun.
  destruct (entry_matches (dir i) sub_name) eqn:Hi.
  - unfold entry_matches in Hi. apply andb_prop in Hi. destruct Hi as [Hi _].
    rewrite Hrun in Hi. discriminate.
  - destruct (Z.eq_dec j i) as [->|Hne]; [exact Hi|].
    apply (IH (i + 1) dir sub_name Hrun). lia.
Qed.

Lemma find_in_dir_loop_first_match fuel :
  forall i dir sub_name k,
    i <= k < i + Z.of_nat fuel ->
    (forall j, i <= j < k -> entry_matches (dir j) sub_name = false) ->
    entry_matches (dir k) sub_name = true ->
    find_in_dir_loop fuel i dir sub_name = d_inumber (dir k).
Proof.
  induction fuel as [|fuel IH]; intros i dir sub_name k Hk Hlow Hhit; [lia|].
  cbn [find_in_dir_loop]. fold (entry_matches (dir i) sub_name).
  destruct (Z.eq_dec k i) as [->|Hne].
  - now rewrite Hhit.
  - rewrite (Hlow i) by lia. apply IH; [lia| |exact Hhit].
    intros j Hj. apply Hlow. lia.
Qed.

Lemma find_in_dir_loop_agree fuel :
  forall i dir dir' sub_name,
    (forall j, i <= j < i + Z.of_nat fuel ->
       dir' j = dir j
       \/ (entry_matches (dir j) sub_name = false
           /\ entry_matches (dir' j) sub_name = false)) ->
    find_in_dir_loop fuel i dir' sub_name = find_in_dir_loop fuel i dir sub_name.
Proof.
  induction fuel as [|fuel IH]; intros i dir dir' sub_name Hagree; [reflexivity|].
  cbn [find_in_dir_loop].
  fold (entry_matches (dir i) sub_name). fold (entry_matches (dir' i) sub_name).
  assert (Hrest : find_in_dir_loop fuel (i + 1) dir' sub_name
                  = find_in_dir_loop fuel (i + 1) dir sub_name).
  { apply IH. intros j Hj. apply Hagree. lia. }
  destruct (Hagree i ltac:(lia)) as [Heq|[H1 H2]].
  - rewrite Heq, Hrest. reflexivity.
  - rewrite H1, H2. exact Hrest.
Qed.

Lemma find_in_dir_add_dir_entry :
  forall (s : tfs) (inumber sub_inumber : Z) (sub_name : string),
    snd (add_dir_entry inumber sub_inumber sub_name s) = 0 ->
    strlen sub_name <= MAX_FILE_NAME - 1 ->
    find_in_dir inumber sub_name s = -1 ->
    let s' := fst (add_dir_entry inumber sub_inumber sub_name s) in
    find_in_dir inumber sub_name s' = sub_inumber
    /\ forall other,
         strncmp_eq (strncpy_name sub_name) other MAX_FILE_NAME = false ->
         find_in_dir inumber other s' = find_in_dir inumber other s.
Proof.
  intros s inumber sub_inumber sub_name Hadd Hlen Hnone. cbn zeta.
  destruct (add_dir_entry_checks inumber sub_inumber sub_name s)
    as (Hi & Hs & Ht & Hn & Hb); [lia|].
  rewrite add_dir_entry_runs in * by assumption. cbn [fst snd] in *.
  rewrite find_in_dir_runs in Hnone by assumption.
  set (b := i_data_block (inode_of s inumber)) in *.
  destruct (add_dir_entry_loop_first_free (Z.to_nat MAX_DIR_ENTRIES) 0 b
              sub_inumber sub_name (data_blocks_s s))
    as [(Hrun & _)|(k & Hk & Hfree & Hlow & Hrun)];
    rewrite Hrun in *; cbn [fst snd] in *; [lia|].
  set (entry := mk_dir_entry (strncpy_name sub_name) sub_inumber).
  assert (Hinodes : forall j,
             inode_of
               (set_data_blocks s
                  (set_fs_dir (data_blocks_s s)
                     (upd (fs_dir (data_blocks_s s)) b
                        (upd (fs_dir (data_blocks_s s) b) k entry)))) j
             = inode_of s j) by reflexivity.
  assert (Hdir : dir_entries
                   (set_data_blocks s
                      (set_fs_dir (data_blocks_s s)
                         (upd (fs_dir (data_blocks_s s)) b
                            (upd (fs_dir (data_blocks_s s) b) k entry)))) inumber
                 = upd (dir_entries s inumber) k entry).
  { unfold dir_entries. rewrite Hinodes. fold b.
    cbn [set_data_blocks data_blocks_s set_fs_dir fs_dir]. apply upd_eq. }
  assert (Hnew : entry_matches entry sub_name = true).
  { unfold entry_matches, entry. cbn [d_inumber d_name].
    rewrite strncmp_stored_name by exact Hlen.
    destruct (Z.eqb_spec sub_inumber (-1)); [lia|reflexivity]. }
  assert (Hold : entry_matches (dir_entries s inumber k) sub_name = false).
  { unfold entry_matches, dir_entries. fold b. rewrite Hfree. reflexivity. }
  split.
  - rewrite find_in_dir_runs by (rewrite ?Hinodes; assumption). rewrite Hdir.
    rewrite (find_in_dir_loop_first_match _ 0 _ sub_name k).
    + now rewrite upd_eq.
    + exact Hk.
    + intros j Hj. rewrite upd_neq by lia.
      apply (find_in_dir_loop_none _ 0 _ _ Hnone).
      change (Z.of_nat (Z.to_nat MAX_DIR_ENTRIES)) with 7 in *. lia.
    + now rewrite upd_eq.
  - intros other Hother.
    rewrite !find_in_dir_runs by (rewrite ?Hinodes; assumption). rewrite Hdir.
    apply find_in_dir_loop_agree. intros j Hj.
    destruct (Z.eq_dec j k) as [->|Hne].
    + right. split.
      * unfold entry_matches, dir_entries. fold b. rewrite Hfree. reflexivity.
      * rewrite upd_eq. unfold entry_matches, entry. cbn [d_inumber d_name].
        rewrite Hother. apply andb_false_r.
    + left. now apply upd_neq.
Qed.

(** The round trip of the directory.  When [add_dir_entry] succeeds for a
    name of at most [MAX_FILE_NAME - 1] bytes that [find_in_dir] did not
    find before, [find_in_dir] finds it afterwards under the inumber
    given; a name that differs from the stored one within the first
    [MAX_FILE_NAME] bytes resolves as before. *)
Theorem find_in_dir_after_add_dir_entry :
  forall (s : tfs) (inumber sub_inumber : Z) (sub_name : string),
    snd (add_dir_entry inumber sub_inumber sub_name s) = 0 ->
    strlen sub_name <= MAX_FILE_NAME - 1 ->
    find_in_dir inumber sub_name s = -1 ->
    let s' := fst (add_dir_entry inumber sub_inumber sub_name s) in
    find_in_dir inumber sub_name s' = sub_inumber
    /\ forall other,
         strncmp_eq (strncpy_name sub_name) other MAX_FILE_NAME = false ->
         find_in_dir inumber other s' = find_in_dir inumber other s.
Proof. exact find_in_dir_add_dir_entry. Qed.

Lemma find_in_dir_after_add_dir_entry_witness :
  let s := fst (tfs_init boot) in
  let s' := fst (add_dir_entry ROOT_DIR_INUM 1 "a" s) in
  find_in_dir ROOT_DIR_INUM "a" s' = 1
  /\ forall other,
       strncmp_eq (strncpy_name "a") other MAX_FILE_NAME = false ->
       find_in_dir ROOT_DIR_INUM other s' = find_in_dir ROOT_DIR_INUM other s.
Proof.
  apply (find_in_dir_after_add_dir_entry (fst (tfs_init boot)) ROOT_DIR_INUM 1 "a").
  - reflexivity.
  - vm_compute. discriminate.
  - reflexivity.
Defined.

(** A directory holds [MAX_DIR_ENTRIES] entries.  For arguments that pass
    the checks of [add_dir_entry] (both inumbers in range, a directory
    with a block, a non-empty name) the call fails exactly when each of
    the entries is in use, and then changes nothing. *)
Theorem add_dir_entry_fails_when_full :
  forall (s : tfs) (inumber sub_inumber : Z) (sub_name : string),
    0 <= inumber < INODE_TABLE_SIZE ->
    0 <= sub_inumber < INODE_TABLE_SIZE ->
    i_node_type (inode_of s inumber) = T_DIRECTORY ->
    0 < strlen sub_name ->
    0 <= i_data_block (inode_of s inumber) < DATA_BLOCKS ->
    (snd (add_dir_entry inumber sub_inumber sub_name s) = -1
     <-> forall j, 0 <= j < MAX_DIR_ENTRIES ->
           d_inumber (dir_entries s inumber j) <> -1)
    /\ (snd (add_dir_entry inumber sub_inumber sub_name s) = -1 ->
        inode_table_s (fst (add_dir_entry inumber sub_inumber sub_name s))
        = inode_table_s s
        /\ data_blocks_s (fst (add_dir_entry inumber sub_inumber sub_name s))
           = data_blocks_s s
        /\ fs_state_s (fst (add_dir_entry inumber sub_inumber sub_name s))
           = fs_state_s s).
Proof.
  intros s inumber sub_inumber sub_name Hi Hs Ht Hn Hb.
  split.
  - rewrite add_dir_entry_runs by assumption. cbn [snd]. unfold dir_entries.
    destruct (add_dir_entry_loop_first_free (Z.to_nat MAX_DIR_ENTRIES) 0
                (i_data_block (inode_of s inumber)) sub_inumber sub_name
                (data_blocks_s s))
      as [(Hrun & Hall)|(k & Hk & Hfree & Hlow & Hrun)]; rewrite Hrun; cbn [snd].
    + split; [intros _; exact Hall|reflexivity].
    + split; [discriminate|]. intros Hall. exfalso.
      apply (Hall k); [|exact Hfree].
      change (Z.of_nat (Z.to_nat MAX_DIR_ENTRIES)) with 7 in Hk. lia.
  - intros Hfail.
    apply (add_dir_entry_failed inumber sub_inumber sub_name).
    destruct (add_dir_entry inumber sub_inumber sub_name s) as [s' r].
    cbn [fst snd] in *. now subst r.
Qed.

Lemma add_dir_entry_fails_when_full_witness :
  let s := full_directory in
  (snd (add_dir_entry ROOT_DIR_INUM 8 "f8" s) = -1
   <-> forall j, 0 <= j < MAX_DIR_ENTRIES ->
         d_inumber (dir_entries s ROOT_DIR_INUM j) <> -1)
  /\ (snd (add_dir_entry ROOT_DIR_INUM 8 "f8" s) = -1 ->
      inode_table_s (fst (add_dir_entry ROOT_DIR_INUM 8 "f8" s))
      = inode_table_s s
      /\ data_blocks_s (fst (add_dir_entry ROOT_DIR_INUM 8 "f8" s))
         = data_blocks_s s
      /\ fs_state_s (fst (add_dir_entry ROOT_DIR_INUM 8 "f8" s))
         = fs_state_s s).
Proof.
  apply (add_dir_entry_fails_when_full full_directory ROOT_DIR_INUM 8 "f8").
  - lia.
  - lia.
  - reflexivity.
  - vm_compute. reflexivity.
  - vm_compute. split; [discriminate|reflexivity].
Defined.

(** ** Names of [MAX_FILE_NAME] bytes and more *)

Lemma string_take_length n :
  forall t : string, String.length (string_take n t) = Nat.min n (String.length t).
Proof.
  induction n as [|n IH]; intros [|c t]; cbn; auto.
Qed.

Lemma strncmp_long_name (stored sub_name : string) :
  strlen stored <= MAX_FILE_NAME - 1 ->
  MAX_FILE_NAME <= strlen sub_name ->
  strncmp_eq stored sub_name MAX_FILE_NAME = false.
Proof.
  unfold strlen, strncmp_eq. intros Hs Hn.
  apply String.eqb_neq. intros Heq.
  apply (f_equal String.length) in Heq. rewrite !string_take_length in Heq.
  change (Z.to_nat MAX_FILE_NAME) with 40%nat in Heq. lia.
Qed.

(** [add_dir_entry] stores at most [MAX_FILE_NAME - 1] bytes of a name
    and [find_in_dir] compares [MAX_FILE_NAME] bytes, so a path whose
    name has [MAX_FILE_NAME] bytes or more is never found: in a root
    directory whose entries in use hold names of at most
    [MAX_FILE_NAME - 1] bytes, [tfs_lookup] returns -1 for it. *)
Theorem tfs_lookup_long_name :
  forall (s : tfs) (name : option string),
    MAX_FILE_NAME <= strlen (skip_char name) ->
    (forall j, 0 <= j < MAX_DIR_ENTRIES ->
       d_inumber (dir_entries s ROOT_DIR_INUM j) <> -1 ->
       strlen (d_name (dir_entries s ROOT_DIR_INUM j)) <= MAX_FILE_NAME - 1) ->
    tfs_lookup name s = -1.
Proof.
  intros s name Hlong Hfit. unfold tfs_lookup.
  destruct (valid_pathname name); [|reflexivity]. cbn [negb].
  unfold find_in_dir.
  destruct (negb (valid_inumber ROOT_DIR_INUM)
            || negb (inode_type_eqb
                       (i_node_type (inode_table (inode_table_s s) ROOT_DIR_INUM))
                       T_DIRECTORY)); [reflexivity|].
  destruct (data_block_get _); [|reflexivity].
  fold (inode_of s ROOT_DIR_INUM). fold (dir_entries s ROOT_DIR_INUM).
  assert (Hnone : forall fuel i, 0 <= i -> i + Z.of_nat fuel <= MAX_DIR_ENTRIES ->
             find_in_dir_loop fuel i (dir_entries s ROOT_DIR_INUM) (skip_char name)
             = -1).
  { induction fuel as [|fuel IH]; intros i Hi Hfuel; [reflexivity|].
    cbn [find_in_dir_loop].
    destruct (Z.eqb_spec (d_inumber (dir_entries s ROOT_DIR_INUM i)) (-1))
      as [Hfree|Hused]; cbn [negb andb].
    - apply IH; lia.
    - rewrite strncmp_long_name; [apply IH; lia| |exact Hlong].
      apply Hfit; [lia|exact Hused]. }
  apply Hnone; [lia|]. change (Z.of_nat (Z.to_nat MAX_DIR_ENTRIES)) with 7. lia.
Qed.

Lemma tfs_lookup_long_name_witness :
  tfs_lookup name_of_40_bytes long_name_created = -1.
Proof.
  apply (tfs_lookup_long_name long_name_created name_of_40_bytes).
  - vm_compute. discriminate.
  - intros j Hj Hused.
    assert (Hcases : j = 0 \/ j = 1 \/ j = 2 \/ j = 3 \/ j = 4 \/ j = 5 \/ j = 6)
      by lia.
    destruct Hcases as [->|[->|[->|[->|[->|[->| ->]]]]]];
      first [ vm_compute; discriminate
            | exfalso; apply Hused; reflexivity ].
Defined.

(** * Further properties of operations.c *)

(** ** The open-file table *)

Lemma add_to_open_file_table_loop_first_free fuel :
  forall i inumber offset f,
    (add_to_open_file_table_loop fuel i inumber offset f = (f, -1)
     /\ forall j, i <= j < i + Z.of_nat fuel -> free_open_file_entries f j = TAKEN)
    \/ (exists h,
          i <= h < i + Z.of_nat fuel
          /\ free_open_file_entries f h = FREE
          /\ (forall j, i <= j < h -> free_open_file_entries f j = TAKEN)
          /\ add_to_open_file_table_loop fuel i inumber offset f
             = (mk_fs_state
                  (upd (open_file_table f) h (mk_open_file_entry inumber offset))
                  (upd (free_open_file_entries f) h TAKEN), h)).
Proof.
  induction fuel as [|fuel IH]; intros i inumber offset f.
  - left. split; [reflexivity|]. intros j Hj. cbn in Hj. lia.
  - cbn [add_to_open_file_table_loop].
    destruct (allocation_state_eqb (free_open_file_entries f i) FREE) eqn:Hi.
    + right. exists i. apply allocation_state_eqb_FREE in Hi.
      repeat split; auto; try lia.
    + apply allocation_state_not_FREE in Hi.
      destruct (IH (i + 1) inumber offset f)
        as [(Hrun & Hall)|(h & Hh & Hfree & Hlow & Hrun)].
      * left. split; [exact Hrun|]. intros j Hj.
        destruct (Z.eq_dec j i) as [->|Hne]; [exact Hi|apply Hall; lia].
      * right. exists h. repeat split; auto; try lia. intros j Hj.
        destruct (Z.eq_dec j i) as [->|Hne]; [exact Hi|apply Hlow; lia].
Qed.

Lemma add_to_open_file_table_first_free inumber offset f :
  (add_to_open_file_table inumber offset f = (f, -1)
   /\ forall j, 0 <= j < MAX_OPEN_FILES -> free_open_file_entries f j = TAKEN)
  \/ (exists h,
        0 <= h < MAX_OPEN_FILES
        /\ free_open_file_entries f h = FREE
        /\ (forall j, 0 <= j < h -> free_open_file_entries f j = TAKEN)
        /\ add_to_open_file_table inumber offset f
           = (mk_fs_state
                (upd (open_file_table f) h (mk_open_file_entry inumber offset))
                (upd (free_open_file_entries f) h TAKEN), h)).
Proof.
  exact (add_to_open_file_table_loop_first_free (Z.to_nat MAX_OPEN_FILES) 0
           inumber offset f).
Qed.

(** [add_to_open_file_table] takes the lowest free entry of the open-file
    table, records the inumber and the offset there and leaves the other
    entries alone; with all [MAX_OPEN_FILES] entries taken it returns -1
    and changes nothing. *)
Theorem add_to_open_file_table_first_fit :
  forall (inumber offset : Z) (f : fs_state_t),
    let f' := fst (add_to_open_file_table inumber offset f) in
    let h := snd (add_to_open_file_table inumber offset f) in
    (h = -1 /\ f' = f
     /\ forall j, 0 <= j < MAX_OPEN_FILES -> free_open_file_entries f j = TAKEN)
    \/ (0 <= h < MAX_OPEN_FILES
        /\ free_open_file_entries f h = FREE
        /\ (forall j, 0 <= j < h -> free_open_file_entries f j = TAKEN)
        /\ free_open_file_entries f' = upd (free_open_file_entries f) h TAKEN
        /\ open_file_table f' h = mk_open_file_entry inumber offset
        /\ forall j, j <> h -> open_file_table f' j = open_file_table f j).
Proof.
  intros inumber offset f. cbn zeta.
  destruct (add_to_open_file_table_first_free inumber offset f)
    as [(Hrun & Hall)|(h & Hh & Hfree & Hlow & Hrun)]; rewrite Hrun; cbn [fst snd].
  - left. repeat split; auto.
  - right. cbn [free_open_file_entries open_file_table].
    repeat split; auto; try lia.
    + apply upd_eq.
    + intros j Hj. now apply upd_neq.
Qed.

(** ** What [tfs_open] does to the open-file table *)

Lemma inode_create_file_frame s :
  data_blocks_s (fst (inode_create T_FILE s)) = data_blocks_s s
  /\ fs_state_s (fst (inode_create T_FILE s)) = fs_state_s s.
Proof.
  destruct (inode_create_first_free T_FILE s)
    as [(Hrun & _)|(inum & _ & _ & _ & Hrun)]; rewrite Hrun; split; reflexivity.
Qed.

Lemma add_dir_entry_frame inumber sub_inumber sub_name s :
  inode_table_s (fst (add_dir_entry inumber sub_inumber sub_name s))
  = inode_table_s s
  /\ fs_state_s (fst (add_dir_entry inumber sub_inumber sub_name s))
     = fs_state_s s.
Proof.
  unfold add_dir_entry.
  destruct (negb (valid_inumber inumber) || negb (valid_inumber sub_inumber));
    [split; reflexivity|].
  destruct (negb (inode_type_eqb _ T_DIRECTORY)); [split; reflexivity|].
  destruct (strlen sub_name =? 0); [split; reflexivity|].
  destruct (data_block_get _); [|split; reflexivity].
  destruct (add_dir_entry_loop _ _ _ _ _ _). split; reflexivity.
Qed.

Lemma inode_delete_frame inumber s :
  fs_state_s (fst (inode_delete inumber s)) = fs_state_s s.
Proof.
  unfold inode_delete.
  destruct (negb (valid_inumber inumber) || _); [reflexivity|].
  destruct (0 <? _); [|reflexivity].
  destruct (data_block_free _ _) as [d1 r]. now destruct (r =? -1).
Qed.

(** Whatever path [tfs_open] takes, the open-file table is either left
    as it was, with the result -1, or it is what [add_to_open_file_table]
    makes of the table of before. *)
Lemma tfs_open_fs_state name flags s :
  (snd (tfs_open name flags s) = -1
   /\ fs_state_s (fst (tfs_open name flags s)) = fs_state_s s)
  \/ (exists inum offset,
        fs_state_s (fst (tfs_open name flags s))
        = fst (add_to_open_file_table inum offset (fs_state_s s))
        /\ snd (tfs_open name flags s)
           = snd (add_to_open_file_table inum offset (fs_state_s s))).
Proof.
  assert (Hadd : forall inum offset t,
             fs_state_s t = fs_state_s s ->
             fs_state_s (fst (tfs_open_add inum offset t))
             = fst (add_to_open_file_table inum offset (fs_state_s s))
             /\ snd (tfs_open_add inum offset t)
                = snd (add_to_open_file_table inum offset (fs_state_s s))).
  { intros inum offset t Ht. unfold tfs_open_add. rewrite Ht.
    destruct (add_to_open_file_table inum offset (fs_state_s s)).
    split; reflexivity. }
  unfold tfs_open.
  destruct (valid_pathname name); cbn [negb]; [|left; split; reflexivity].
  destruct (0 <=? tfs_lookup name s).
  - destruct (inode_get (tfs_lookup name s)) as [ip|]; [|left; split; reflexivity].
    destruct (flag_set flags TFS_O_TRUNC && (0 <? i_size _)).
    + destruct (data_block_free _ _) as [d1 r].
      destruct (r =? -1); [left; split; reflexivity|].
      right. eexists _, _. apply Hadd. reflexivity.
    + right. eexists _, _. apply Hadd. reflexivity.
  - destruct (flag_set flags TFS_O_CREAT); [|left; split; reflexivity].
    destruct (inode_create_file_frame s) as [_ Hs1].
    destruct (inode_create T_FILE s) as [s1 inum]. cbn [fst] in Hs1.
    destruct (inum =? -1); [left; split; [reflexivity|exact Hs1]|].
    destruct (add_dir_entry_frame ROOT_DIR_INUM inum (skip_char name) s1) as [_ Hs2].
    destruct (add_dir_entry ROOT_DIR_INUM inum (skip_char name) s1) as [s2 r].
    cbn [fst] in Hs2.
    destruct (r =? -1).
    + left. split; [reflexivity|]. cbn [fst].
      rewrite inode_delete_frame. congruence.
    + right. eexists _, _. apply Hadd. congruence.
Qed.

(** The handle of a successful [tfs_open] was the lowest free entry of
    the table, and is taken afterwards; a failed [tfs_open] leaves the
    occupancy map as it was. *)
Lemma tfs_open_handle name flags s :
  let s' := fst (tfs_open name flags s) in
  let fh := snd (tfs_open name flags s) in
  (fh = -1
   /\ free_open_file_entries (fs_state_s s')
      = free_open_file_entries (fs_state_s s))
  \/ (0 <= fh < MAX_OPEN_FILES
      /\ free_open_file_entries (fs_state_s s) fh = FREE
      /\ (forall j, 0 <= j < fh ->
            free_open_file_entries (fs_state_s s) j = TAKEN)
      /\ free_open_file_entries (fs_state_s s')
         = upd (free_open_file_entries (fs_state_s s)) fh TAKEN
      /\ forall j, j <> fh -> entry_of s' j = entry_of s j).
Proof.
  cbn zeta. unfold entry_of.
  destruct (tfs_open_fs_state name flags s)
    as [(Hr & Hs)|(inum & offset & Hs & Hr)]; rewrite Hr, Hs.
  - left. split; reflexivity.
  - destruct (add_to_open_file_table_first_free inum offset (fs_state_s s))
      as [(Hrun & Hall)|(h & Hh & Hfree & Hlow & Hrun)]; rewrite Hrun; cbn [fst snd].
    + left. split; reflexivity.
    + right. cbn [free_open_file_entries open_file_table].
      repeat split; auto; try lia. intros j Hj. now apply upd_neq.
Qed.

(** ** Opening and closing *)

(** [tfs_close] undoes what [tfs_open] did to the occupancy map of the
    open-file table: closing the handle of a successful [tfs_open]
    returns 0 and every entry is free or taken as before the open.  A
    second [tfs_close] of the same handle returns -1. *)
Theorem tfs_close_after_tfs_open :
  forall (s : tfs) (name : option string) (flags : Z),
    snd (tfs_open name flags s) <> -1 ->
    let s1 := fst (tfs_open name flags s) in
    let fh := snd (tfs_open name flags s) in
    let s2 := fst (tfs_close fh s1) in
    snd (tfs_close fh s1) = 0
    /\ (forall h, free_open_file_entries (fs_state_s s2) h
                  = free_open_file_entries (fs_state_s s) h)
    /\ inode_table_s s2 = inode_table_s s1
    /\ data_blocks_s s2 = data_blocks_s s1
    /\ snd (tfs_close fh s2) = -1.
Proof.
  intros s name flags Hok. cbn zeta.
  destruct (tfs_open_handle name flags s)
    as [(Hr & _)|(Hfh & Hfree & Hlow & Hmap & Hrest)]; [contradiction|].
  set (fh := snd (tfs_open name flags s)) in *.
  set (s1 := fst (tfs_open name flags s)) in *.
  assert (Htaken : free_open_file_entries (fs_state_s s1) fh = TAKEN)
    by (rewrite Hmap; apply upd_eq).
  rewrite (tfs_close_taken s1 fh Hfh Htaken). cbn [fst snd].
  split; [reflexivity|]. split; [|split; [reflexivity|split; [reflexivity|]]].
  - intros h. cbn [set_fs_state fs_state_s free_open_file_entries]. rewrite Hmap.
    destruct (Z.eq_dec h fh) as [->|Hne].
    + rewrite upd_eq. now rewrite Hfree.
    + now rewrite !upd_neq by assumption.
  - unfold tfs_close, remove_from_open_file_table.
    cbn [set_fs_state fs_state_s free_open_file_entries].
    rewrite upd_eq. cbn [allocation_state_eqb negb].
    rewrite orb_true_r. reflexivity.
Qed.

Lemma tfs_close_after_tfs_open_witness :
  let s := fst (tfs_init boot) in
  let name := Some "/a"%string in
  let flags := TFS_O_CREAT in
  let s1 := fst (tfs_open name flags s) in
  let fh := snd (tfs_open name flags s) in
  let s2 := fst (tfs_close fh s1) in
  snd (tfs_close fh s1) = 0
  /\ (forall h, free_open_file_entries (fs_state_s s2) h
                = free_open_file_entries (fs_state_s s) h)
  /\ inode_table_s s2 = inode_table_s s1
  /\ data_blocks_s s2 = data_blocks_s s1
  /\ snd (tfs_close fh s2) = -1.
Proof.
  apply (tfs_close_after_tfs_open (fst (tfs_init boot)) (Some "/a"%string)
           TFS_O_CREAT).
  vm_compute. discriminate.
Defined.

(** [tfs_close] of a handle outside the table, or of an entry that is
    not taken, returns -1 and changes nothing. *)
Lemma tfs_close_rejects s fhandle :
  ~ 0 <= fhandle < MAX_OPEN_FILES
  \/ free_open_file_entries (fs_state_s s) fhandle = FREE ->
  snd (tfs_close fhandle s) = -1
  /\ fs_state_s (fst (tfs_close fhandle s)) = fs_state_s s.
Proof.
  intros H. unfold tfs_close, remove_from_open_file_table.
  destruct (valid_file_handle fhandle) eqn:Hv; cbn [negb orb].
  - apply valid_file_handle_iff in Hv. destruct H as [H|H]; [contradiction|].
    rewrite H. cbn. split; reflexivity.
  - cbn. split; reflexivity.
Qed.

Lemma open_each_handles requests :
  forall s,
    let s' := fst (open_each requests s) in
    let hs := handles (snd (open_each requests s)) in
    NoDup hs
    /\ (forall h, In h hs ->
          0 <= h < MAX_OPEN_FILES
          /\ free_open_file_entries (fs_state_s s) h = FREE
          /\ free_open_file_entries (fs_state_s s') h = TAKEN)
    /\ (forall h, free_open_file_entries (fs_state_s s) h = TAKEN ->
          free_open_file_entries (fs_state_s s') h = TAKEN).
Proof.
  induction requests as [|[name flags] rest IH]; intros s; cbn zeta.
  - cbn. split; [constructor|]. split; [intros h []|auto].
  - cbn [open_each].
    pose proof (tfs_open_handle name flags s) as Hopen. cbn zeta in Hopen.
    destruct (tfs_open name flags s) as [s1 fh]. cbn [fst snd] in Hopen.
    specialize (IH s1). cbn zeta in IH.
    destruct (open_each rest s1) as [s2 fhs]. cbn [fst snd] in *.
    destruct IH as (Hnodup & Hin & Hkeep).
    unfold handles in *. cbn [filter].
    destruct Hopen as [(Hr & Hmap)|(Hfh & Hfree & _ & Hmap & _)].
    + subst fh. change (-1 =? -1) with true. cbn [negb].
      rewrite Hmap in *. split; [exact Hnodup|]. split; [exact Hin|exact Hkeep].
    + destruct (Z.eqb_spec fh (-1)) as [?|_]; [lia|]. cbn [negb].
      assert (Htaken : free_open_file_entries (fs_state_s s1) fh = TAKEN)
        by (rewrite Hmap; apply upd_eq).
      split; [|split].
      * constructor; [|exact Hnodup]. intros Hdup.
        destruct (Hin fh Hdup) as (_ & Hfree1 & _). congruence.
      * intros h [<-|Hh].
        -- repeat split; auto; try lia.
        -- destruct (Hin h Hh) as (Hrange & Hfree1 & Htaken2).
           repeat split; auto; try lia.
           rewrite Hmap in Hfree1.
           destruct (Z.eq_dec h fh) as [->|Hne];
             [rewrite upd_eq in Hfree1; discriminate|].
           now rewrite upd_neq in Hfree1 by assumption.
      * intros h Hh. apply Hkeep. rewrite Hmap.
        destruct (Z.eq_dec h fh) as [->|Hne];
          [apply upd_eq|now rewrite upd_neq by assumption].
Qed.

(** Sequential handle uniqueness.  In any sequence of calls of
    [tfs_open], whatever the paths and the flags and whatever the state
    it starts from, the handles returned are pairwise distinct, lie in
    [0, MAX_OPEN_FILES), were free at the start and are taken at the
    end. *)
Theorem successive_opens_get_distinct_handles :
  forall (requests : list (option string * Z)) (s : tfs),
    let s' := fst (open_each requests s) in
    let hs := handles (snd (open_each requests s)) in
    NoDup hs
    /\ forall h, In h hs ->
         0 <= h < MAX_OPEN_FILES
         /\ free_open_file_entries (fs_state_s s) h = FREE
         /\ free_open_file_entries (fs_state_s s') h = TAKEN.
Proof.
  intros requests s. cbn zeta.
  destruct (open_each_handles requests s) as (Hnodup & Hin & _).
  split; assumption.
Qed.

(** ** [tfs_init] *)

Lemma tfs_init_state s0 :
  exists inode dir,
    fst (tfs_init s0)
    = mk_tfs
        (mk_inode_table
           (upd (upd (inode_table (inode_table_s s0)) ROOT_DIR_INUM inode)
              ROOT_DIR_INUM (mk_inode T_DIRECTORY BLOCK_SIZE 0 (fun _ => -1)))
           (upd (fill (freeinode_ts (inode_table_s s0)) 0 INODE_TABLE_SIZE FREE)
              ROOT_DIR_INUM TAKEN))
        (mk_data_blocks (fs_data (data_blocks_s s0)) dir
           (upd (fill (free_blocks (data_blocks_s s0)) 0 DATA_BLOCKS FREE) 0 TAKEN))
        (mk_fs_state (open_file_table (fs_state_s s0))
           (fill (free_open_file_entries (fs_state_s s0)) 0 MAX_OPEN_FILES FREE)).
Proof. eexists _, _. reflexivity. Qed.

Lemma fill_inside {A} (a : Z -> A) lo hi x j :
  lo <= j < hi -> fill a lo hi x j = x.
Proof.
  intros H. unfold fill.
  destruct (Z.leb_spec lo j); [|lia]. destruct (Z.ltb_spec j hi); [|lia].
  reflexivity.
Qed.

(** Whatever the three global structures held before, [tfs_init] returns
    0 and leaves an empty file system: the root directory is inode 0 on
    block 0, no other inode and no other block is taken, no handle is
    open, and [tfs_lookup] resolves no path.  The entries of the root
    directory are written into block 0; the bytes of the other blocks of
    the pool and the fields of the other inodes are not cleared. *)
Theorem tfs_init_resets :
  forall s0 : tfs,
    let s := fst (tfs_init s0) in
    snd (tfs_init s0) = 0
    /\ inode_of s ROOT_DIR_INUM = mk_inode T_DIRECTORY BLOCK_SIZE 0 (fun _ => -1)
    /\ (forall i, 0 <= i < INODE_TABLE_SIZE ->
          freeinode_ts (inode_table_s s) i = if i =? 0 then TAKEN else FREE)
    /\ (forall b, 0 <= b < DATA_BLOCKS ->
          free_blocks (data_blocks_s s) b = if b =? 0 then TAKEN else FREE)
    /\ (forall h, 0 <= h < MAX_OPEN_FILES ->
          free_open_file_entries (fs_state_s s) h = FREE)
    /\ (forall name, tfs_lookup name s = -1)
    /\ (forall a, a < 0 \/ BLOCK_SIZE <= a ->
          fs_data (data_blocks_s s) a = fs_data (data_blocks_s s0) a)
    /\ (forall i, i <> ROOT_DIR_INUM -> inode_of s i = inode_of s0 i).
Proof.
  intros s0. cbn zeta.
  split; [reflexivity|]. split; [reflexivity|].
  split; [|split; [|split; [|split; [|split]]]].
  - intros i Hi. destruct (tfs_init_state s0) as (inode & dir & ->).
    cbn [inode_table_s freeinode_ts].
    destruct (Z.eqb_spec i 0) as [->|Hne]; [apply upd_eq|].
    rewrite upd_neq by exact Hne. now apply fill_inside.
  - intros b Hb. destruct (tfs_init_state s0) as (inode & dir & ->).
    cbn [data_blocks_s free_blocks].
    destruct (Z.eqb_spec b 0) as [->|Hne]; [apply upd_eq|].
    rewrite upd_neq by exact Hne. now apply fill_inside.
  - intros h Hh. destruct (tfs_init_state s0) as (inode & dir & ->).
    cbn [fs_state_s free_open_file_entries]. now apply fill_inside.
  - intros name. unfold tfs_lookup.
    destruct (valid_pathname name); reflexivity.
  - intros a _. reflexivity.
  - intros i Hi. destruct (tfs_init_state s0) as (inode & dir & ->).
    unfold inode_of. cbn [inode_table_s inode_table].
    now rewrite !upd_neq by exact Hi.
Qed.

(** ** Paths and [tfs_open] *)

Lemma valid_pathname_iff name :
  valid_pathname name = true
  <-> exists c t, name = Some (String "/" (String c t)).
Proof.
  unfold valid_pathname, strlen. split.
  - destruct name as [[|c0 [|c t]]|]; cbn; try discriminate.
    intros H. apply andb_prop in H. destruct H as [_ H].
    apply Ascii.eqb_eq in H. subst c0. now exists c, t.
  - intros (c & t & ->).
    apply andb_true_intro. split; [|reflexivity].
    apply Z.ltb_lt. cbn [String.length]. lia.
Qed.

(** A path is accepted exactly when it is a slash followed by at least
    one more byte.  For any other path, NULL included, [tfs_lookup] and
    [tfs_open] return -1; and so does [tfs_open] for a path that does
    not resolve when the flags do not ask for the creation of the file.
    In each of these cases the state is left as it was. *)
Theorem tfs_open_rejects :
  forall (s : tfs) (name : option string) (flags : Z),
    (valid_pathname name = true
     <-> exists c t, name = Some (String "/" (String c t)))
    /\ (valid_pathname name = false ->
        tfs_lookup name s = -1 /\ tfs_open name flags s = (s, -1))
    /\ (tfs_lookup name s < 0 ->
        flag_set flags TFS_O_CREAT = false ->
        tfs_open name flags s = (s, -1)).
Proof.
  intros s name flags. split; [apply valid_pathname_iff|]. split.
  - intros Hv. unfold tfs_lookup, tfs_open. rewrite Hv. split; reflexivity.
  - intros Hnone Hflag. unfold tfs_open.
    destruct (valid_pathname name); [|reflexivity]. cbn [negb].
    destruct (Z.leb_spec 0 (tfs_lookup name s)) as [?|_]; [lia|].
    rewrite Hflag. reflexivity.
Qed.

Lemma tfs_open_existing_spec :
  forall (s : tfs) (name : option string) (flags : Z),
    0 <= tfs_lookup name s ->
    flag_set flags TFS_O_TRUNC = false ->
    snd (tfs_open name flags s) <> -1 ->
    let inum := tfs_lookup name s in
    let s' := fst (tfs_open name flags s) in
    let fh := snd (tfs_open name flags s) in
    0 <= fh < MAX_OPEN_FILES
    /\ free_open_file_entries (fs_state_s s) fh = FREE
    /\ entry_of s' fh
       = mk_open_file_entry inum
           (if flag_set flags TFS_O_APPEND then i_size (inode_of s inum) else 0)
    /\ inode_table_s s' = inode_table_s s
    /\ data_blocks_s s' = data_blocks_s s
    /\ forall h, h <> fh -> entry_of s' h = entry_of s h.
Proof.
  intros s name flags Hfound Htrunc Hok. cbn zeta.
  pose proof (tfs_lookup_resolves name s Hfound) as Hvalid.
  destruct (tfs_open_handle name flags s)
    as [(Hr & _)|(Hfh & Hfree & _ & _ & Hrest)]; [contradiction|].
  unfold tfs_open in *. rewrite Hvalid in *. cbn [negb] in *.
  destruct (Z.leb_spec 0 (tfs_lookup name s)) as [_|?]; [|lia].
  unfold inode_get in *.
  destruct (valid_inumber (tfs_lookup name s)); cbn [negb] in *;
    [|cbn [snd] in Hok; congruence].
  rewrite Htrunc in *. cbn [andb] in *.
  fold (inode_of s (tfs_lookup name s)) in *.
  set (offset := if flag_set flags TFS_O_APPEND
                 then i_size (inode_of s (tfs_lookup name s)) else 0) in *.
  destruct (tfs_open_add (tfs_lookup name s) offset s) as [s' fh] eqn:Hadd.
  cbn [fst snd] in *.
  destruct (tfs_open_add_found _ _ _ _ _ Hadd Hok) as (_ & Hentry & Hit & Hd).
  repeat split; auto; lia.
Qed.

(** Opening a file that exists, without truncation.  The handle is a new
    entry of the open-file table that names the inode of the file; its
    offset is the size of the file when the flags hold APPEND and 0
    otherwise.  Inodes, data blocks and the other entries of the table
    are as before (the CREATE flag plays no part). *)
Theorem tfs_open_existing :
  forall (s : tfs) (name : option string) (flags : Z),
    0 <= tfs_lookup name s ->
    flag_set flags TFS_O_TRUNC = false ->
    snd (tfs_open name flags s) <> -1 ->
    let inum := tfs_lookup name s in
    let s' := fst (tfs_open name flags s) in
    let fh := snd (tfs_open name flags s) in
    0 <= fh < MAX_OPEN_FILES
    /\ free_open_file_entries (fs_state_s s) fh = FREE
    /\ entry_of s' fh
       = mk_open_file_entry inum
           (if flag_set flags TFS_O_APPEND then i_size (inode_of s inum) else 0)
    /\ inode_table_s s' = inode_table_s s
    /\ data_blocks_s s' = data_blocks_s s
    /\ forall h, h <> fh -> entry_of s' h = entry_of s h.
Proof. exact tfs_open_existing_spec. Qed.

Lemma tfs_open_existing_witness :
  let s := hello_closed in
  let name := Some "/a"%string in
  let flags := TFS_O_APPEND in
  let inum := tfs_lookup name s in
  let s' := fst (tfs_open name flags s) in
  let fh := snd (tfs_open name flags s) in
  0 <= fh < MAX_OPEN_FILES
  /\ free_open_file_entries (fs_state_s s) fh = FREE
  /\ entry_of s' fh
     = mk_open_file_entry inum
         (if flag_set flags TFS_O_APPEND then i_size (inode_of s inum) else 0)
  /\ inode_table_s s' = inode_table_s s
  /\ data_blocks_s s' = data_blocks_s s
  /\ forall h, h <> fh -> entry_of s' h = entry_of s h.
Proof.
  apply (tfs_open_existing hello_closed (Some "/a"%string) TFS_O_APPEND).
  - vm_compute. discriminate.
  - reflexivity.
  - vm_compute. discriminate.
Defined.

(** ** A full open-file table *)

Lemma find_in_dir_frame inumber sub_name s t :
  inode_table_s t = inode_table_s s ->
  data_blocks_s t = data_blocks_s s ->
  find_in_dir inumber sub_name t = find_in_dir inumber sub_name s.
Proof. intros Hi Hd. unfold find_in_dir. now rewrite Hi, Hd. Qed.

(** The note at the end of [tfs_open]: when the file is created but no
    entry of the open-file table is free, [tfs_open] returns -1 and the
    file stays created.  For a name of at most [MAX_FILE_NAME - 1] bytes
    the path resolves to the new inode afterwards, and the open-file
    table is untouched. *)
Theorem tfs_open_full_table_keeps_file :
  forall (s : tfs) (name : option string) (flags : Z),
    valid_pathname name = true ->
    strlen (skip_char name) <= MAX_FILE_NAME - 1 ->
    tfs_lookup name s = -1 ->
    flag_set flags TFS_O_CREAT = true ->
    snd (inode_create T_FILE s) <> -1 ->
    snd (add_dir_entry ROOT_DIR_INUM (snd (inode_create T_FILE s))
           (skip_char name) (fst (inode_create T_FILE s))) = 0 ->
    (forall h, 0 <= h < MAX_OPEN_FILES ->
       free_open_file_entries (fs_state_s s) h = TAKEN) ->
    let s' := fst (tfs_open name flags s) in
    snd (tfs_open name flags s) = -1
    /\ tfs_lookup name s' = snd (inode_create T_FILE s)
    /\ freeinode_ts (inode_table_s s') (snd (inode_create T_FILE s)) = TAKEN
    /\ fs_state_s s' = fs_state_s s.
Proof.
  intros s name flags Hvalid Hlen Hnone Hflag Hinode Hadd Hfull. cbn zeta.
  unfold tfs_open, tfs_lookup in *. rewrite Hvalid in *. cbn [negb] in *.
  rewrite Hnone. change (0 <=? -1) with false. cbn iota. rewrite Hflag.
  destruct (inode_create_file s (fst (inode_create T_FILE s))
              (snd (inode_create T_FILE s)))
    as (Hr & Hfree & _ & Hs1);
    [now destruct (inode_create T_FILE s)|exact Hinode|].
  destruct (inode_create T_FILE s) as [s1 inum]. cbn [fst snd] in *.
  destruct (Z.eqb_spec inum (-1)) as [?|_]; [contradiction|].
  destruct (add_dir_entry_checks ROOT_DIR_INUM inum (skip_char name) s1)
    as (_ & _ & Htype & _ & _); [lia|].
  assert (Hroot : inum <> ROOT_DIR_INUM).
  { intros ->. rewrite Hs1 in Htype. unfold inode_of, set_inode in Htype.
    cbn [inode_table_s inode_table] in Htype. rewrite upd_eq in Htype.
    discriminate. }
  assert (Hnone1 : find_in_dir ROOT_DIR_INUM (skip_char name) s1 = -1).
  { rewrite <- Hnone. rewrite Hs1. unfold find_in_dir, set_inode, set_freeinode.
    cbn [inode_table_s inode_table data_blocks_s].
    now rewrite upd_neq by congruence. }
  destruct (find_in_dir_add_dir_entry s1 ROOT_DIR_INUM inum (skip_char name)
              Hadd Hlen Hnone1) as [Hfound _].
  destruct (add_dir_entry_frame ROOT_DIR_INUM inum (skip_char name) s1)
    as [Hit2 Hfs2].
  destruct (add_dir_entry ROOT_DIR_INUM inum (skip_char name) s1) as [s2 r].
  cbn [fst snd] in *. subst r. change (0 =? -1) with false. cbn iota.
  assert (Hfs : fs_state_s s2 = fs_state_s s).
  { rewrite Hfs2, Hs1. reflexivity. }
  unfold tfs_open_add.
  destruct (add_to_open_file_table_first_free inum 0 (fs_state_s s2))
    as [(Hrun & _)|(h & Hh & Hhfree & _)].
  - rewrite Hrun. cbn [fst snd].
    split; [reflexivity|]. split; [|split].
    + rewrite (find_in_dir_frame _ _ s2); [exact Hfound|reflexivity|reflexivity].
    + cbn [set_fs_state inode_table_s]. rewrite Hit2, Hs1.
      cbn [set_inode set_freeinode inode_table_s freeinode_ts]. apply upd_eq.
    + cbn [set_fs_state fs_state_s]. exact Hfs.
  - rewrite Hfs, Hfull in Hhfree by exact Hh. discriminate.
Qed.

Lemma tfs_open_full_table_keeps_file_witness :
  let s := full_table in
  let name := Some "/b"%string in
  let flags := TFS_O_CREAT in
  let s' := fst (tfs_open name flags s) in
  snd (tfs_open name flags s) = -1
  /\ tfs_lookup name s' = snd (inode_create T_FILE s)
  /\ freeinode_ts (inode_table_s s') (snd (inode_create T_FILE s)) = TAKEN
  /\ fs_state_s s' = fs_state_s s.
Proof.
  apply (tfs_open_full_table_keeps_file full_table (Some "/b"%string) TFS_O_CREAT).
  - reflexivity.
  - vm_compute. discriminate.
  - reflexivity.
  - reflexivity.
  - vm_compute. discriminate.
  - reflexivity.
  - intros h Hh.
    assert (Hcases : h = 0 \/ h = 1 \/ h = 2 \/ h = 3 \/ h = 4 \/ h = 5 \/ h = 6
                     \/ h = 7 \/ h = 8 \/ h = 9 \/ h = 10 \/ h = 11 \/ h = 12
                     \/ h = 13 \/ h = 14 \/ h = 15 \/ h = 16 \/ h = 17 \/ h = 18
                     \/ h = 19) by lia.
    repeat (destruct Hcases as [->|Hcases]; [reflexivity|]).
    subst h. reflexivity.
Defined.

(** ** Appending to the file laid out from the bottom of the pool *)

Lemma write_chunk_at j r ws :
  0 <= r < BLOCK_SIZE -> 0 < ws < 2 ^ 64 ->
  write_chunk (BLOCK_SIZE * j + r) ws
  = (Z.min ws (BLOCK_SIZE - r), ws - Z.min ws (BLOCK_SIZE - r)).
Proof.
  intros Hr Hws. unfold write_chunk.
  replace ((BLOCK_SIZE * j + r) mod BLOCK_SIZE) with r by dlia.
  destruct (Z.geb_spec ws BLOCK_SIZE); cbn [orb].
  - rewrite size_sub_small by lia. f_equal; lia.
  - destruct (Z.ltb_spec (BLOCK_SIZE - r) ws).
    + rewrite size_sub_small by lia. f_equal; lia.
    + f_equal; lia.
Qed.

(** The block the direct loop writes to in one iteration: a new one when
    the size is on a block boundary, the working block otherwise. *)
Lemma direct_block_step j r inode d :
  0 <= j < MAX_DIRECT_BLOCKS -> 0 <= r < BLOCK_SIZE ->
  i_size inode = BLOCK_SIZE * j + r ->
  (0 < r -> i_data_block inode = j + 1) ->
  pool_prefix d (j + 1 + (if 0 <? r then 1 else 0)) ->
  exists inode1 d1,
    (if i_size inode mod BLOCK_SIZE =? 0
     then direct_block_insert inode d else Some (inode, d, 0))
    = Some (inode1, d1, 0)
    /\ i_data_block inode1 = j + 1
    /\ i_size inode1 = i_size inode
    /\ i_node_type inode1 = i_node_type inode
    /\ i_block inode1 MAX_DIRECT_BLOCKS = i_block inode MAX_DIRECT_BLOCKS
    /\ pool_prefix d1 (j + 2)
    /\ fs_dir d1 = fs_dir d
    /\ forall a, a < block_addr (j + 1) + r -> fs_data d1 a = fs_data d a.
Proof.
  intros Hj Hr Hsz Hwork Hpool. rewrite Hsz.
  replace ((BLOCK_SIZE * j + r) mod BLOCK_SIZE) with r by dlia.
  destruct (Z.eqb_spec r 0) as [->|Hne].
  - change (0 <? 0) with false in Hpool. rewrite Z.add_0_r in Hpool.
    unfold direct_block_insert.
    rewrite (data_block_alloc_prefix d (j + 1)) by (auto; lia).
    records.
    rewrite data_block_get_addr by lia.
    destruct (Z.eqb_spec (j + 1) (-1)) as [?|_]; [lia|].
    replace (j + 1 - 1) with j by lia.
    destruct (Z.leb_spec 0 j) as [_|?]; [|lia].
    destruct (Z.ltb_spec j I_BLOCK_SIZE) as [_|?]; [|lia].
    cbn [andb]. eexists _, _. split; [reflexivity|]. records.
    repeat split; auto.
    + apply upd_neq. lia.
    + replace (j + 2) with (j + 1 + 1) by lia. apply pool_prefix_alloc. exact Hpool.
    + intros a Ha. apply memset_outside. lia.
  - destruct (Z.ltb_spec 0 r) as [Hpos|?]; [|lia].
    exists inode, d. repeat split; auto.
    now replace (j + 2) with (j + 1 + 1) by lia.
Qed.

Lemma tfs_write_direct_region_loop_append fuel :
  forall j r inode file d buffer ws bw,
    0 <= j -> 0 <= r < BLOCK_SIZE ->
    i_size inode = BLOCK_SIZE * j + r -> of_offset file = BLOCK_SIZE * j + r ->
    (0 < r -> i_data_block inode = j + 1) ->
    pool_prefix d (j + 1 + (if 0 <? r then 1 else 0)) ->
    0 <= ws -> BLOCK_SIZE * j + r + ws <= MAX_BYTES_DIRECT_DATA ->
    (0 < ws -> r + ws <= BLOCK_SIZE * Z.of_nat fuel) ->
    0 <= bw -> bw + ws < 2 ^ 63 ->
    exists inode' file' d',
      tfs_write_direct_region_loop fuel inode file d buffer ws bw
      = Some (inode', file', d', bw + ws)
      /\ direct_appended (BLOCK_SIZE * j + r) ws bw buffer
           inode file d inode' file' d'.
Proof.
  induction fuel as [|fuel IH];
    intros j r inode file d buffer ws bw Hj Hr Hsz Hoff Hwork Hpool Hws Hmax
      Hfuel Hbw Hsum.
  all: destruct (Z.eq_dec ws 0) as [->|Hpos];
    [ exists inode, file, d; split;
      [ rewrite tfs_write_direct_region_loop_done;
        rewrite to_ssize_t_small by lia; do 2 f_equal; lia
      | constructor; auto; try lia;
        rewrite Z.add_0_r;
        replace (1 + blocks_for (BLOCK_SIZE * j + r))
          with (j + 1 + (if 0 <? r then 1 else 0));
        [ exact Hpool
        | unfold blocks_for; destruct (Z.ltb_spec 0 r); dlia ] ]
    | ].
  - lia.
  - assert (Hj' : 0 <= j < MAX_DIRECT_BLOCKS) by lia.
    cbn [tfs_write_direct_region_loop].
    destruct (Z.ltb_spec 0 ws) as [_|?]; [|lia]. cbn [negb].
    destruct (direct_block_step j r inode d Hj' Hr Hsz Hwork Hpool)
      as (inode1 & d1 & Hstep & Hblk & Hsz1 & Hty1 & Hslot1 & Hpool1 & Hdir1 & Hkept1).
    rewrite Hstep. cbn beta iota.
    change (0 =? -1) with false. cbn iota.
    rewrite Hblk, data_block_get_addr by lia.
    rewrite Hoff, write_chunk_at by lia.
    replace ((BLOCK_SIZE * j + r) mod BLOCK_SIZE) with r by dlia.
    rewrite Hsz1, Hsz, !size_add_small by lia.
    set (chunk := Z.min ws (BLOCK_SIZE - r)).
    assert (Hchunk : 0 < chunk <= ws /\ chunk <= BLOCK_SIZE - r) by (unfold chunk; lia).
    destruct (Z.eq_dec chunk ws) as [Hlast|Hmore].
    + (* the write ends in this block *)
      rewrite Hlast. replace (ws - ws) with 0 by lia.
      rewrite tfs_write_direct_region_loop_done.
      rewrite to_ssize_t_small by lia.
      eexists _, _, _. split; [reflexivity|].
      constructor; records; auto; try lia.
      * replace (1 + blocks_for (BLOCK_SIZE * j + r + ws)) with (j + 2)
          by (unfold blocks_for; dlia).
        apply (pool_prefix_data d1 _ _ Hpool1).
      * intros i Hi.
        rewrite memcpy_inside by (unfold direct_addr, block_addr; dlia).
        unfold ptr_add. f_equal. unfold direct_addr, block_addr. dlia.
      * intros a Ha.
        rewrite memcpy_outside by (unfold direct_addr, block_addr in *; dlia).
        apply Hkept1. unfold direct_addr, block_addr in *. dlia.
      * intros _. rewrite Hblk. unfold blocks_for. dlia.
    + (* the block is filled and the write goes on in the next one *)
      assert (Hfill : chunk = BLOCK_SIZE - r) by (unfold chunk in *; lia).
      rewrite Hfill.
      match goal with
      | |- exists _ _ _, tfs_write_direct_region_loop _ ?ino ?fil ?dd _ _ _ = _ /\ _ =>
          destruct (IH (j + 1) 0 ino fil dd buffer (ws - (BLOCK_SIZE - r))
                       (bw + (BLOCK_SIZE - r)))
            as (inode' & file' & d' & Hrun & Hpost)
      end; try (records; lia).
      { change (0 <? 0) with false. rewrite Z.add_0_r.
        replace (j + 1 + 1) with (j + 2) by lia.
        apply (pool_prefix_data d1 _ _ Hpool1). }
      exists inode', file', d'. split.
      * rewrite Hrun. do 2 f_equal. lia.
      * destruct Hpost as [Ps Po Pi Pt Pp Pd Pb Pk Pl Pz Pw].
        records.
        replace (BLOCK_SIZE * (j + 1) + 0 + (ws - (BLOCK_SIZE - r)))
          with (BLOCK_SIZE * j + r + ws) in * by lia.
        constructor; auto; try lia.
        -- congruence.
        -- congruence.
        -- intros i Hi.
           destruct (Z.lt_ge_cases i (BLOCK_SIZE - r)) as [Hfirst|Hlater].
           ++ rewrite Pk by (unfold direct_addr, block_addr; dlia).
              rewrite memcpy_inside by (unfold direct_addr, block_addr; dlia).
              unfold ptr_add. f_equal. unfold direct_addr, block_addr. dlia.
           ++ replace (BLOCK_SIZE * j + r + i)
                with (BLOCK_SIZE * (j + 1) + 0 + (i - (BLOCK_SIZE - r))) by lia.
              rewrite Pb by lia. f_equal. lia.
        -- intros a Ha.
           rewrite Pk by (unfold direct_addr, block_addr in *; dlia).
           rewrite memcpy_outside by (unfold direct_addr, block_addr in *; dlia).
           apply Hkept1. unfold direct_addr, block_addr in *. dlia.
Qed.

(** The same for one iteration of the indirect loop. *)
Lemma indirect_block_step j r inode d :
  MAX_DIRECT_BLOCKS <= j -> BLOCK_SIZE * j + r < MAX_BYTES ->
  0 <= r < BLOCK_SIZE ->
  i_size inode = BLOCK_SIZE * j + r ->
  (0 < r -> i_data_block inode = j + 2) ->
  pool_prefix d (j + 2 + (if 0 <? r then 1 else 0)) ->
  i_block inode MAX_DIRECT_BLOCKS = REFERENCE_BLOCK_INDEX ->
  exists inode1 d1,
    (if i_size inode mod BLOCK_SIZE =? 0
     then indirect_block_insert inode d else Some (inode, d, 0))
    = Some (inode1, d1, 0)
    /\ i_data_block inode1 = j + 2
    /\ i_size inode1 = i_size inode
    /\ i_node_type inode1 = i_node_type inode
    /\ i_block inode1 = i_block inode
    /\ pool_prefix d1 (j + 3)
    /\ fs_dir d1 = fs_dir d
    /\ forall a, a < block_addr (j + 2) + r -> ~ in_reference_block a ->
         fs_data d1 a = fs_data d a.
Proof.
  intros Hj Hmax Hr Hsz Hwork Hpool Href. rewrite Hsz.
  replace ((BLOCK_SIZE * j + r) mod BLOCK_SIZE) with r by dlia.
  destruct (Z.eqb_spec r 0) as [->|Hne].
  - change (0 <? 0) with false in Hpool. rewrite Z.add_0_r in Hpool.
    rewrite (indirect_block_insert_seq inode d (j + 2)) by (auto; lia).
    eexists _, _. split; [reflexivity|]. records.
    repeat split; auto.
    + replace (j + 3) with (j + 2 + 1) by lia. apply pool_prefix_alloc. exact Hpool.
    + intros a Ha Hnr. change (BLOCK_SIZE / INT_SIZE) with 256.
      rewrite store_int_outside
        by (unfold in_reference_block, block_addr in *; lia).
      apply memset_outside. lia.
  - destruct (Z.ltb_spec 0 r) as [Hpos|?]; [|lia].
    exists inode, d. repeat split; auto.
    now replace (j + 3) with (j + 2 + 1) by lia.
Qed.

Lemma tfs_write_indirect_region_loop_append fuel :
  forall j r inode file d buffer ws bw,
    MAX_DIRECT_BLOCKS <= j -> 0 <= r < BLOCK_SIZE ->
    i_size inode = BLOCK_SIZE * j + r -> of_offset file = BLOCK_SIZE * j + r ->
    (0 < r -> i_data_block inode = j + 2) ->
    pool_prefix d (j + 2 + (if 0 <? r then 1 else 0)) ->
    i_block inode MAX_DIRECT_BLOCKS = REFERENCE_BLOCK_INDEX ->
    0 <= ws -> BLOCK_SIZE * j + r + ws <= MAX_BYTES ->
    ws <= Z.of_nat fuel ->
    0 <= bw -> bw + ws < 2 ^ 63 ->
    exists inode' file' d',
      tfs_write_indirect_region_loop fuel inode file d buffer ws bw
      = Some (inode', file', d', bw + ws)
      /\ indirect_appended (BLOCK_SIZE * j + r) ws bw buffer
           inode file d inode' file' d'.
Proof.
  induction fuel as [|fuel IH];
    intros j r inode file d buffer ws bw Hj Hr Hsz Hoff Hwork Hpool Href Hws Hmax
      Hfuel Hbw Hsum.
  all: destruct (Z.eq_dec ws 0) as [->|Hpos];
    [ exists inode, file, d; split;
      [ rewrite tfs_write_indirect_region_loop_done;
        rewrite to_ssize_t_small by lia; do 2 f_equal; lia
      | constructor; auto; try lia;
        rewrite Z.add_0_r;
        replace (2 + blocks_for (BLOCK_SIZE * j + r))
          with (j + 2 + (if 0 <? r then 1 else 0));
        [ exact Hpool
        | unfold blocks_for; destruct (Z.ltb_spec 0 r); dlia ] ]
    | ].
  - lia.
  - cbn [tfs_write_indirect_region_loop].
    destruct (Z.ltb_spec 0 ws) as [_|?]; [|lia]. cbn [negb].
    destruct (indirect_block_step j r inode d Hj ltac:(lia) Hr Hsz Hwork Hpool Href)
      as (inode1 & d1 & Hstep & Hblk & Hsz1 & Hty1 & Hslots1 & Hpool1 & Hdir1 & Hkept1).
    rewrite Hsz in Hstep |- *. rewrite size_add_small by lia.
    destruct (Z.gtb_spec (BLOCK_SIZE * j + r + ws) MAX_BYTES) as [?|_]; [lia|].
    rewrite Hstep. cbn beta iota.
    change (0 =? -1) with false. cbn iota.
    rewrite Hblk, data_block_get_addr by lia.
    rewrite Hoff, write_chunk_at by lia.
    replace ((BLOCK_SIZE * j + r) mod BLOCK_SIZE) with r by dlia.
    rewrite Hsz1, !size_add_small by lia.
    set (chunk := Z.min ws (BLOCK_SIZE - r)).
    assert (Hchunk : 0 < chunk <= ws /\ chunk <= BLOCK_SIZE - r) by (unfold chunk; lia).
    destruct (Z.eq_dec chunk ws) as [Hlast|Hmore].
    + rewrite Hlast. replace (ws - ws) with 0 by lia.
      rewrite tfs_write_indirect_region_loop_done.
      rewrite to_ssize_t_small by lia.
      eexists _, _, _. split; [reflexivity|].
      constructor; records; auto; try lia.
      * replace (2 + blocks_for (BLOCK_SIZE * j + r + ws)) with (j + 3)
          by (unfold blocks_for; dlia).
        apply (pool_prefix_data d1 _ _ Hpool1).
      * intros i Hi.
        rewrite memcpy_inside by (unfold indirect_addr, block_addr; dlia).
        unfold ptr_add. f_equal. unfold indirect_addr, block_addr. dlia.
      * intros a Ha Hnr.
        rewrite memcpy_outside by (unfold indirect_addr, block_addr in *; dlia).
        apply Hkept1; [|exact Hnr]. unfold indirect_addr, block_addr in *. dlia.
      * intros _. rewrite Hblk. unfold blocks_for. dlia.
    + assert (Hfill : chunk = BLOCK_SIZE - r) by (unfold chunk in *; lia).
      rewrite Hfill.
      match goal with
      | |- exists _ _ _, tfs_write_indirect_region_loop _ ?ino ?fil ?dd _ _ _ = _ /\ _ =>
          destruct (IH (j + 1) 0 ino fil dd buffer (ws - (BLOCK_SIZE - r))
                       (bw + (BLOCK_SIZE - r)))
            as (inode' & file' & d' & Hrun & Hpost)
      end; try (records; lia).
      { change (0 <? 0) with false. rewrite Z.add_0_r.
        replace (j + 1 + 2) with (j + 3) by lia.
        apply (pool_prefix_data d1 _ _ Hpool1). }
      { records. now rewrite Hslots1. }
      exists inode', file', d'. split.
      * rewrite Hrun. do 2 f_equal. lia.
      * destruct Hpost as [Ps Po Pi Pt Pp Pd Pb Pk Pl Pz Pw].
        records.
        replace (BLOCK_SIZE * (j + 1) + 0 + (ws - (BLOCK_SIZE - r)))
          with (BLOCK_SIZE * j + r + ws) in * by lia.
        constructor; auto; try lia.
        -- congruence.
        -- congruence.
        -- intros i Hi.
           destruct (Z.lt_ge_cases i (BLOCK_SIZE - r)) as [Hfirst|Hlater].
           ++ rewrite Pk.
              ** rewrite memcpy_inside by (unfold indirect_addr, block_addr; dlia).
                 unfold ptr_add. f_equal. unfold indirect_addr, block_addr. dlia.
              ** unfold indirect_addr, block_addr. dlia.
              ** unfold in_reference_block, indirect_addr, block_addr. dlia.
           ++ replace (BLOCK_SIZE * j + r + i)
                with (BLOCK_SIZE * (j + 1) + 0 + (i - (BLOCK_SIZE - r))) by lia.
              rewrite Pb by lia. f_equal. lia.
        -- intros a Ha Hnr.
           rewrite Pk; [|unfold indirect_addr, block_addr in *; dlia|exact Hnr].
           rewrite memcpy_outside by (unfold indirect_addr, block_addr in *; dlia).
           apply Hkept1; [|exact Hnr]. unfold indirect_addr, block_addr in *. dlia.
        -- congruence.
Qed.

Lemma direct_addr_lt B C :
  0 <= B < C -> direct_addr B < direct_addr C.
Proof. intros H. unfold direct_addr, block_addr. dlia. Qed.

Lemma tfs_write_sole_file :
  forall (s : tfs) (fh inum n m : Z) (content buf : buffer_t),
    sole_file s inum n content ->
    0 <= fh < MAX_OPEN_FILES ->
    entry_of s fh = mk_open_file_entry inum n ->
    0 < m -> n + m <= MAX_BYTES ->
    exists s',
      tfs_write fh buf m s = Some (s', m)
      /\ sole_file s' inum (n + m) (appended content n buf)
      /\ entry_of s' fh = mk_open_file_entry inum (n + m)
      /\ (forall i, i <> inum -> inode_of s' i = inode_of s i)
      /\ (forall h, h <> fh -> entry_of s' h = entry_of s h)
      /\ fs_dir (data_blocks_s s') = fs_dir (data_blocks_s s)
      /\ freeinode_ts (inode_table_s s') = freeinode_ts (inode_table_s s)
      /\ free_open_file_entries (fs_state_s s')
         = free_open_file_entries (fs_state_s s).
Proof.
  intros s fh inum n m content buf [Hinum Hlim Hsz Hbytes Hpool Hwork Href]
    Hfh Hent Hm Hmax.
  set (j := n / BLOCK_SIZE). set (r := n mod BLOCK_SIZE).
  assert (Hn : n = BLOCK_SIZE * j + r) by (unfold j, r; dlia).
  assert (Hr : 0 <= r < BLOCK_SIZE) by (unfold r; dlia).
  assert (Hj : 0 <= j) by (unfold j; dlia).
  assert (Hbf : blocks_for n = j + (if 0 <? r then 1 else 0)).
  { unfold blocks_for. destruct (Z.ltb_spec 0 r); dlia. }
  clearbody j r.
  unfold tfs_write.
  destruct (Z.eqb_spec m 0) as [?|_]; [lia|].
  rewrite (get_open_file_entry_valid _ Hfh).
  fold (entry_of s fh). rewrite Hent. cbn [of_inumber].
  rewrite (inode_get_valid _ Hinum).
  fold (inode_of s inum). rewrite Hsz.
  rewrite size_add_small by lia.
  assert (Hframe : forall inode' file' d',
             of_inumber file' = inum -> of_offset file' = n + m ->
             fs_dir d' = fs_dir (data_blocks_s s) ->
             sole_file (commit s inum fh inode' file' d') inum (n + m)
               (appended content n buf) ->
             sole_file (commit s inum fh inode' file' d') inum (n + m)
               (appended content n buf)
             /\ entry_of (commit s inum fh inode' file' d') fh
                = mk_open_file_entry inum (n + m)
             /\ (forall i, i <> inum ->
                   inode_of (commit s inum fh inode' file' d') i = inode_of s i)
             /\ (forall h, h <> fh ->
                   entry_of (commit s inum fh inode' file' d') h = entry_of s h)
             /\ fs_dir (data_blocks_s (commit s inum fh inode' file' d'))
                = fs_dir (data_blocks_s s)
             /\ freeinode_ts (inode_table_s (commit s inum fh inode' file' d'))
                = freeinode_ts (inode_table_s s)
             /\ free_open_file_entries
                  (fs_state_s (commit s inum fh inode' file' d'))
                = free_open_file_entries (fs_state_s s)).
  { intros inode' file' d' Hi Ho Hd Hsole.
    destruct (commit_frame s inum fh inode' file' d') as (Cd & Ci & Cf & Ce & Cfe).
    rewrite commit_entry, Cd.
    split; [exact Hsole|]. split; [now apply open_file_entry_eta|].
    split; [exact Ci|]. split; [exact Ce|]. split; [exact Hd|].
    split; [exact Cf|exact Cfe]. }
  destruct (Z.leb_spec (n + m) MAX_BYTES_DIRECT_DATA) as [Hdir|Hbig].
  - (* the direct region takes everything *)
    destruct (Z.ltb_spec MAX_BYTES_DIRECT_DATA n) as [?|_]; [lia|].
    rewrite Z.add_0_r in *.
    unfold tfs_write_direct_region.
    destruct (tfs_write_direct_region_loop_append (Z.to_nat REFERENCE_BLOCK_INDEX)
                j r (inode_of s inum) (mk_open_file_entry inum n)
                (data_blocks_s s) buf m 0)
      as (inode' & file' & d' & Hrun & Hpost); try (cbn [of_offset]; lia).
    { intros Hpos. rewrite Hwork by lia. rewrite Hbf.
      destruct (Z.ltb_spec 0 r); lia. }
    { now replace (j + 1 + (if 0 <? r then 1 else 0))
        with (1 + blocks_for n) by lia. }
    rewrite Hrun. cbn beta iota. rewrite Z.add_0_l.
    destruct (Z.eqb_spec m (-1)) as [?|_]; [lia|].
    rewrite to_size_t_small, to_ssize_t_small by lia.
    eexists. split; [reflexivity|].
    destruct Hpost as [Ps Po Pi Pt Pp Pd Pb Pk Pl Pz Pw].
    rewrite <- Hn in *. cbn [of_inumber] in Pi.
    apply Hframe; auto.
    destruct (commit_frame s inum fh inode' file' d') as (Cd & _).
    constructor; rewrite ?commit_inode, ?Cd; auto; try lia.
    + intros B HB. unfold appended, file_addr.
      destruct (Z.ltb_spec B MAX_BYTES_DIRECT_DATA); [|lia].
      destruct (Z.ltb_spec B n) as [Hold|Hnew].
      * rewrite Pk by (apply direct_addr_lt; lia).
        rewrite <- Hbytes by lia. unfold file_addr.
        destruct (Z.ltb_spec B MAX_BYTES_DIRECT_DATA); [reflexivity|lia].
      * replace B with (n + (B - n)) at 1 by lia.
        rewrite Pb by lia. f_equal.
    + destruct (Z.ltb_spec MAX_BYTES_DIRECT_DATA (n + m)); [lia|].
      now rewrite Z.add_0_r.
    + intros _. destruct (Z.ltb_spec MAX_BYTES_DIRECT_DATA (n + m)); [lia|].
      rewrite Z.add_0_r. apply Pw. lia.
    + destruct (Z.ltb_spec MAX_BYTES_DIRECT_DATA (n + m)); [lia|].
      now rewrite Pl.
  - destruct (Z.geb_spec n MAX_BYTES_DIRECT_DATA) as [Hind|Hsplit].
    + (* the file has reached the indirect region *)
      assert (Hhandle : exists inode0 d0 status,
                 (if i_block (inode_of s inum) MAX_DIRECT_BLOCKS =? -1
                  then tfs_handle_indirect_block (inode_of s inum) (data_blocks_s s)
                  else Some (inode_of s inum, data_blocks_s s, 0))
                 = Some (inode0, d0, status)
                 /\ i_size inode0 = n
                 /\ i_node_type inode0 = i_node_type (inode_of s inum)
                 /\ (0 < r -> i_data_block inode0 = j + 2)
                 /\ i_block inode0 MAX_DIRECT_BLOCKS = REFERENCE_BLOCK_INDEX
                 /\ pool_prefix d0 (j + 2 + (if 0 <? r then 1 else 0))
                 /\ fs_dir d0 = fs_dir (data_blocks_s s)
                 /\ forall a, ~ in_reference_block a ->
                      fs_data d0 a = fs_data (data_blocks_s s) a).
      { destruct (Z.ltb_spec MAX_BYTES_DIRECT_DATA n) as [Hover|Hat].
        - rewrite Href.
          change (REFERENCE_BLOCK_INDEX =? -1) with false. cbn iota.
          eexists _, _, _. split; [reflexivity|].
          split; [exact Hsz|]. split; [reflexivity|].
          split; [|split; [exact Href|split; [|split; [reflexivity|reflexivity]]]].
          + intros Hpos. rewrite Hwork by lia. rewrite Hbf.
            destruct (Z.ltb_spec 0 r); lia.
          + now replace (j + 2 + (if 0 <? r then 1 else 0))
              with (1 + blocks_for n + 1) by lia.
        - rewrite Href.
          assert (Hten : n = MAX_BYTES_DIRECT_DATA) by lia.
          assert (j = MAX_DIRECT_BLOCKS /\ r = 0) as [-> ->] by lia.
          change (-1 =? -1) with true. cbn iota.
          replace (1 + blocks_for n + 0) with REFERENCE_BLOCK_INDEX in Hpool
            by (rewrite Hten; reflexivity).
          rewrite (tfs_handle_indirect_block_seq _ _ REFERENCE_BLOCK_INDEX)
            by (auto; lia).
          eexists _, _, _. split; [reflexivity|]. records.
          split; [exact Hsz|]. split; [reflexivity|].
          split; [lia|]. split; [apply upd_eq|].
          split; [|split; [reflexivity|]].
          + apply (pool_prefix_alloc _ REFERENCE_BLOCK_INDEX). exact Hpool.
          + intros a Ha. apply memset_outside.
            unfold in_reference_block, block_addr in *. lia. }
      destruct Hhandle as (inode0 & d0 & status & Hrun0 & Hsz0 & Hty0 & Hwork0
                           & Href0 & Hpool0 & Hdir0 & Hkept0).
      rewrite Hrun0. cbn beta iota.
      unfold tfs_write_indirect_region.
      destruct (tfs_write_indirect_region_loop_append (S (Z.to_nat m))
                  j r inode0 (mk_open_file_entry inum n) d0 buf m 0)
        as (inode' & file' & d' & Hrun & Hpost); try (cbn [of_offset]; lia); auto.
      rewrite Hrun. cbn beta iota. rewrite Z.add_0_l.
      destruct (Z.eqb_spec m (-1)) as [?|_]; [lia|].
      rewrite to_size_t_small, to_ssize_t_small by lia.
      eexists. split; [reflexivity|].
      destruct Hpost as [Ps Po Pi Pt Pp Pd Pb Pk Pl Pz Pw].
      rewrite <- Hn in *. cbn [of_inumber] in Pi.
      apply Hframe; auto; [congruence|].
      destruct (commit_frame s inum fh inode' file' d') as (Cd & _).
      assert (Hlt : (MAX_BYTES_DIRECT_DATA <? n + m) = true) by (apply Z.ltb_lt; lia).
      constructor; rewrite ?commit_inode, ?Cd, ?Hlt; auto; try lia.
      * intros B HB. unfold appended.
        destruct (Z.ltb_spec B n) as [Hold|Hnew].
        -- rewrite <- Hbytes by lia. unfold file_addr.
           destruct (Z.ltb_spec B MAX_BYTES_DIRECT_DATA).
           ++ rewrite Pk.
              ** apply Hkept0.
                 unfold in_reference_block, direct_addr, block_addr. dlia.
              ** unfold indirect_addr, direct_addr, block_addr. dlia.
              ** unfold in_reference_block, direct_addr, block_addr. dlia.
           ++ rewrite Pk.
              ** apply Hkept0.
                 unfold in_reference_block, indirect_addr, block_addr. dlia.
              ** unfold indirect_addr, block_addr. dlia.
              ** unfold in_reference_block, indirect_addr, block_addr. dlia.
        -- unfold file_addr.
           destruct (Z.ltb_spec B MAX_BYTES_DIRECT_DATA); [lia|].
           replace B with (n + (B - n)) at 1 by lia.
           rewrite Pb by lia. f_equal.
      * replace (1 + blocks_for (n + m) + 1) with (2 + blocks_for (n + m)) by lia.
        exact Pp.
      * rewrite Pl. exact Href0.
    + (* the write starts in the direct region and ends in the indirect one *)
      destruct (Z.ltb_spec MAX_BYTES_DIRECT_DATA n) as [?|_]; [lia|].
      rewrite Z.add_0_r in *.
      rewrite !size_sub_small by lia.
      unfold tfs_write_direct_region.
      destruct (tfs_write_direct_region_loop_append (Z.to_nat REFERENCE_BLOCK_INDEX)
                  j r (inode_of s inum) (mk_open_file_entry inum n)
                  (data_blocks_s s) buf (MAX_BYTES_DIRECT_DATA - n) 0)
        as (inode1 & file1 & d1 & Hrun1 & Hpost1); try (cbn [of_offset]; lia).
      { intros Hpos. rewrite Hwork by lia. rewrite Hbf.
        destruct (Z.ltb_spec 0 r); lia. }
      { now replace (j + 1 + (if 0 <? r then 1 else 0))
          with (1 + blocks_for n) by lia. }
      rewrite Hrun1. cbn beta iota.
      destruct Hpost1 as [Ps Po Pi Pt Pp Pd Pb Pk Pl Pz Pw].
      rewrite <- Hn in *. cbn [of_inumber] in Pi.
      replace (n + (MAX_BYTES_DIRECT_DATA - n)) with MAX_BYTES_DIRECT_DATA in *
        by lia.
      change (1 + blocks_for MAX_BYTES_DIRECT_DATA) with REFERENCE_BLOCK_INDEX in Pp.
      rewrite Pl, Href. change (-1 =? -1) with true. cbn beta iota.
      rewrite (tfs_handle_indirect_block_seq inode1 d1 REFERENCE_BLOCK_INDEX)
        by (auto; lia).
      rewrite Z.add_0_l.
      destruct (Z.eqb_spec (MAX_BYTES_DIRECT_DATA - n) (-1)) as [?|_]; [lia|].
      unfold tfs_write_indirect_region.
      match goal with
      | |- context [tfs_write_indirect_region_loop ?f ?ino ?fil ?dd ?b ?w 0] =>
          destruct (tfs_write_indirect_region_loop_append f MAX_DIRECT_BLOCKS 0
                      ino fil dd b w 0)
            as (inode3 & file3 & d3 & Hrun3 & Hpost3)
      end; try (records; lia).
      { apply (pool_prefix_alloc d1 REFERENCE_BLOCK_INDEX). exact Pp. }
      { records. apply upd_eq. }
      rewrite Hrun3. cbn beta iota. rewrite Z.add_0_l.
      destruct (Z.eqb_spec (m - (MAX_BYTES_DIRECT_DATA - n)) (-1)) as [?|_]; [lia|].
      rewrite to_size_t_small, to_ssize_t_small by lia.
      replace (MAX_BYTES_DIRECT_DATA - n + (m - (MAX_BYTES_DIRECT_DATA - n)))
        with m by lia.
      eexists. split; [reflexivity|].
      destruct Hpost3 as [Qs Qo Qi Qt Qp Qd Qb Qk Ql Qz Qw].
      records.
      replace (BLOCK_SIZE * MAX_DIRECT_BLOCKS + 0
               + (m - (MAX_BYTES_DIRECT_DATA - n))) with (n + m) in * by lia.
      change (BLOCK_SIZE * MAX_DIRECT_BLOCKS + 0) with MAX_BYTES_DIRECT_DATA in *.
      apply Hframe; auto; try congruence.
      destruct (commit_frame s inum fh inode3 file3 d3) as (Cd & _).
      assert (Hlt : (MAX_BYTES_DIRECT_DATA <? n + m) = true) by (apply Z.ltb_lt; lia).
      constructor; rewrite ?commit_inode, ?Cd, ?Hlt; auto; try lia.
      * intros B HB. unfold appended, file_addr.
        destruct (Z.ltb_spec B MAX_BYTES_DIRECT_DATA) as [Hlow|Hhigh].
        -- rewrite Qk.
           ++ rewrite memset_outside by (unfold direct_addr, block_addr; dlia).
              destruct (Z.ltb_spec B n) as [Hold|Hnew].
              ** rewrite Pk by (apply direct_addr_lt; lia).
                 rewrite <- Hbytes by lia. unfold file_addr.
                 destruct (Z.ltb_spec B MAX_BYTES_DIRECT_DATA); [reflexivity|lia].
              ** replace B with (n + (B - n)) at 1 by lia.
                 rewrite Pb by lia. f_equal.
           ++ unfold indirect_addr, direct_addr, block_addr. dlia.
           ++ unfold in_reference_block, direct_addr, block_addr. dlia.
        -- destruct (Z.ltb_spec B n); [lia|].
           replace B with (MAX_BYTES_DIRECT_DATA + (B - MAX_BYTES_DIRECT_DATA))
             at 1 by lia.
           rewrite Qb by lia. unfold ptr_add. f_equal. lia.
      * replace (1 + blocks_for (n + m) + 1) with (2 + blocks_for (n + m)) by lia.
        exact Qp.
      * rewrite Ql. apply upd_eq.
Qed.

(** ** Writing appends, reading delivers what was written *)


Lemma fresh_file_sole_file s fh inum content :
  fresh_file s fh inum ->
  sole_file s inum 0 content /\ entry_of s fh = mk_open_file_entry inum 0.
Proof.
  intros [Hfh Hinum Hent Hsz Href Hpool]. split; [|exact Hent].
  constructor; auto; try lia.
Qed.

Lemma sole_file_frame s t inum n content :
  inode_table_s t = inode_table_s s ->
  data_blocks_s t = data_blocks_s s ->
  sole_file s inum n content -> sole_file t inum n content.
Proof.
  intros Hi Hd [Hinum Hlim Hsz Hbytes Hpool Hwork Href].
  unfold inode_of in *.
  constructor; unfold inode_of; rewrite ?Hi, ?Hd; auto.
Qed.

(** Scenario S1 after the write: the file is inode 1 and holds "hello". *)
Lemma hello_written_sole_file :
  sole_file hello_written 1 5 (buffer_of_string "hello").
Proof.
  constructor; try lia; try reflexivity.
  - intros B HB.
    assert (Hcases : B = 0 \/ B = 1 \/ B = 2 \/ B = 3 \/ B = 4) by lia.
    destruct Hcases as [->|[->|[->|[->| ->]]]]; reflexivity.
  - intros b Hb. unfold hello_written.
    destruct (proj1 (proj2 (tfs_open_create_first boot (Some "/a"%string)
                              eq_refl))) as [_ _ _ _ _ Hpool].
    change (1 + blocks_for 5 + (if MAX_BYTES_DIRECT_DATA <? 5 then 1 else 0))
      with (1 + 1).
    change (free_blocks (data_blocks_s hello_written) b)
      with (upd (free_blocks
                   (data_blocks_s (created boot (Some "/a"%string)))) 1 TAKEN b).
    apply (pool_prefix_alloc _ 1 (fun _ => 0) (fun _ _ => mk_dir_entry "" 0)
             Hpool b Hb).
Qed.


Lemma tfs_read_sole_file :
  forall (s : tfs) (fh inum n off len : Z) (content dst : buffer_t),
    sole_file s inum n content ->
    0 <= fh < MAX_OPEN_FILES ->
    entry_of s fh = mk_open_file_entry inum off ->
    0 <= off <= n ->
    0 < len < 2 ^ 63 ->
    exists s' dst',
      tfs_read fh dst len s = Some (s', dst', Z.min len (n - off))
      /\ (forall i, 0 <= i < Z.min len (n - off) -> dst' i = content (off + i))
      /\ (forall x, x < 0 \/ Z.min len (n - off) <= x -> dst' x = dst x)
      /\ entry_of s' fh = mk_open_file_entry inum (off + Z.min len (n - off))
      /\ sole_file s' inum n content
      /\ inode_table_s s' = inode_table_s s
      /\ data_blocks_s s' = data_blocks_s s
      /\ (forall h, h <> fh -> entry_of s' h = entry_of s h)
      /\ free_open_file_entries (fs_state_s s')
         = free_open_file_entries (fs_state_s s).
Proof.
  intros s fh inum n off len content dst Hsole Hfh Hent Hoff Hlen.
  pose proof Hsole as [Hinum Hlim Hsz Hbytes Hpool Hwork Href].
  destruct (tfs_read_spec s fh len dst) as (file' & dst' & Hread & Ho & Hi & Hb & Hrest);
    rewrite ?Hent; cbn [of_inumber of_offset]; rewrite ?Hsz; try lia.
  rewrite Hent in Hread, Ho, Hi, Hb, Hrest. cbn [of_inumber of_offset] in *.
  rewrite Hsz in *.
  exists (set_open_file s fh file'), dst'.
  split; [exact Hread|]. split; [|split; [exact Hrest|]].
  { intros i Hi'. rewrite Hb by exact Hi'. apply Hbytes. lia. }
  split; [|split; [|split; [reflexivity|split; [reflexivity|split; [|reflexivity]]]]].
  - unfold entry_of, set_open_file. cbn [set_fs_state fs_state_s open_file_table].
    rewrite upd_eq. now apply open_file_entry_eta.
  - destruct Hsole. constructor; auto.
  - intros h Hh. unfold entry_of, set_open_file.
    cbn [set_fs_state fs_state_s open_file_table]. now apply upd_neq.
Qed.

(** A read never goes past the end of the file.  With the handle at
    offset [off] of a file of [n] bytes, a read of [len > 0] bytes
    returns [min len (n - off)]: the destination buffer receives the
    bytes [off ..] of the file and is otherwise untouched, the offset
    advances by as much, and nothing but this open-file entry changes. *)
Theorem tfs_read_delivers_file_bytes :
  forall (s : tfs) (fh inum n off len : Z) (content dst : buffer_t),
    sole_file s inum n content ->
    0 <= fh < MAX_OPEN_FILES ->
    entry_of s fh = mk_open_file_entry inum off ->
    0 <= off <= n ->
    0 < len < 2 ^ 63 ->
    exists s' dst',
      tfs_read fh dst len s = Some (s', dst', Z.min len (n - off))
      /\ (forall i, 0 <= i < Z.min len (n - off) -> dst' i = content (off + i))
      /\ (forall x, x < 0 \/ Z.min len (n - off) <= x -> dst' x = dst x)
      /\ entry_of s' fh = mk_open_file_entry inum (off + Z.min len (n - off))
      /\ sole_file s' inum n content
      /\ inode_table_s s' = inode_table_s s
      /\ data_blocks_s s' = data_blocks_s s
      /\ (forall h, h <> fh -> entry_of s' h = entry_of s h)
      /\ free_open_file_entries (fs_state_s s')
         = free_open_file_entries (fs_state_s s).
Proof. exact tfs_read_sole_file. Qed.

Lemma tfs_read_delivers_file_bytes_witness :
  exists s' dst',
    tfs_read 0 zeros 3 hello_reopened = Some (s', dst', Z.min 3 (5 - 0))
    /\ (forall i, 0 <= i < Z.min 3 (5 - 0) ->
          dst' i = buffer_of_string "hello" (0 + i))
    /\ (forall x, x < 0 \/ Z.min 3 (5 - 0) <= x -> dst' x = zeros x)
    /\ entry_of s' 0 = mk_open_file_entry 1 (0 + Z.min 3 (5 - 0))
    /\ sole_file s' 1 5 (buffer_of_string "hello")
    /\ inode_table_s s' = inode_table_s hello_reopened
    /\ data_blocks_s s' = data_blocks_s hello_reopened
    /\ (forall h, h <> 0 -> entry_of s' h = entry_of hello_reopened h)
    /\ free_open_file_entries (fs_state_s s')
       = free_open_file_entries (fs_state_s hello_reopened).
Proof.
  apply (tfs_read_delivers_file_bytes hello_reopened 0 1 5 0 3
           (buffer_of_string "hello") zeros).
  - apply (sole_file_frame hello_written);
      [reflexivity|reflexivity|exact hello_written_sole_file].
  - lia.
  - reflexivity.
  - lia.
  - lia.
Defined.

(** ** Opening with APPEND *)

Lemma has_file_frame s t name inum :
  inode_of t ROOT_DIR_INUM = inode_of s ROOT_DIR_INUM ->
  fs_dir (data_blocks_s t) = fs_dir (data_blocks_s s) ->
  has_file s name inum -> has_file t name inum.
Proof.
  intros Hi Hd [Ht Hb He]. constructor; rewrite ?Hi, ?Hd; auto.
Qed.

(** Opening a file that exists when entry 0 of the open-file table is
    free. *)
Lemma tfs_open_at_first_entry s name flags inum :
  tfs_lookup name s = inum ->
  0 <= inum < INODE_TABLE_SIZE ->
  flag_set flags TFS_O_TRUNC = false ->
  free_open_file_entries (fs_state_s s) 0 = FREE ->
  tfs_open name flags s
  = (set_fs_state s
       (mk_fs_state
          (upd (open_file_table (fs_state_s s)) 0
             (mk_open_file_entry inum
                (if flag_set flags TFS_O_APPEND
                 then i_size (inode_of s inum) else 0)))
          (upd (free_open_file_entries (fs_state_s s)) 0 TAKEN)), 0).
Proof.
  intros Hlook Hinum Htrunc Hfree.
  assert (Hvalid : valid_pathname name = true)
    by (apply (tfs_lookup_resolves name s); lia).
  unfold tfs_open. rewrite Hvalid, Hlook. cbn [negb].
  destruct (Z.leb_spec 0 inum) as [_|?]; [|lia].
  rewrite (inode_get_valid _ Hinum). rewrite Htrunc. cbn [andb].
  fold (inode_of s inum).
  now rewrite tfs_open_add_first by exact Hfree.
Qed.

Lemma append_round_trip_spec :
  forall (s0 : tfs) (name : option string) (buf1 buf2 dst : buffer_t) (n1 n2 : Z),
    valid_pathname name = true ->
    strlen (skip_char name) <= MAX_FILE_NAME - 1 ->
    0 < n1 -> 0 < n2 -> n1 + n2 <= MAX_BYTES ->
    exists dst',
      append_round_trip s0 name buf1 n1 buf2 n2 dst
      = Some (n1, n2, n1 + n2, dst')
      /\ (forall i, 0 <= i < n1 -> dst' i = buf1 i)
      /\ (forall i, n1 <= i < n1 + n2 -> dst' i = buf2 (i - n1))
      /\ (forall x, x < 0 \/ n1 + n2 <= x -> dst' x = dst x).
Proof.
  intros s0 name buf1 buf2 dst n1 n2 Hvalid Hlen Hn1 Hn2 Hmax.
  destruct (tfs_open_create_first s0 name Hvalid)
    as (Hfh & Hfresh & Hhas & Htaken).
  destruct (fresh_file_sole_file _ _ _ zeros Hfresh) as [Hsole Hent].
  destruct (tfs_write_sole_file (created s0 name) 0 1 0 n1 zeros buf1
              Hsole ltac:(lia) Hent Hn1 ltac:(lia))
    as (s3 & Hwrite & Hsole3 & Hent3 & Hinodes3 & _ & Hdir3 & _ & Hocc3).
  unfold append_round_trip.
  rewrite (surjective_pairing (tfs_init s0)).
  rewrite (surjective_pairing (tfs_open name TFS_O_CREAT (fst (tfs_init s0)))).
  rewrite Hfh. fold (created s0 name). rewrite Hwrite. cbn beta iota.
  rewrite tfs_close_taken by (try lia; now rewrite Hocc3).
  set (s4 := set_fs_state s3 _).
  assert (Hhas4 : has_file s4 (skip_char name) 1).
  { apply (has_file_frame (created s0 name)); [|exact Hdir3|exact Hhas].
    change (inode_of s4 ROOT_DIR_INUM) with (inode_of s3 ROOT_DIR_INUM).
    apply Hinodes3. lia. }
  assert (Hsole4 : sole_file s4 1 (0 + n1) (appended zeros 0 buf1))
    by (apply (sole_file_frame s3); [reflexivity|reflexivity|exact Hsole3]).
  assert (Hlook4 : tfs_lookup name s4 = 1)
    by (apply tfs_lookup_has_file; auto; lia).
  rewrite (tfs_open_at_first_entry s4 name TFS_O_APPEND 1 Hlook4)
    by (try lia; try reflexivity; subst s4; cbn; first [apply upd_eq|reflexivity]).
  change (flag_set TFS_O_APPEND TFS_O_APPEND) with true. cbn iota.
  rewrite (sf_size _ _ _ _ Hsole4).
  set (s5 := set_fs_state s4 _).
  assert (Hent5 : entry_of s5 0 = mk_open_file_entry 1 (0 + n1))
    by (subst s5; unfold entry_of; cbn; first [apply upd_eq|reflexivity]).
  assert (Hsole5 : sole_file s5 1 (0 + n1) (appended zeros 0 buf1))
    by (apply (sole_file_frame s4); [reflexivity|reflexivity|exact Hsole4]).
  destruct (tfs_write_sole_file s5 0 1 (0 + n1) n2 (appended zeros 0 buf1) buf2
              Hsole5 ltac:(lia) Hent5 Hn2 ltac:(lia))
    as (s6 & Hwrite6 & Hsole6 & Hent6 & Hinodes6 & _ & Hdir6 & _ & Hocc6).
  rewrite Hwrite6. cbn beta iota.
  rewrite tfs_close_taken
    by (try lia; rewrite Hocc6; subst s5; cbn; first [apply upd_eq|reflexivity]).
  set (s7 := set_fs_state s6 _).
  assert (Hhas7 : has_file s7 (skip_char name) 1).
  { apply (has_file_frame s4); [| |exact Hhas4].
    - change (inode_of s7 ROOT_DIR_INUM) with (inode_of s6 ROOT_DIR_INUM).
      rewrite Hinodes6 by lia. reflexivity.
    - change (data_blocks_s s7) with (data_blocks_s s6). rewrite Hdir6. reflexivity. }
  assert (Hlook7 : tfs_lookup name s7 = 1)
    by (apply tfs_lookup_has_file; auto; lia).
  rewrite (tfs_open_at_first_entry s7 name 0 1 Hlook7)
    by (try lia; try reflexivity; subst s7; cbn; first [apply upd_eq|reflexivity]).
  change (flag_set 0 TFS_O_APPEND) with false. cbn iota.
  set (s8 := set_fs_state s7 _).
  assert (Hent8 : entry_of s8 0 = mk_open_file_entry 1 0)
    by (subst s8; unfold entry_of; cbn; first [apply upd_eq|reflexivity]).
  assert (Hsole8 : sole_file s8 1 (0 + n1 + n2)
                     (appended (appended zeros 0 buf1) (0 + n1) buf2))
    by (apply (sole_file_frame s6); [reflexivity|reflexivity|exact Hsole6]).
  destruct (tfs_read_sole_file s8 0 1 (0 + n1 + n2) 0 (n1 + n2) _ dst Hsole8)
    as (s9 & dst' & Hread & Hbytes & Hrest & _); [lia|exact Hent8|lia|lia|].
  replace (Z.min (n1 + n2) (0 + n1 + n2 - 0)) with (n1 + n2) in * by lia.
  rewrite Hread. exists dst'. split; [reflexivity|].
  split; [|split; [|exact Hrest]].
  - intros i Hi. rewrite Hbytes by lia. unfold appended.
    destruct (Z.ltb_spec (0 + i) (0 + n1)); [|lia].
    destruct (Z.ltb_spec (0 + i) 0); [lia|]. f_equal; lia.
  - intros i Hi. rewrite Hbytes by lia. unfold appended.
    destruct (Z.ltb_spec (0 + i) (0 + n1)); [lia|]. f_equal; lia.
Qed.

(** Opening with APPEND continues the file.  For a path whose name has
    at most [MAX_FILE_NAME - 1] bytes and lengths [n1, n2 > 0] with
    [n1 + n2 <= MAX_BYTES]: after [tfs_init], the creation of the file
    and a write of [n1] bytes of [buf1], a write of [n2] bytes of [buf2]
    through a handle opened with APPEND returns [n2], and a read of
    [n1 + n2] bytes from a fresh open returns [n1 + n2] and delivers
    [buf1[0..n1]] followed by [buf2[0..n2]]. *)
Theorem append_after_reopen :
  forall (s0 : tfs) (name : option string) (buf1 buf2 dst : buffer_t) (n1 n2 : Z),
    valid_pathname name = true ->
    strlen (skip_char name) <= MAX_FILE_NAME - 1 ->
    0 < n1 -> 0 < n2 -> n1 + n2 <= MAX_BYTES ->
    exists dst',
      append_round_trip s0 name buf1 n1 buf2 n2 dst
      = Some (n1, n2, n1 + n2, dst')
      /\ (forall i, 0 <= i < n1 -> dst' i = buf1 i)
      /\ (forall i, n1 <= i < n1 + n2 -> dst' i = buf2 (i - n1))
      /\ (forall x, x < 0 \/ n1 + n2 <= x -> dst' x = dst x).
Proof. exact append_round_trip_spec. Qed.

Lemma append_after_reopen_witness :
  exists dst',
    append_round_trip boot (Some "/a"%string) xs 100 ys 50 zeros
    = Some (100, 50, 100 + 50, dst')
    /\ (forall i, 0 <= i < 100 -> dst' i = xs i)
    /\ (forall i, 100 <= i < 100 + 50 -> dst' i = ys (i - 100))
    /\ (forall x, x < 0 \/ 100 + 50 <= x -> dst' x = zeros x).
Proof.
  apply (append_after_reopen boot (Some "/a"%string) xs ys zeros 100 50).
  - reflexivity.
  - vm_compute. discriminate.
  - lia.
  - lia.
  - lia.
Defined.

(** ** Copying a file to the host file system *)

Lemma bytes_of_length b k : List.length (bytes_of b k) = k.
Proof. unfold bytes_of. now rewrite length_map, length_seq. Qed.

Lemma bytes_of_ext b b' k :
  (forall i, 0 <= i < Z.of_nat k -> b i = b' i) ->
  bytes_of b k = bytes_of b' k.
Proof.
  intros H. unfold bytes_of. apply map_ext_in. intros i Hi.
  apply in_seq in Hi. apply H. lia.
Qed.

Lemma bytes_of_app b k1 k2 :
  bytes_of b (k1 + k2)
  = bytes_of b k1 ++ bytes_of (ptr_add b (Z.of_nat k1)) k2.
Proof.
  unfold bytes_of. rewrite seq_app, map_app. f_equal.
  assert (Hshift : forall a,
             map (fun i => b (Z.of_nat i)) (seq (a + k1) k2)
             = map (fun i => ptr_add b (Z.of_nat k1) (Z.of_nat i)) (seq a k2)).
  { induction k2 as [|k2 IH]; intros a; [reflexivity|].
    cbn [seq map]. f_equal.
    - unfold ptr_add. f_equal. lia.
    - apply (IH (S a)). }
  apply (Hshift 0%nat).
Qed.

Lemma tfs_copy_loop_copies fuel :
  forall host s fh inum n content off dest,
    host_works host ->
    sole_file s inum n content ->
    0 <= fh < MAX_OPEN_FILES ->
    entry_of s fh = mk_open_file_entry inum off ->
    0 <= off < n ->
    n - off <= Z.of_nat fuel ->
    exists s',
      tfs_copy_loop fuel host fh n off dest s
      = Some (s', (dest ++ bytes_of (ptr_add content off) (Z.to_nat (n - off)))%list, 0)
      /\ inode_table_s s' = inode_table_s s
      /\ data_blocks_s s' = data_blocks_s s
      /\ free_open_file_entries (fs_state_s s')
         = free_open_file_entries (fs_state_s s).
Proof.
  induction fuel as [|fuel IH];
    intros host s fh inum n content off dest Hhost Hsole Hfh Hent Hoff Hfuel;
    [lia|].
  pose proof (sf_limit _ _ _ _ Hsole) as Hlim.
  cbn [tfs_copy_loop]. rewrite to_size_t_small by lia.
  set (len := if n - off >=? BUFFER_SIZE then BUFFER_SIZE else n - off).
  assert (Hlen : 0 < len <= n - off /\ len <= BUFFER_SIZE).
  { unfold len. destruct (Z.geb_spec (n - off) BUFFER_SIZE); lia. }
  destruct (tfs_read_sole_file s fh inum n off len content zeros Hsole Hfh Hent)
    as (s1 & buffer1 & Hread & Hbytes & _ & Hent1 & Hsole1 & Hit1 & Hd1 & _ & Hocc1);
    [lia|lia|].
  replace (Z.min len (n - off)) with len in * by lia.
  rewrite Hread. cbn beta iota.
  destruct (Z.eqb_spec len (-1)) as [?|_]; [lia|].
  rewrite to_ssize_t_small, to_size_t_small by lia.
  rewrite (hw_fwrite _ Hhost), bytes_of_length, Z2Nat.id by lia.
  rewrite Z.eqb_refl. cbn [negb].
  assert (Hchunk : bytes_of buffer1 (Z.to_nat len)
                   = bytes_of (ptr_add content off) (Z.to_nat len)).
  { apply bytes_of_ext. intros i Hi. rewrite Z2Nat.id in Hi by lia.
    now apply Hbytes. }
  rewrite Hchunk.
  destruct (Z.gtb_spec n (off + len)) as [Hmore|Hdone].
  - destruct (IH host s1 fh inum n content (off + len)
                (dest ++ bytes_of (ptr_add content off) (Z.to_nat len))%list
                Hhost Hsole1 Hfh Hent1)
      as (s' & Hrun & Hit & Hd & Hocc); [lia|lia|].
    exists s'. split; [|split; [congruence|split; congruence]].
    rewrite Hrun. do 3 f_equal. rewrite <- app_assoc. f_equal.
    replace (Z.to_nat (n - off))
      with (Z.to_nat len + Z.to_nat (n - (off + len)))%nat by lia.
    rewrite bytes_of_app. f_equal. apply bytes_of_ext. intros i Hi.
    unfold ptr_add. f_equal. lia.
  - exists s1. split; [|split; [exact Hit1|split; [exact Hd1|exact Hocc1]]].
    replace (n - off) with len by lia. reflexivity.
Qed.

Lemma tfs_open_existing_runs s name flags inum :
  tfs_lookup name s = inum ->
  0 <= inum < INODE_TABLE_SIZE ->
  flag_set flags TFS_O_TRUNC = false ->
  tfs_open name flags s
  = tfs_open_add inum
      (if flag_set flags TFS_O_APPEND then i_size (inode_of s inum) else 0) s.
Proof.
  intros Hlook Hinum Htrunc.
  assert (Hvalid : valid_pathname name = true)
    by (apply (tfs_lookup_resolves name s); lia).
  unfold tfs_open. rewrite Hvalid, Hlook. cbn [negb].
  destruct (Z.leb_spec 0 inum) as [_|?]; [|lia].
  rewrite (inode_get_valid _ Hinum). rewrite Htrunc. cbn [andb].
  reflexivity.
Qed.

(** The state in which [tfs_copy_to_external_fs] enters its loop: the
    source has been opened on the lowest free entry [fh] of the
    open-file table and the offset of the entry has been set to 0. *)
Lemma tfs_copy_opens host s source_path inum :
  tfs_lookup source_path s = inum ->
  0 <= inum < INODE_TABLE_SIZE ->
  fopen_w host = true ->
  (exists k, 0 <= k < MAX_OPEN_FILES
             /\ free_open_file_entries (fs_state_s s) k = FREE) ->
  exists fh s2,
    0 <= fh < MAX_OPEN_FILES
    /\ free_open_file_entries (fs_state_s s) fh = FREE
    /\ inode_table_s s2 = inode_table_s s
    /\ data_blocks_s s2 = data_blocks_s s
    /\ free_open_file_entries (fs_state_s s2)
       = upd (free_open_file_entries (fs_state_s s)) fh TAKEN
    /\ entry_of s2 fh = mk_open_file_entry inum 0
    /\ tfs_copy_to_external_fs host source_path s
       = ' (s3, dest, status) <-
           tfs_copy_loop (S (Z.to_nat (to_ssize_t (i_size (inode_of s inum)))))
             host fh (to_ssize_t (i_size (inode_of s inum))) 0 [] s2 ;;
         if status =? -1 then Some (s3, Some dest, -1)
         else
           let '(s4, close_status_source) := tfs_close fh s3 in
           if (fclose host <? 0) || (close_status_source <? 0)
           then Some (s4, Some dest, -1)
           else Some (s4, Some dest, 0).
Proof.
  intros Hlook Hinum Hfopen (k & Hk & Hkfree).
  unfold tfs_copy_to_external_fs. rewrite Hlook.
  destruct (Z.eqb_spec inum (-1)) as [?|_]; [lia|].
  rewrite (tfs_open_existing_runs s source_path TFS_O_APPEND inum Hlook Hinum)
    by reflexivity.
  change (flag_set TFS_O_APPEND TFS_O_APPEND) with true. cbn iota.
  unfold tfs_open_add.
  destruct (add_to_open_file_table_first_free inum (i_size (inode_of s inum))
              (fs_state_s s))
    as [(_ & Hall)|(fh & Hfh & Hfree & _ & Hrun)].
  { rewrite Hall in Hkfree by exact Hk. discriminate. }
  rewrite Hrun. cbn beta iota.
  destruct (Z.ltb_spec fh 0) as [?|_]; [lia|].
  rewrite Hfopen. cbn [negb].
  rewrite (get_open_file_entry_valid _ Hfh).
  cbn [set_fs_state fs_state_s open_file_table].
  rewrite upd_eq. cbn [of_inumber set_of_offset].
  rewrite (inode_get_valid _ Hinum).
  eexists fh, _. split; [exact Hfh|]. split; [exact Hfree|].
  split; [|split; [|split; [|split; [|reflexivity]]]]; try reflexivity.
  unfold entry_of, set_open_file.
  cbn [set_fs_state fs_state_s open_file_table]. apply upd_eq.
Qed.

Lemma tfs_copy_sole_file :
  forall (host : host_t) (s : tfs) (source_path : option string)
         (inum n : Z) (content : buffer_t),
    host_works host ->
    tfs_lookup source_path s = inum ->
    sole_file s inum n content ->
    0 < n ->
    (exists k, 0 <= k < MAX_OPEN_FILES
               /\ free_open_file_entries (fs_state_s s) k = FREE) ->
    exists s',
      tfs_copy_to_external_fs host source_path s
      = Some (s', Some (bytes_of content (Z.to_nat n)), 0)
      /\ inode_table_s s' = inode_table_s s
      /\ data_blocks_s s' = data_blocks_s s
      /\ forall h, free_open_file_entries (fs_state_s s') h
                   = free_open_file_entries (fs_state_s s) h.
Proof.
  intros host s source_path inum n content Hhost Hlook Hsole Hn Hslot.
  pose proof Hsole as [Hinum Hlim Hsz _ _ _ _].
  destruct (tfs_copy_opens host s source_path inum Hlook Hinum
              (hw_fopen _ Hhost) Hslot)
    as (fh & s2 & Hfh & Hfree & Hit2 & Hd2 & Hocc2 & Hent2 & Hrun).
  rewrite Hrun, Hsz. rewrite to_ssize_t_small by lia.
  assert (Hsole2 : sole_file s2 inum n content)
    by (apply (sole_file_frame s); assumption).
  destruct (tfs_copy_loop_copies (S (Z.to_nat n)) host s2 fh inum n content 0 []
              Hhost Hsole2 Hfh Hent2)
    as (s3 & Hloop & Hit3 & Hd3 & Hocc3); [lia|lia|].
  assert (Hall : bytes_of (ptr_add content 0) (Z.to_nat (n - 0))
                 = bytes_of content (Z.to_nat n)).
  { rewrite Z.sub_0_r. apply bytes_of_ext. intros i Hi. reflexivity. }
  rewrite Hall in Hloop.
  rewrite Hloop. cbn beta iota. change (0 =? -1) with false. cbn iota.
  rewrite tfs_close_taken
    by (try exact Hfh; rewrite Hocc3, Hocc2; apply upd_eq).
  destruct (Z.ltb_spec (fclose host) 0) as [Hneg|_];
    [pose proof (hw_fclose _ Hhost); lia|].
  change (0 <? 0) with false. cbn [orb app].
  eexists. split; [|split; [|split]].
  - reflexivity.
  - cbn [set_fs_state inode_table_s]. congruence.
  - cbn [set_fs_state data_blocks_s]. congruence.
  - intros h. cbn [set_fs_state fs_state_s free_open_file_entries].
    rewrite Hocc3, Hocc2.
    destruct (Z.eq_dec h fh) as [->|Hne].
    + rewrite upd_eq. now rewrite Hfree.
    + now rewrite !upd_neq by assumption.
Qed.

(** [tfs_copy_to_external_fs] copies.  On a host where [fopen] and
    [fclose] succeed and [fwrite] writes all it is offered, for a path
    that resolves to a file of [n > 0] bytes and with a free entry in
    the open-file table, the call returns 0 and the destination holds
    exactly the [n] bytes of the file, read in pieces of [BUFFER_SIZE]
    bytes; the source handle is closed again, and inodes and data
    blocks are as before. *)
Theorem tfs_copy_to_external_fs_copies :
  forall (host : host_t) (s : tfs) (source_path : option string)
         (inum n : Z) (content : buffer_t),
    host_works host ->
    tfs_lookup source_path s = inum ->
    sole_file s inum n content ->
    0 < n ->
    (exists k, 0 <= k < MAX_OPEN_FILES
               /\ free_open_file_entries (fs_state_s s) k = FREE) ->
    exists s',
      tfs_copy_to_external_fs host source_path s
      = Some (s', Some (bytes_of content (Z.to_nat n)), 0)
      /\ inode_table_s s' = inode_table_s s
      /\ data_blocks_s s' = data_blocks_s s
      /\ forall h, free_open_file_entries (fs_state_s s') h
                   = free_open_file_entries (fs_state_s s) h.
Proof. exact tfs_copy_sole_file. Qed.

Lemma tfs_copy_to_external_fs_copies_witness :
  exists s',
    tfs_copy_to_external_fs plain_host (Some "/a"%string) hello_closed
    = Some (s', Some (bytes_of (buffer_of_string "hello") (Z.to_nat 5)), 0)
    /\ inode_table_s s' = inode_table_s hello_closed
    /\ data_blocks_s s' = data_blocks_s hello_closed
    /\ forall h, free_open_file_entries (fs_state_s s') h
                 = free_open_file_entries (fs_state_s hello_closed) h.
Proof.
  apply (tfs_copy_to_external_fs_copies plain_host hello_closed
           (Some "/a"%string) 1 5 (buffer_of_string "hello")).
  - constructor; [reflexivity|reflexivity|cbn; lia].
  - reflexivity.
  - apply (sole_file_frame hello_written);
      [reflexivity|reflexivity|exact hello_written_sole_file].
  - lia.
  - exists 0. split; [lia|reflexivity].
Defined.

(** Two ways for [tfs_copy_to_external_fs] to fail after it has opened
    the source: [fopen] fails, or the source is empty, in which case
    the first pass of the loop asks [tfs_read] for 0 bytes and gets -1.
    In both cases the call returns -1 and leaves the source open: the
    entry of the open-file table it had taken stays taken.  For the
    empty source the destination has been created, with no bytes. *)
Theorem tfs_copy_to_external_fs_leaves_source_open :
  forall (host : host_t) (s : tfs) (source_path : option string) (inum : Z),
    tfs_lookup source_path s = inum ->
    0 <= inum < INODE_TABLE_SIZE ->
    (exists k, 0 <= k < MAX_OPEN_FILES
               /\ free_open_file_entries (fs_state_s s) k = FREE) ->
    fopen_w host = false \/ i_size (inode_of s inum) = 0 ->
    exists s' fh,
      tfs_copy_to_external_fs host source_path s
      = Some (s', if fopen_w host then Some [] else None, -1)
      /\ 0 <= fh < MAX_OPEN_FILES
      /\ free_open_file_entries (fs_state_s s) fh = FREE
      /\ free_open_file_entries (fs_state_s s') fh = TAKEN
      /\ of_inumber (entry_of s' fh) = inum.
Proof.
  intros host s source_path inum Hlook Hinum Hslot Hwhy.
  destruct (fopen_w host) eqn:Hfopen.
  - destruct Hwhy as [?|Hempty]; [discriminate|].
    destruct (tfs_copy_opens host s source_path inum Hlook Hinum Hfopen Hslot)
      as (fh & s2 & Hfh & Hfree & Hit2 & Hd2 & Hocc2 & Hent2 & Hrun).
    rewrite Hrun, Hempty.
    change (to_ssize_t 0) with 0. change (Z.to_nat 0) with 0%nat.
    cbn [tfs_copy_loop]. change (to_size_t (0 - 0)) with 0.
    change (0 >=? BUFFER_SIZE) with false. cbn iota.
    change (tfs_read fh zeros 0 s2) with (Some (s2, zeros, -1)).
    cbn beta iota. change (-1 =? -1) with true. cbn iota.
    exists s2, fh. split; [reflexivity|]. split; [exact Hfh|].
    split; [exact Hfree|]. split; [rewrite Hocc2; apply upd_eq|].
    now rewrite Hent2.
  - clear Hwhy. destruct Hslot as (k & Hk & Hkfree).
    unfold tfs_copy_to_external_fs. rewrite Hlook.
    destruct (Z.eqb_spec inum (-1)) as [?|_]; [lia|].
    rewrite (tfs_open_existing_runs s source_path TFS_O_APPEND inum Hlook Hinum)
      by reflexivity.
    unfold tfs_open_add.
    destruct (add_to_open_file_table_first_free inum
                (if flag_set TFS_O_APPEND TFS_O_APPEND
                 then i_size (inode_of s inum) else 0) (fs_state_s s))
      as [(_ & Hall)|(fh & Hfh & Hfree & _ & Hrun)].
    { rewrite Hall in Hkfree by exact Hk. discriminate. }
    rewrite Hrun. cbn beta iota.
    destruct (Z.ltb_spec fh 0) as [?|_]; [lia|].
    rewrite Hfopen. cbn [negb].
    eexists _, fh. split; [reflexivity|]. split; [exact Hfh|].
    split; [exact Hfree|].
    unfold entry_of.
    cbn [set_fs_state fs_state_s open_file_table free_open_file_entries].
    rewrite !upd_eq. split; reflexivity.
Qed.

Lemma tfs_copy_to_external_fs_leaves_source_open_witness :
  exists s' fh,
    tfs_copy_to_external_fs plain_host (Some "/a"%string) empty_file_closed
    = Some (s', if fopen_w plain_host then Some [] else None, -1)
    /\ 0 <= fh < MAX_OPEN_FILES
    /\ free_open_file_entries (fs_state_s empty_file_closed) fh = FREE
    /\ free_open_file_entries (fs_state_s s') fh = TAKEN
    /\ of_inumber (entry_of s' fh) = 1.
Proof.
  apply (tfs_copy_to_external_fs_leaves_source_open plain_host
           empty_file_closed (Some "/a"%string) 1).
  - reflexivity.
  - lia.
  - exists 0. split; [lia|reflexivity].
  - right. reflexivity.
Defined.

(** * The oracles of the test programs *)

Lemma check_array_inner_spec fuel :
  forall fhandlers i j,
    N_THREADS - j <= Z.of_nat fuel ->
    check_array_inner fuel fhandlers i j = true
    <-> exists k, j <= k < N_THREADS /\ fhandlers i = fhandlers k.
Proof.
  induction fuel as [|fuel IH]; intros fhandlers i j Hfuel.
  - cbn. split; [discriminate|]. intros (k & Hk & _). lia.
  - cbn [check_array_inner].
    destruct (Z.ltb_spec j N_THREADS) as [Hj|Hj].
    + destruct (Z.eqb_spec (fhandlers i) (fhandlers j)) as [Heq|Hne].
      * split; [|reflexivity]. intros _. exists j. split; [lia|exact Heq].
      * rewrite IH by lia. split; intros (k & Hk & Hdup); exists k.
        -- split; [lia|exact Hdup].
        -- split; [|exact Hdup].
           destruct (Z.eq_dec k j) as [->|?]; [contradiction|lia].
    + split; [discriminate|]. intros (k & Hk & _). lia.
Qed.

Lemma check_array_loop_spec fuel :
  forall fhandlers i,
    0 <= i -> N_THREADS - i < Z.of_nat fuel ->
    (check_array_loop fuel fhandlers i (i + 1) = 0
     \/ check_array_loop fuel fhandlers i (i + 1) = -1)
    /\ (check_array_loop fuel fhandlers i (i + 1) = 0
        <-> forall a b, i <= a < b /\ b < N_THREADS ->
              fhandlers a <> fhandlers b).
Proof.
  induction fuel as [|fuel IH]; intros fhandlers i Hi Hfuel.
  { cbn [check_array_loop]. split; [left; reflexivity|]. split; [|reflexivity].
    intros _ a b Hab. lia. }
  cbn [check_array_loop].
  destruct (Z.ltb_spec i N_THREADS) as [Hlt|Hge].
  - pose proof (check_array_inner_spec (Z.to_nat N_THREADS) fhandlers i (i + 1)
                  ltac:(lia)) as Hinner.
    destruct (check_array_inner (Z.to_nat N_THREADS) fhandlers i (i + 1)).
    + split; [right; reflexivity|]. split; [discriminate|].
      intros Hdistinct. destruct (proj1 Hinner eq_refl) as (k & Hk & Hdup).
      exfalso. apply (Hdistinct i k); [lia|exact Hdup].
    + destruct (IH fhandlers (i + 1)) as [Hres Hiff]; [lia|lia|].
      split; [exact Hres|]. rewrite Hiff. split.
      * intros Hrest a b Hab. destruct (Z.eq_dec a i) as [->|Hne].
        -- intros Hdup.
           assert (Hfound : false = true); [|discriminate].
           apply Hinner. exists b. split; [lia|exact Hdup].
        -- apply Hrest. lia.
      * intros Hall a b Hab. apply Hall. lia.
  - split; [left; reflexivity|]. split; [|reflexivity]. intros _ a b Hab. lia.
Qed.

(** [check_array] of the test of concurrent opens returns 0 when the
    [N_THREADS] handles recorded are pairwise distinct, and -1 when two
    of them are equal. *)
Theorem check_array_tells_distinct_handles :
  forall fhandlers : Z -> Z,
    (check_array fhandlers = 0 \/ check_array fhandlers = -1)
    /\ (check_array fhandlers = 0
        <-> forall a b, 0 <= a < b /\ b < N_THREADS ->
              fhandlers a <> fhandlers b).
Proof.
  intros fhandlers.
  apply (check_array_loop_spec (S (Z.to_nat N_THREADS)) fhandlers 0); lia.
Qed.

Lemma check_loop_spec fuel :
  forall read_info control i,
    0 <= i -> BLOCK_SIZE - i <= Z.of_nat fuel ->
    (check_loop fuel read_info control i = 0
     \/ check_loop fuel read_info control i = -1)
    /\ (check_loop fuel read_info control i = 0
        <-> forall k, i <= k < BLOCK_SIZE -> read_info k = control).
Proof.
  induction fuel as [|fuel IH]; intros read_info control i Hi Hfuel.
  - cbn. split; [left; reflexivity|]. split; [|reflexivity]. intros _ k Hk. lia.
  - cbn [check_loop].
    destruct (Z.ltb_spec i BLOCK_SIZE) as [Hlt|Hge].
    + destruct (Z.eqb_spec (read_info i) control) as [Heq|Hne]; cbn [negb].
      * destruct (IH read_info control (i + 1)) as [Hres Hiff]; [lia|lia|].
        split; [exact Hres|]. rewrite Hiff. split.
        -- intros Hrest k Hk. destruct (Z.eq_dec k i) as [->|?];
             [exact Heq|apply Hrest; lia].
        -- intros Hall k Hk. apply Hall. lia.
      * split; [right; reflexivity|]. split; [discriminate|].
        intros Hall. exfalso. apply Hne. apply Hall. lia.
    + split; [left; reflexivity|]. split; [|reflexivity]. intros _ k Hk. lia.
Qed.

(** [check] of the test of concurrent writes returns 0 when the
    [BLOCK_SIZE] bytes read back are all equal to the first one, and -1
    otherwise. *)
Theorem check_tells_uniform_block :
  forall read_info : Z -> Z,
    (check read_info = 0 \/ check read_info = -1)
    /\ (check read_info = 0
        <-> forall k, 0 <= k < BLOCK_SIZE -> read_info k = read_info 0).
Proof.
  intros read_info. unfold check.
  destruct (check_loop_spec (Z.to_nat BLOCK_SIZE) read_info (read_info 0) 1)
    as [Hres Hiff]; [lia|lia|].
  split; [exact Hres|]. rewrite Hiff. split.
  - intros Hrest k Hk. destruct (Z.eq_dec k 0) as [->|?];
      [reflexivity|apply Hrest; lia].
  - intros Hall k Hk. apply Hall. lia.
Qed.

(** * What reads and writes leave alone *)

(** ** [tfs_read] *)

Lemma tfs_read_direct_region_loop_inumber fuel :
  forall m file to_read buffer tr file' buffer' r,
    tfs_read_direct_region_loop fuel m file to_read buffer tr
    = Some (file', buffer', r) ->
    of_inumber file' = of_inumber file.
Proof.
  induction fuel as [|fuel IH]; intros m file to_read buffer tr file' buffer' r Hrun;
    cbn [tfs_read_direct_region_loop] in Hrun;
    destruct (negb _); try (injection Hrun as <- _ _; reflexivity);
    try discriminate.
  destruct (data_block_get _); [|injection Hrun as <- _ _; reflexivity].
  destruct (read_chunk _ _) as [to_read_block to_read'].
  destruct (BLOCK_SIZE <? _); [discriminate|].
  apply IH in Hrun. exact Hrun.
Qed.

Lemma tfs_read_indirect_region_loop_inumber fuel :
  forall m file to_read buffer tr file' buffer' r,
    tfs_read_indirect_region_loop fuel m file to_read buffer tr
    = Some (file', buffer', r) ->
    of_inumber file' = of_inumber file.
Proof.
  induction fuel as [|fuel IH]; intros m file to_read buffer tr file' buffer' r Hrun;
    cbn [tfs_read_indirect_region_loop] in Hrun;
    destruct (negb _); try (injection Hrun as <- _ _; reflexivity);
    try discriminate.
  destruct (data_block_get _); [|injection Hrun as <- _ _; reflexivity].
  destruct (read_chunk _ _) as [to_read_block to_read'].
  destruct (BLOCK_SIZE <? _); [discriminate|].
  apply IH in Hrun. exact Hrun.
Qed.

Lemma tfs_read_direct_region_inumber m file to_read buffer file' buffer' r :
  tfs_read_direct_region m file to_read buffer = Some (file', buffer', r) ->
  of_inumber file' = of_inumber file.
Proof.
  unfold tfs_read_direct_region. destruct (_ <=? _).
  - apply tfs_read_direct_region_loop_inumber.
  - intros Hrun. injection Hrun as <- _ _. reflexivity.
Qed.

Lemma same_but_offset_refl s fh : same_but_offset s s fh.
Proof. repeat split. Qed.

Lemma same_but_offset_set s fh file :
  of_inumber file = of_inumber (entry_of s fh) ->
  same_but_offset s (set_open_file s fh file) fh.
Proof.
  intros Hi. unfold same_but_offset, entry_of, set_open_file.
  cbn [set_fs_state inode_table_s data_blocks_s fs_state_s open_file_table
       free_open_file_entries].
  rewrite upd_eq. repeat split; auto. intros h Hh. now apply upd_neq.
Qed.

Lemma tfs_read_frame s fh buffer len s' buffer' r :
  tfs_read fh buffer len s = Some (s', buffer', r) ->
  same_but_offset s s' fh.
Proof.
  unfold tfs_read.
  destruct (len =? 0);
    [intros H; injection H as <- _ _; apply same_but_offset_refl|].
  unfold get_open_file_entry.
  destruct (negb (valid_file_handle fh));
    [intros H; injection H as <- _ _; apply same_but_offset_refl|].
  fold (entry_of s fh).
  destruct (inode_get (of_inumber (entry_of s fh))) as [ip|];
    [|intros H; injection H as <- _ _; apply same_but_offset_refl].
  set (to_read := if _ >? len then len else _).
  destruct (_ <=? MAX_BYTES_DIRECT_DATA).
  - destruct (tfs_read_direct_region _ _ _ _) as [[[file1 buffer1] dr]|] eqn:Hd;
      [|discriminate].
    apply tfs_read_direct_region_inumber in Hd.
    destruct (dr =? -1); intros H; injection H as <- _ _;
      now apply same_but_offset_set.
  - destruct (_ >=? MAX_BYTES_DIRECT_DATA).
    + destruct (tfs_read_indirect_region _ _ _ _) as [[[file1 buffer1] ir]|] eqn:Hi;
        [|discriminate].
      apply tfs_read_indirect_region_loop_inumber in Hi.
      destruct (ir =? -1); intros H; injection H as <- _ _;
        now apply same_but_offset_set.
    + destruct (tfs_read_direct_region _ _ _ _) as [[[file1 buffer1] dr]|] eqn:Hd;
        [|discriminate].
      apply tfs_read_direct_region_inumber in Hd.
      destruct (dr =? -1);
        [intros H; injection H as <- _ _; now apply same_but_offset_set|].
      destruct (tfs_read_indirect_region _ _ _ _) as [[[file2 view2] ir]|] eqn:Hi;
        [|discriminate].
      apply tfs_read_indirect_region_loop_inumber in Hi.
      destruct (ir =? -1); intros H; injection H as <- _ _;
        apply same_but_offset_set; congruence.
Qed.

(** [tfs_read] is read-only as far as files go.  Whatever the state,
    the handle and the length, also for a handle that was never opened
    or is long closed, a read that returns leaves the inode table and
    the whole pool of data blocks as they were; of the open-file table
    it changes at most the offset of the entry of its own handle. *)
Theorem tfs_read_changes_only_its_offset :
  forall (s s' : tfs) (fh len r : Z) (buffer buffer' : buffer_t),
    tfs_read fh buffer len s = Some (s', buffer', r) ->
    inode_table_s s' = inode_table_s s
    /\ data_blocks_s s' = data_blocks_s s
    /\ free_open_file_entries (fs_state_s s')
       = free_open_file_entries (fs_state_s s)
    /\ (forall h, h <> fh -> entry_of s' h = entry_of s h)
    /\ of_inumber (entry_of s' fh) = of_inumber (entry_of s fh).
Proof.
  intros s s' fh len r buffer buffer' Hrun.
  exact (tfs_read_frame s fh buffer len s' buffer' r Hrun).
Qed.

Lemma tfs_read_changes_only_its_offset_witness :
  let s := hello_reopened in
  let s' := fst (fst hello_read) in
  inode_table_s s' = inode_table_s s
  /\ data_blocks_s s' = data_blocks_s s
  /\ free_open_file_entries (fs_state_s s')
     = free_open_file_entries (fs_state_s s)
  /\ (forall h, h <> 0 -> entry_of s' h = entry_of s h)
  /\ of_inumber (entry_of s' 0) = of_inumber (entry_of s 0).
Proof.
  apply (tfs_read_changes_only_its_offset hello_reopened (fst (fst hello_read))
           0 3 (snd hello_read) zeros (snd (fst hello_read))).
  unfold hello_read.
  destruct (tfs_read_sole_file hello_reopened 0 1 5 0 3
              (buffer_of_string "hello") zeros) as (s' & dst' & Hread & _).
  - apply (sole_file_frame hello_written);
      [reflexivity|reflexivity|exact hello_written_sole_file].
  - lia.
  - reflexivity.
  - lia.
  - lia.
  - rewrite Hread. reflexivity.
Defined.

(** ** [tfs_write] *)

Lemma pool_grows_refl d : pool_grows d d.
Proof. split; auto. Qed.

Lemma pool_grows_trans d1 d2 d3 :
  pool_grows d1 d2 -> pool_grows d2 d3 -> pool_grows d1 d3.
Proof. intros [H1 H2] [H3 H4]. split; [congruence|auto]. Qed.

Lemma pool_grows_data d d' m :
  pool_grows d d' -> pool_grows d (set_fs_data d' m).
Proof. intros [H1 H2]. split; [exact H1|exact H2]. Qed.

Lemma pool_grows_alloc d : pool_grows d (fst (data_block_alloc d)).
Proof.
  destruct (data_block_alloc_first_free d)
    as [(_ & Hd & _)|(_ & _ & _ & Hmap & _ & Hdir)].
  - rewrite Hd. apply pool_grows_refl.
  - split; [exact Hdir|]. intros b Hb. rewrite Hmap.
    destruct (Z.eq_dec b (snd (data_block_alloc d))) as [->|Hne];
      [apply upd_eq|now rewrite upd_neq by assumption].
Qed.

Lemma direct_block_insert_frame inode d inode' d' status :
  direct_block_insert inode d = Some (inode', d', status) ->
  pool_grows d d' /\ i_node_type inode' = i_node_type inode.
Proof.
  unfold direct_block_insert.
  pose proof (pool_grows_alloc d) as Hgrow.
  destruct (data_block_alloc d) as [d1 b]. cbn [fst] in Hgrow.
  cbn [set_i_data_block i_data_block].
  destruct (b =? -1); [intros H; injection H as <- <- _; split; auto|].
  destruct (data_block_get b); [|discriminate].
  destruct ((0 <=? b - 1) && (b - 1 <? I_BLOCK_SIZE)); [|discriminate].
  intros H. injection H as <- <- _. split; [|reflexivity].
  now apply pool_grows_data.
Qed.

Lemma indirect_block_insert_frame inode d inode' d' status :
  indirect_block_insert inode d = Some (inode', d', status) ->
  pool_grows d d' /\ i_node_type inode' = i_node_type inode.
Proof.
  unfold indirect_block_insert.
  pose proof (pool_grows_alloc d) as Hgrow.
  destruct (data_block_alloc d) as [d1 b]. cbn [fst] in Hgrow.
  destruct (b =? -1); [intros H; injection H as <- <- _; split; auto|].
  destruct (data_block_get b); [|discriminate].
  destruct (data_block_get (i_block inode MAX_DIRECT_BLOCKS)); [|discriminate].
  destruct ((0 <=? _) && (_ <=? fs_data_bytes)); [|discriminate].
  intros H. injection H as <- <- _. split; [|reflexivity].
  now apply pool_grows_data.
Qed.

Ltac frame_done :=
  split; [first [assumption|apply pool_grows_refl]
         |split; [first [assumption|reflexivity]|reflexivity]].

Lemma tfs_handle_indirect_block_frame inode d inode' d' status :
  tfs_handle_indirect_block inode d = Some (inode', d', status) ->
  pool_grows d d' /\ i_node_type inode' = i_node_type inode.
Proof.
  unfold tfs_handle_indirect_block.
  pose proof (pool_grows_alloc d) as Hgrow.
  destruct (data_block_alloc d) as [d1 b]. cbn [fst] in Hgrow.
  destruct (b =? -1); [intros H; injection H as <- <- _; split; auto|].
  destruct (data_block_get _); [|discriminate].
  intros H. injection H as <- <- _. split; [|reflexivity].
  now apply pool_grows_data.
Qed.

Lemma tfs_write_direct_region_loop_frame fuel :
  forall inode file d buffer ws bw inode' file' d' r,
    tfs_write_direct_region_loop fuel inode file d buffer ws bw
    = Some (inode', file', d', r) ->
    pool_grows d d'
    /\ i_node_type inode' = i_node_type inode
    /\ of_inumber file' = of_inumber file.
Proof.
  induction fuel as [|fuel IH];
    intros inode file d buffer ws bw inode' file' d' r Hrun;
    cbn [tfs_write_direct_region_loop] in Hrun.
  - injection Hrun as <- <- <- _. frame_done.
  - destruct (negb (0 <? ws));
      [injection Hrun as <- <- <- _; frame_done|].
    assert (Hstep : forall inode1 d1 status,
               (if i_size inode mod BLOCK_SIZE =? 0
                then direct_block_insert inode d else Some (inode, d, 0))
               = Some (inode1, d1, status) ->
               pool_grows d d1 /\ i_node_type inode1 = i_node_type inode).
    { intros inode1 d1 status. destruct (_ =? 0).
      - apply direct_block_insert_frame.
      - intros H. injection H as <- <- _. split; [apply pool_grows_refl|reflexivity]. }
    destruct (if i_size inode mod BLOCK_SIZE =? 0
              then direct_block_insert inode d else Some (inode, d, 0))
      as [[[inode1 d1] status]|]; [|discriminate].
    destruct (Hstep inode1 d1 status eq_refl) as [Hgrow Htype].
    destruct (status =? -1);
      [injection Hrun as <- <- <- _; frame_done|].
    destruct (data_block_get _);
      [|injection Hrun as <- <- <- _; frame_done].
    destruct (write_chunk _ _) as [to_write_block ws'].
    apply IH in Hrun. destruct Hrun as (Hgrow' & Htype' & Hinum').
    split; [|split].
    + eapply pool_grows_trans; [|exact Hgrow'].
      now apply pool_grows_data.
    + rewrite Htype'. exact Htype.
    + exact Hinum'.
Qed.

Lemma tfs_write_indirect_region_loop_frame fuel :
  forall inode file d buffer ws bw inode' file' d' r,
    tfs_write_indirect_region_loop fuel inode file d buffer ws bw
    = Some (inode', file', d', r) ->
    pool_grows d d'
    /\ i_node_type inode' = i_node_type inode
    /\ of_inumber file' = of_inumber file.
Proof.
  induction fuel as [|fuel IH];
    intros inode file d buffer ws bw inode' file' d' r Hrun;
    cbn [tfs_write_indirect_region_loop] in Hrun;
    (destruct (negb (0 <? ws));
      [injection Hrun as <- <- <- _; frame_done|]);
    [discriminate|].
  assert (Hstep : forall inode1 d1 status,
             (if i_size inode mod BLOCK_SIZE =? 0
              then indirect_block_insert inode d else Some (inode, d, 0))
             = Some (inode1, d1, status) ->
             pool_grows d d1 /\ i_node_type inode1 = i_node_type inode).
  { intros inode1 d1 status. destruct (_ =? 0).
    - apply indirect_block_insert_frame.
    - intros H. injection H as <- <- _. split; [apply pool_grows_refl|reflexivity]. }
  destruct (if i_size inode mod BLOCK_SIZE =? 0
            then indirect_block_insert inode d else Some (inode, d, 0))
    as [[[inode1 d1] status]|]; [|discriminate].
  destruct (Hstep inode1 d1 status eq_refl) as [Hgrow Htype].
  destruct (status =? -1);
    [injection Hrun as <- <- <- _; frame_done|].
  destruct (data_block_get _);
    [|injection Hrun as <- <- <- _; frame_done].
  destruct (write_chunk _ _) as [to_write_block ws'].
  apply IH in Hrun. destruct Hrun as (Hgrow' & Htype' & Hinum').
  split; [|split].
  - eapply pool_grows_trans; [|exact Hgrow'].
    now apply pool_grows_data.
  - rewrite Htype'. exact Htype.
  - exact Hinum'.
Qed.

Lemma write_leaves_refl s fh : write_leaves s s fh.
Proof.
  unfold write_leaves. repeat split; auto.
Qed.

Lemma write_leaves_commit s fh inode' file' d' :
  pool_grows (data_blocks_s s) d' ->
  i_node_type inode' = i_node_type (inode_of s (of_inumber (entry_of s fh))) ->
  of_inumber file' = of_inumber (entry_of s fh) ->
  write_leaves s (commit s (of_inumber (entry_of s fh)) fh inode' file' d') fh.
Proof.
  intros Hgrow Htype Hinum.
  destruct (commit_frame s (of_inumber (entry_of s fh)) fh inode' file' d')
    as (Cd & Ci & Cf & Ce & Cfe).
  unfold write_leaves. rewrite Cd, commit_entry.
  split; [exact Cf|]. split; [exact Ci|]. split; [|split; [exact Hgrow|]].
  - intros i. destruct (Z.eq_dec i (of_inumber (entry_of s fh))) as [->|Hne].
    + rewrite commit_inode. exact Htype.
    + now rewrite Ci.
  - split; [exact Cfe|]. split; [exact Ce|exact Hinum].
Qed.

Lemma tfs_write_frame s fh buffer to_write s' r :
  tfs_write fh buffer to_write s = Some (s', r) ->
  write_leaves s s' fh.
Proof.
  unfold tfs_write.
  destruct (to_write =? 0);
    [intros H; injection H as <- _; apply write_leaves_refl|].
  unfold get_open_file_entry.
  destruct (negb (valid_file_handle fh));
    [intros H; injection H as <- _; apply write_leaves_refl|].
  fold (entry_of s fh). unfold inode_get.
  destruct (negb (valid_inumber (of_inumber (entry_of s fh))));
    [intros H; injection H as <- _; apply write_leaves_refl|].
  fold (inode_of s (of_inumber (entry_of s fh))).
  set (inode := inode_of s (of_inumber (entry_of s fh))).
  assert (Hhandle : forall ino d ino' d' st,
             pool_grows (data_blocks_s s) d ->
             i_node_type ino = i_node_type inode ->
             (if i_block ino MAX_DIRECT_BLOCKS =? -1
              then tfs_handle_indirect_block ino d else Some (ino, d, 0))
             = Some (ino', d', st) ->
             pool_grows (data_blocks_s s) d'
             /\ i_node_type ino' = i_node_type inode).
  { intros ino d ino' d' st Hgrow Htype. destruct (_ =? -1).
    - intros H. apply tfs_handle_indirect_block_frame in H.
      destruct H as [Hg Ht]. split; [|now rewrite Ht].
      eapply pool_grows_trans; eassumption.
    - intros H. injection H as <- <- _. split; assumption. }
  destruct (_ <=? MAX_BYTES_DIRECT_DATA).
  - unfold tfs_write_direct_region.
    destruct (tfs_write_direct_region_loop _ _ _ _ _ _ _)
      as [[[[inode1 file1] d1] direct_bytes]|] eqn:Hd; [|discriminate].
    apply tfs_write_direct_region_loop_frame in Hd.
    destruct Hd as (Hgrow & Htype & Hinum).
    destruct (direct_bytes =? -1); intros H; injection H as <- _;
      now apply write_leaves_commit.
  - destruct (_ >=? MAX_BYTES_DIRECT_DATA).
    + destruct (if i_block inode MAX_DIRECT_BLOCKS =? -1
                then tfs_handle_indirect_block inode (data_blocks_s s)
                else Some (inode, data_blocks_s s, 0))
        as [[[inode0 d0] st]|] eqn:Hh; [|discriminate].
      apply Hhandle in Hh; [|apply pool_grows_refl|reflexivity].
      destruct Hh as [Hgrow0 Htype0].
      unfold tfs_write_indirect_region.
      destruct (tfs_write_indirect_region_loop _ _ _ _ _ _ _)
        as [[[[inode1 file1] d1] indirect_bytes]|] eqn:Hi; [|discriminate].
      apply tfs_write_indirect_region_loop_frame in Hi.
      destruct Hi as (Hgrow & Htype & Hinum).
      destruct (indirect_bytes =? -1); intros H; injection H as <- _;
        (apply write_leaves_commit;
         [eapply pool_grows_trans; eassumption
         |rewrite Htype; exact Htype0|exact Hinum]).
    + unfold tfs_write_direct_region.
      destruct (tfs_write_direct_region_loop _ _ _ _ _ _ _)
        as [[[[inode1 file1] d1] direct_bytes]|] eqn:Hd; [|discriminate].
      apply tfs_write_direct_region_loop_frame in Hd.
      destruct Hd as (Hgrow1 & Htype1 & Hinum1).
      destruct (if i_block inode1 MAX_DIRECT_BLOCKS =? -1
                then tfs_handle_indirect_block inode1 d1
                else Some (inode1, d1, 0))
        as [[[inode2 d2] st]|] eqn:Hh; [|discriminate].
      apply Hhandle in Hh; [|exact Hgrow1|exact Htype1].
      destruct Hh as [Hgrow2 Htype2].
      destruct (direct_bytes =? -1);
        [intros H; injection H as <- _; now apply write_leaves_commit|].
      unfold tfs_write_indirect_region.
      destruct (tfs_write_indirect_region_loop _ _ _ _ _ _ _)
        as [[[[inode3 file3] d3] indirect_bytes]|] eqn:Hi; [|discriminate].
      apply tfs_write_indirect_region_loop_frame in Hi.
      destruct Hi as (Hgrow3 & Htype3 & Hinum3).
      destruct (indirect_bytes =? -1); intros H; injection H as <- _;
        (apply write_leaves_commit;
         [eapply pool_grows_trans; eassumption
         |rewrite Htype3; exact Htype2|rewrite Hinum3; exact Hinum1]).
Qed.

(** [tfs_write] keeps to its own file.  Whatever the state, the handle
    and the length, a write whose run stays within the arrays it indexes
    (no store outside [i_block], no access through the NULL pointer:
    the runs that have a defined result) and returns, with a byte count
    or with -1, changes no inode but the one its handle names and leaves
    the type of that one; it frees no data block; it leaves the
    allocation maps of inodes and handles and every other open-file
    entry alone. *)
Theorem tfs_write_keeps_to_its_file :
  forall (s s' : tfs) (fh to_write r : Z) (buffer : buffer_t),
    tfs_write fh buffer to_write s = Some (s', r) ->
    freeinode_ts (inode_table_s s') = freeinode_ts (inode_table_s s)
    /\ (forall i, i <> of_inumber (entry_of s fh) -> inode_of s' i = inode_of s i)
    /\ (forall i, i_node_type (inode_of s' i) = i_node_type (inode_of s i))
    /\ (forall b, free_blocks (data_blocks_s s) b = TAKEN ->
          free_blocks (data_blocks_s s') b = TAKEN)
    /\ free_open_file_entries (fs_state_s s')
       = free_open_file_entries (fs_state_s s)
    /\ (forall h, h <> fh -> entry_of s' h = entry_of s h)
    /\ of_inumber (entry_of s' fh) = of_inumber (entry_of s fh).
Proof.
  intros s s' fh to_write r buffer Hrun.
  destruct (tfs_write_frame s fh buffer to_write s' r Hrun)
    as (H1 & H2 & H3 & [H4 H5] & H6 & H7 & H8).
  repeat split; assumption.
Qed.

Lemma tfs_write_keeps_to_its_file_witness :
  let s := created boot (Some "/a"%string) in
  let s' := hello_written in
  freeinode_ts (inode_table_s s') = freeinode_ts (inode_table_s s)
  /\ (forall i, i <> of_inumber (entry_of s 0) -> inode_of s' i = inode_of s i)
  /\ (forall i, i_node_type (inode_of s' i) = i_node_type (inode_of s i))
  /\ (forall b, free_blocks (data_blocks_s s) b = TAKEN ->
        free_blocks (data_blocks_s s') b = TAKEN)
  /\ free_open_file_entries (fs_state_s s')
     = free_open_file_entries (fs_state_s s)
  /\ (forall h, h <> 0 -> entry_of s' h = entry_of s h)
  /\ of_inumber (entry_of s' 0) = of_inumber (entry_of s 0).
Proof.
  apply (tfs_write_keeps_to_its_file (created boot (Some "/a"%string))
           hello_written 0 5 5 (buffer_of_string "hello")).
  unfold hello_written.
  destruct (tfs_write_fresh (created boot (Some "/a"%string)) 0 1 5
              (buffer_of_string "hello")) as (s' & Hwrite & _).
  - apply tfs_open_create_first. reflexivity.
  - lia.
  - rewrite Hwrite. reflexivity.
Defined.

(** ** Writing through a handle that is not at the end of the file *)

Lemma tfs_write_working_block :
  forall (s : tfs) (fh inum n off m : Z) (content buf : buffer_t),
    sole_file s inum n content ->
    0 <= fh < MAX_OPEN_FILES ->
    entry_of s fh = mk_open_file_entry inum off ->
    0 <= off < 2 ^ 63 ->
    n mod BLOCK_SIZE <> 0 ->
    0 < m ->
    off mod BLOCK_SIZE + m <= BLOCK_SIZE ->
    n + m <= MAX_BYTES_DIRECT_DATA ->
    let target := block_addr (blocks_for n) + off mod BLOCK_SIZE in
    exists s',
      tfs_write fh buf m s = Some (s', m)
      /\ i_size (inode_of s' inum) = n + m
      /\ entry_of s' fh = mk_open_file_entry inum (off + m)
      /\ (forall i, 0 <= i < m ->
            fs_data (data_blocks_s s') (target + i) = buf i)
      /\ (forall a, a < target \/ target + m <= a ->
            fs_data (data_blocks_s s') a = fs_data (data_blocks_s s) a)
      /\ free_blocks (data_blocks_s s') = free_blocks (data_blocks_s s).
Proof.
  intros s fh inum n off m content buf [Hinum Hlim Hsz Hbytes Hpool Hwork Href]
    Hfh Hent Hoff Hr Hm Hfit Hmax. cbn zeta.
  assert (Hpos : 0 < n).
  { destruct (Z.eq_dec n 0) as [->|?]; [exfalso; apply Hr; reflexivity|lia]. }
  assert (Hblk : 0 < blocks_for n < DATA_BLOCKS) by (unfold blocks_for; dlia).
  unfold tfs_write.
  destruct (Z.eqb_spec m 0) as [?|_]; [lia|].
  rewrite (get_open_file_entry_valid _ Hfh).
  fold (entry_of s fh). rewrite Hent. cbn [of_inumber].
  rewrite (inode_get_valid _ Hinum).
  fold (inode_of s inum). rewrite Hsz.
  rewrite size_add_small by lia.
  destruct (Z.leb_spec (n + m) MAX_BYTES_DIRECT_DATA) as [_|?]; [|lia].
  unfold tfs_write_direct_region.
  change (Z.to_nat REFERENCE_BLOCK_INDEX) with (S 10).
  generalize 10%nat. intros fuel.
  cbn [tfs_write_direct_region_loop].
  destruct (Z.ltb_spec 0 m) as [_|?]; [|lia]. cbn [negb].
  rewrite Hsz.
  destruct (Z.eqb_spec (n mod BLOCK_SIZE) 0) as [?|_]; [contradiction|].
  change (0 =? -1) with false. cbn iota.
  rewrite Hwork by lia.
  destruct (Z.ltb_spec MAX_BYTES_DIRECT_DATA n) as [?|_]; [lia|].
  rewrite Z.add_0_r.
  rewrite data_block_get_addr by lia.
  cbn [of_offset].
  assert (Hchunk : write_chunk off m = (m, 0)).
  { unfold write_chunk.
    destruct (Z.geb_spec m BLOCK_SIZE) as [Hfull|Hpart]; cbn [orb].
    - assert (off mod BLOCK_SIZE = 0 /\ m = BLOCK_SIZE) as [-> ->] by dlia.
      reflexivity.
    - destruct (Z.ltb_spec (BLOCK_SIZE - off mod BLOCK_SIZE) m); [lia|].
      reflexivity. }
  rewrite Hchunk.
  rewrite tfs_write_direct_region_loop_done.
  rewrite Hsz, !size_add_small by lia. rewrite Z.add_0_l.
  rewrite to_ssize_t_small by lia.
  destruct (Z.eqb_spec m (-1)) as [?|_]; [lia|].
  rewrite to_size_t_small, to_ssize_t_small by lia.
  eexists. split; [reflexivity|].
  rewrite commit_inode, commit_entry.
  destruct (commit_frame s inum fh
              (set_i_size (inode_of s inum) (n + m))
              (set_of_offset (mk_open_file_entry inum off) (off + m))
              (set_fs_data (data_blocks_s s)
                 (memcpy (fs_data (data_blocks_s s))
                    (block_addr (blocks_for n) + off mod BLOCK_SIZE)
                    (ptr_add buf 0) m)))
    as (Cd & _).
  rewrite Cd. cbn [set_fs_data fs_data free_blocks set_i_size i_size].
  split; [reflexivity|]. split; [reflexivity|].
  split; [|split; [|reflexivity]].
  - intros i Hi. rewrite memcpy_inside by lia. unfold ptr_add. f_equal. lia.
  - intros a Ha. apply memcpy_outside. lia.
Qed.

(** [tfs_write] does not write where the offset points.  In the direct
    region, when the size of the file is not a multiple of [BLOCK_SIZE]
    and the bytes fit between [offset mod BLOCK_SIZE] and the end of a
    block, the bytes go into the working block of the file (its last
    one) at position [offset mod BLOCK_SIZE], whatever block the offset
    lies in, and the size of the file grows by the number of bytes
    written even when they replace bytes of the file.  No other byte of
    the pool changes and no block is allocated. *)
Theorem tfs_write_goes_to_the_working_block :
  forall (s : tfs) (fh inum n off m : Z) (content buf : buffer_t),
    sole_file s inum n content ->
    0 <= fh < MAX_OPEN_FILES ->
    entry_of s fh = mk_open_file_entry inum off ->
    0 <= off < 2 ^ 63 ->
    n mod BLOCK_SIZE <> 0 ->
    0 < m ->
    off mod BLOCK_SIZE + m <= BLOCK_SIZE ->
    n + m <= MAX_BYTES_DIRECT_DATA ->
    let target := block_addr (blocks_for n) + off mod BLOCK_SIZE in
    exists s',
      tfs_write fh buf m s = Some (s', m)
      /\ i_size (inode_of s' inum) = n + m
      /\ entry_of s' fh = mk_open_file_entry inum (off + m)
      /\ (forall i, 0 <= i < m ->
            fs_data (data_blocks_s s') (target + i) = buf i)
      /\ (forall a, a < target \/ target + m <= a ->
            fs_data (data_blocks_s s') a = fs_data (data_blocks_s s) a)
      /\ free_blocks (data_blocks_s s') = free_blocks (data_blocks_s s).
Proof. exact tfs_write_working_block. Qed.

(** Scenario S1, then three bytes written through a second handle that
    stands at offset 0: "/a" has 8 bytes afterwards. *)
Lemma tfs_write_goes_to_the_working_block_witness :
  let target := block_addr (blocks_for 5) + 0 mod BLOCK_SIZE in
  exists s',
    tfs_write 0 xs 3 hello_reopened = Some (s', 3)
    /\ i_size (inode_of s' 1) = 5 + 3
    /\ entry_of s' 0 = mk_open_file_entry 1 (0 + 3)
    /\ (forall i, 0 <= i < 3 ->
          fs_data (data_blocks_s s') (target + i) = xs i)
    /\ (forall a, a < target \/ target + 3 <= a ->
          fs_data (data_blocks_s s') a = fs_data (data_blocks_s hello_reopened) a)
    /\ free_blocks (data_blocks_s s') = free_blocks (data_blocks_s hello_reopened).
Proof.
  apply (tfs_write_goes_to_the_working_block hello_reopened 0 1 5 0 3
           (buffer_of_string "hello") xs).
  - apply (sole_file_frame hello_written);
      [reflexivity|reflexivity|exact hello_written_sole_file].
  - lia.
  - reflexivity.
  - lia.
  - vm_compute. discriminate.
  - lia.
  - vm_compute. discriminate.
  - lia.
Defined.

(** ** Truncating a file of one block *)

(** Opening with TRUNC gives back the working block only, which is all
    there is to give back when the file holds at most [BLOCK_SIZE]
    bytes: the file is then empty again, with its handle at offset 0,
    and the pool is as it was before the file was written, so that
    writes to it append from byte 0 as they do to a new file. *)
Theorem tfs_open_trunc_empties_one_block_file :
  forall (s : tfs) (name : option string) (flags inum n : Z) (content : buffer_t),
    tfs_lookup name s = inum ->
    sole_file s inum n content ->
    0 < n <= BLOCK_SIZE ->
    flag_set flags TFS_O_TRUNC = true ->
    (exists k, 0 <= k < MAX_OPEN_FILES
               /\ free_open_file_entries (fs_state_s s) k = FREE) ->
    let s' := fst (tfs_open name flags s) in
    let fh := snd (tfs_open name flags s) in
    0 <= fh < MAX_OPEN_FILES
    /\ free_open_file_entries (fs_state_s s) fh = FREE
    /\ entry_of s' fh = mk_open_file_entry inum 0
    /\ sole_file s' inum 0 content
    /\ free_blocks (data_blocks_s s') 1 = FREE
    /\ fs_data (data_blocks_s s') = fs_data (data_blocks_s s)
    /\ forall buf m,
         0 < m <= MAX_BYTES ->
         exists s'',
           tfs_write fh buf m s' = Some (s'', m)
           /\ sole_file s'' inum m buf.
Proof.
  intros s name flags inum n content Hlook Hsole Hn Htrunc (k & Hk & Hkfree).
  pose proof Hsole as [Hinum Hlim Hsz Hbytes Hpool Hwork Href].
  assert (Hvalid : valid_pathname name = true)
    by (apply (tfs_lookup_resolves name s); lia).
  assert (Hbf : blocks_for n = 1) by (unfold blocks_for; dlia).
  destruct (Z.ltb_spec MAX_BYTES_DIRECT_DATA n) as [?|_]; [lia|].
  rewrite Hbf in *. rewrite Z.add_0_r in *.
  cbn zeta. unfold tfs_open. rewrite Hvalid, Hlook. cbn [negb].
  destruct (Z.leb_spec 0 inum) as [_|?]; [|lia].
  rewrite (inode_get_valid _ Hinum). rewrite Htrunc.
  fold (inode_of s inum). rewrite Hsz.
  destruct (Z.ltb_spec 0 n) as [_|?]; [|lia]. cbn [andb].
  rewrite Hwork by lia.
  change (data_block_free 1 (data_blocks_s s))
    with (set_free_blocks (data_blocks_s s)
            (upd (free_blocks (data_blocks_s s)) 1 FREE), 0).
  cbn beta iota. change (0 =? -1) with false. cbn iota.
  set (d1 := set_free_blocks (data_blocks_s s) _).
  set (s1 := set_inode (set_data_blocks s d1) inum (set_i_size (inode_of s inum) 0)).
  assert (Hs1 : inode_table (inode_table_s s1) inum = set_i_size (inode_of s inum) 0)
    by (unfold s1, set_inode; cbn [inode_table_s inode_table]; apply upd_eq).
  rewrite Hs1. cbn [set_i_size i_size].
  assert (Hoffset : (if flag_set flags TFS_O_APPEND then 0 else 0) = 0)
    by (destruct (flag_set flags TFS_O_APPEND); reflexivity).
  rewrite Hoffset.
  unfold tfs_open_add.
  destruct (add_to_open_file_table_first_free inum 0 (fs_state_s s1))
    as [(_ & Hall)|(fh & Hfh & Hfree & _ & Hrun)].
  { change (fs_state_s s1) with (fs_state_s s) in Hall.
    rewrite Hall in Hkfree by exact Hk. discriminate. }
  rewrite Hrun. cbn [fst snd].
  set (s' := set_fs_state s1 _).
  assert (Hent : entry_of s' fh = mk_open_file_entry inum 0)
    by (unfold entry_of, s'; cbn [set_fs_state fs_state_s open_file_table];
        apply upd_eq).
  assert (Hempty : forall c, sole_file s' inum 0 c).
  { intros c.
    assert (Hino : inode_of s' inum = set_i_size (inode_of s inum) 0) by exact Hs1.
    constructor; rewrite ?Hino; cbn [set_i_size i_size i_data_block i_block];
      auto; try lia.
    intros b Hb. change (free_blocks (data_blocks_s s') b)
                   with (upd (free_blocks (data_blocks_s s)) 1 FREE b).
    change (1 + blocks_for 0 + (if MAX_BYTES_DIRECT_DATA <? 0 then 1 else 0))
      with 1.
    destruct (Z.eq_dec b 1) as [->|Hne]; [rewrite upd_eq; reflexivity|].
    rewrite upd_neq by exact Hne. rewrite (Hpool b Hb).
    destruct (Z.ltb_spec b (1 + 1)); destruct (Z.ltb_spec b 1); try reflexivity; lia. }
  split; [exact Hfh|]. split; [exact Hfree|]. split; [exact Hent|].
  split; [apply Hempty|].
  split; [change (free_blocks (data_blocks_s s') 1)
            with (upd (free_blocks (data_blocks_s s)) 1 FREE 1); apply upd_eq|].
  split; [reflexivity|].
  intros buf m Hm.
  destruct (tfs_write_sole_file s' fh inum 0 m zeros buf (Hempty zeros) Hfh Hent)
    as (s'' & Hwrite & Hsole'' & _); [lia|lia|].
  exists s''. split; [exact Hwrite|].
  destruct Hsole'' as [Q1 Q2 Q3 Q4 Q5 Q6 Q7]. rewrite Z.add_0_l in *.
  constructor; auto.
  intros B HB. rewrite Q4 by exact HB. unfold appended.
  destruct (Z.ltb_spec B 0); [lia|]. f_equal; lia.
Qed.

Lemma tfs_open_trunc_empties_one_block_file_witness :
  let s := hello_closed in
  let name := Some "/a"%string in
  let flags := TFS_O_TRUNC in
  let s' := fst (tfs_open name flags s) in
  let fh := snd (tfs_open name flags s) in
  0 <= fh < MAX_OPEN_FILES
  /\ free_open_file_entries (fs_state_s s) fh = FREE
  /\ entry_of s' fh = mk_open_file_entry 1 0
  /\ sole_file s' 1 0 (buffer_of_string "hello")
  /\ free_blocks (data_blocks_s s') 1 = FREE
  /\ fs_data (data_blocks_s s') = fs_data (data_blocks_s s)
  /\ forall buf m,
       0 < m <= MAX_BYTES ->
       exists s'',
         tfs_write fh buf m s' = Some (s'', m)
         /\ sole_file s'' 1 m buf.
Proof.
  apply (tfs_open_trunc_empties_one_block_file hello_closed (Some "/a"%string)
           TFS_O_TRUNC 1 5 (buffer_of_string "hello")).
  - reflexivity.
  - apply (sole_file_frame hello_written);
      [reflexivity|reflexivity|exact hello_written_sole_file].
  - lia.
  - reflexivity.
  - exists 0. split; [lia|reflexivity].
Defined.

(** ** C8: handles handed out to concurrent opens *)

Import Interleaving.

Lemma set_thread_eq th t p : set_thread th t p t = p.
Proof. unfold set_thread. now rewrite Nat.eqb_refl. Qed.

Lemma set_thread_neq th t u p : u <> t -> set_thread th t p u = th u.
Proof.
  intros H. unfold set_thread. destruct (Nat.eqb_spec u t); congruence.
Qed.

Lemma initial_invariant c : initial c -> invariant c.
Proof.
  intros [Hm Hall].
  constructor; intros t; destruct (Hall t) as (i0 & o0 & Ht);
    intros; rewrite Ht in *; simpl in *; try contradiction; discriminate.
Qed.

(** Case analysis on whether a thread is the one that moved. *)
Ltac moved t u :=
  destruct (Nat.eq_dec u t) as [->|?];
  [ rewrite set_thread_eq in * | rewrite set_thread_neq in * by assumption ].

Lemma step_invariant c c' : step c c' -> invariant c -> invariant c'.
Proof.
  intros Hstep [Hmutex Htest Htake Htaken Hdistinct].
  destruct Hstep as [c t inum off Hpc Hfree
                    | c t inum off i Hpc Hi Hslot
                    | c t inum off i Hpc Hi Hslot
                    | c t inum off i Hpc Hi
                    | c t inum off i Hpc
                    | c t h Hpc].
  - (* lock *)
    constructor; cbn [threads mutex table].
    + intros u Hu. moved t u; [reflexivity|].
      apply Hmutex in Hu. congruence.
    + intros u inum' off' i Hu. moved t u; [inversion Hu; lia|eauto].
    + intros u inum' off' i Hu. moved t u; [discriminate|eauto].
    + intros u h Hu Hh. moved t u; [discriminate|eauto].
    + intros u v h Huv Hu Hv.
      moved t u; [discriminate|]. moved t v; [discriminate|eauto].
  - (* the slot tested is taken *)
    assert (Hown : mutex c = Some t) by (apply Hmutex; now rewrite Hpc).
    constructor; cbn [threads mutex table].
    + intros u Hu. moved t u; [assumption|eauto].
    + intros u inum' off' j Hu.
      moved t u; [inversion Hu; subst; apply Htest in Hpc; lia|eauto].
    + intros u inum' off' j Hu. moved t u; [discriminate|eauto].
    + intros u h Hu Hh. moved t u; [discriminate|eauto].
    + intros u v h Huv Hu Hv.
      moved t u; [discriminate|]. moved t v; [discriminate|eauto].
  - (* the slot tested is free *)
    assert (Hown : mutex c = Some t) by (apply Hmutex; now rewrite Hpc).
    constructor; cbn [threads mutex table].
    + intros u Hu. moved t u; [assumption|eauto].
    + intros u inum' off' j Hu. moved t u; [discriminate|eauto].
    + intros u inum' off' j Hu.
      moved t u; [|eauto].
      inversion Hu; subst. split; [eapply Htest; eassumption|].
      now apply allocation_state_eqb_FREE.
    + intros u h Hu Hh. moved t u; [discriminate|eauto].
    + intros u v h Huv Hu Hv.
      moved t u; [discriminate|]. moved t v; [discriminate|eauto].
  - (* the table is full *)
    assert (Hown : mutex c = Some t) by (apply Hmutex; now rewrite Hpc).
    constructor; cbn [threads mutex table].
    + intros u Hu. moved t u; [assumption|eauto].
    + intros u inum' off' j Hu. moved t u; [discriminate|eauto].
    + intros u inum' off' j Hu. moved t u; [discriminate|eauto].
    + intros u h Hu Hh. moved t u; [|eauto].
      inversion Hu; subst. congruence.
    + intros u v h Huv Hu Hv.
      moved t u.
      * now inversion Hu.
      * moved t v; [now inversion Hv|eauto].
  - (* the slot is written *)
    assert (Hown : mutex c = Some t) by (apply Hmutex; now rewrite Hpc).
    destruct (Htake _ _ _ _ Hpc) as (Hi0 & Hifree).
    constructor; cbn [threads mutex table free_open_file_entries].
    + intros u Hu. moved t u; [assumption|eauto].
    + intros u inum' off' j Hu. moved t u; [discriminate|eauto].
    + intros u inum' off' j Hu. moved t u; [discriminate|].
      (* another thread about to write would hold the lock as well *)
      assert (mutex c = Some u) by (apply Hmutex; now rewrite Hu).
      congruence.
    + intros u h Hu Hh. moved t u.
      * inversion Hu; subst. split; [assumption|apply upd_eq].
      * destruct (Htaken _ _ Hu Hh) as (Hh0 & Hht). split; [assumption|].
        unfold upd. destruct (Z.eqb_spec h i); [reflexivity|assumption].
    + intros u v h Huv Hu Hv.
      moved t u.
      * inversion Hu; subst.
        rewrite set_thread_neq in Hv by congruence.
        destruct (Z.eq_dec h (-1)) as [|Hne]; [assumption|].
        destruct (Htaken _ _ Hv Hne) as (_ & Hht). congruence.
      * moved t v; [|eauto].
        inversion Hv; subst.
        destruct (Z.eq_dec h (-1)) as [|Hne]; [assumption|].
        destruct (Htaken _ _ Hu Hne) as (_ & Hht). congruence.
  - (* unlock *)
    assert (Hown : mutex c = Some t) by (apply Hmutex; now rewrite Hpc).
    constructor; cbn [threads mutex table].
    + intros u Hu. moved t u; [contradiction|].
      apply Hmutex in Hu. congruence.
    + intros u inum' off' j Hu. moved t u; [discriminate|eauto].
    + intros u inum' off' j Hu. moved t u; [discriminate|eauto].
    + intros u h' Hu Hh. moved t u; [|eauto].
      inversion Hu; subst. apply (Htaken t); [now rewrite Hpc|assumption].
    + intros u v h' Huv Hu Hv.
      moved t u.
      * inversion Hu; subst. rewrite set_thread_neq in Hv by congruence.
        apply (Hdistinct t v); auto. now rewrite Hpc.
      * moved t v; [|eauto].
        inversion Hv; subst. apply (Hdistinct u t); auto. now rewrite Hpc.
Qed.

Lemma steps_invariant c c' : steps c c' -> invariant c -> invariant c'.
Proof.
  induction 1 as [|c1 c2 c3 Hstep _ IH]; intros Hinv; [assumption|].
  apply IH. eapply step_invariant; eassumption.
Qed.

(** The steps of one thread, run without interruption, compute what the
    sequential [add_to_open_file_table] of [tfs_open] computes. *)
Lemma scan_alone t inumber offset fuel :
  forall c i,
    threads c t = AtTest inumber offset i ->
    i + Z.of_nat fuel = MAX_OPEN_FILES ->
    exists c',
      steps c c'
      /\ threads c' t
         = AtUnlock (snd (add_to_open_file_table_loop fuel i inumber offset
                            (table c)))
      /\ table c'
         = fst (add_to_open_file_table_loop fuel i inumber offset (table c))
      /\ mutex c' = mutex c
      /\ forall u, u <> t -> threads c' u = threads c u.
Proof.
  induction fuel as [|fuel IH]; intros c i Hpc Hi.
  - eexists. split; [|split; [|split; [|split]]].
    + eapply steps_step; [|apply steps_refl].
      eapply step_scan_full; [eassumption|lia].
    + cbn. apply set_thread_eq.
    + reflexivity.
    + reflexivity.
    + intros u Hu. cbn. now apply set_thread_neq.
  - cbn [add_to_open_file_table_loop].
    destruct (allocation_state_eqb (free_open_file_entries (table c) i) FREE)
      eqn:Hslot.
    + eexists. split; [|split; [|split; [|split]]].
      * eapply steps_step;
          [eapply step_scan_free; [eassumption|lia|assumption]|].
        eapply steps_step; [|apply steps_refl].
        eapply step_take. cbn. apply set_thread_eq.
      * cbn. apply set_thread_eq.
      * reflexivity.
      * reflexivity.
      * intros u Hu. cbn. now rewrite !set_thread_neq by assumption.
    + destruct (IH (mk_config
                      (set_thread (threads c) t (AtTest inumber offset (i + 1)))
                      (mutex c) (table c)) (i + 1))
        as (c' & Hrun & Hpc' & Htab & Hm & Hothers).
      * cbn. apply set_thread_eq.
      * lia.
      * exists c'. split; [|split; [|split; [|split]]]; auto.
        -- eapply steps_step; [|exact Hrun].
           eapply step_scan_taken; [eassumption|lia|assumption].
        -- intros u Hu. rewrite Hothers by assumption. cbn.
           now apply set_thread_neq.
Qed.

Lemma open_alone c t inumber offset :
  threads c t = AtLock inumber offset ->
  mutex c = None ->
  exists c',
    steps c c'
    /\ threads c' t
       = Returned (snd (add_to_open_file_table inumber offset (table c)))
    /\ table c' = fst (add_to_open_file_table inumber offset (table c))
    /\ mutex c' = None
    /\ forall u, u <> t -> threads c' u = threads c u.
Proof.
  intros Hpc Hm.
  destruct (scan_alone t inumber offset (Z.to_nat MAX_OPEN_FILES)
              (mk_config (set_thread (threads c) t (AtTest inumber offset 0))
                 (Some t) (table c)) 0)
    as (c1 & Hrun & Hpc1 & Htab & _ & Hothers).
  - cbn. apply set_thread_eq.
  - reflexivity.
  - eexists. split; [|split; [|split; [|split]]].
    + eapply steps_step; [eapply step_lock; eassumption|].
      assert (Happ : forall a b d, steps a b -> steps b d -> steps a d).
      { induction 1; intros; [assumption|].
        eapply steps_step; [eassumption|auto]. }
      eapply Happ; [exact Hrun|].
      eapply steps_step; [|apply steps_refl].
      eapply step_unlock. exact Hpc1.
    + cbn. apply set_thread_eq.
    + exact Htab.
    + reflexivity.
    + intros u Hu. cbn. rewrite set_thread_neq by assumption.
      rewrite Hothers by assumption. cbn. now apply set_thread_neq.
Qed.





(** ** Concurrent opens: the lock and the handles *)

(** The scan of the open-file table is a critical section: under every
    interleaving, at most one thread is between the lock and the unlock
    of [tfs_open], so the test of an entry and the write that takes it
    are never separated by a step of another scan. *)
Theorem table_scan_is_mutually_exclusive :
  forall (c0 c : config) (t u : nat),
    initial c0 ->
    steps c0 c ->
    in_critical_section (threads c t) ->
    in_critical_section (threads c u) ->
    t = u.
Proof.
  intros c0 c t u Hinit Hsteps Ht Hu.
  assert (Hinv : invariant c)
    by (eapply steps_invariant; [eassumption|now apply initial_invariant]).
  pose proof (inv_mutex c Hinv t Ht) as Hmt.
  pose proof (inv_mutex c Hinv u Hu) as Hmu.
  congruence.
Qed.

Lemma table_scan_is_mutually_exclusive_witness : (1 = 1)%nat.
Proof.
  eapply (table_scan_is_mutually_exclusive two_openers _ 1%nat 1%nat).
  - split; [reflexivity|]. intros t. exists 1, 0. reflexivity.
  - eapply steps_step; [eapply (step_lock _ 1%nat); reflexivity|].
    eapply steps_step;
      [eapply (step_scan_free _ 1%nat); [reflexivity|reflexivity|reflexivity]|].
    apply steps_refl.
  - exact I.
  - exact I.
Defined.

Lemma step_within_table c c' : step c c' -> within_table c -> within_table c'.
Proof.
  intros Hstep Hin u.
  destruct Hstep as [c t inumber offset Ht Hm
                    |c t inumber offset i Ht Hi Hslot
                    |c t inumber offset i Ht Hi Hslot
                    |c t inumber offset i Ht Hi
                    |c t inumber offset i Ht
                    |c t fhandle Ht];
    cbn [threads]; specialize (Hin u) as Hu; specialize (Hin t) as Hthis;
    rewrite Ht in Hthis;
    (destruct (Nat.eq_dec u t) as [->|Hne];
     [rewrite set_thread_eq|rewrite set_thread_neq by assumption; exact Hu]);
    try exact I; try exact Hthis; try lia.
Qed.

Lemma steps_within_table c c' : steps c c' -> within_table c -> within_table c'.
Proof.
  induction 1 as [|c1 c2 c3 Hstep _ IH]; intros Hin; [assumption|].
  apply IH. eapply step_within_table; eassumption.
Qed.

Lemma initial_within_table c : initial c -> within_table c.
Proof.
  intros [_ Hall] t. destruct (Hall t) as (inumber & offset & ->). exact I.
Qed.

(** Under every interleaving, what a concurrent [tfs_open] returns from
    the open-file table is -1 or a handle in [0, MAX_OPEN_FILES) whose
    entry is marked as taken. *)
Theorem concurrent_opens_return_taken_entries :
  forall (c0 c : config) (t : nat) (h : Z),
    initial c0 ->
    steps c0 c ->
    threads c t = Returned h ->
    h = -1
    \/ (0 <= h < MAX_OPEN_FILES
        /\ free_open_file_entries (table c) h = TAKEN).
Proof.
  intros c0 c t h Hinit Hsteps Ht.
  destruct (Z.eq_dec h (-1)) as [Hfail|Hok]; [left; exact Hfail|right].
  assert (Hinv : invariant c)
    by (eapply steps_invariant; [eassumption|now apply initial_invariant]).
  assert (Hin : within_table c)
    by (eapply steps_within_table; [eassumption|now apply initial_within_table]).
  specialize (Hin t). rewrite Ht in Hin.
  destruct (inv_taken c Hinv t h) as [Hpos Htaken];
    [rewrite Ht; reflexivity|exact Hok|].
  split; [lia|exact Htaken].
Qed.

Lemma concurrent_opens_return_taken_entries_witness :
  exists c,
    threads c 1%nat = Returned 0
    /\ (0 = -1
        \/ (0 <= 0 < MAX_OPEN_FILES
            /\ free_open_file_entries (table c) 0 = TAKEN)).
Proof.
  destruct (open_alone two_openers 1%nat 1 0 eq_refl eq_refl)
    as (c & Hsteps & Hpc & _).
  exists c. split; [exact Hpc|].
  apply (concurrent_opens_return_taken_entries two_openers c 1%nat 0).
  - split; [reflexivity|]. intros t. exists 1, 0. reflexivity.
  - exact Hsteps.
  - exact Hpc.
Defined.
